(** * Workflow and batch orchestration of the Corporate-Agent backend

    A shallow embedding of the two Express routers that carry state-machine
    behaviour:

    - [routes/approvals] (create, step decision, cancel, and the read
      handlers: listing, one workflow, pending approvals), and
    - [routes/bulkBooking] (submit, cancel, retry, [processaBulkBooking]),

    and of the [authenticateToken] middleware in front of them, over a
    model of the Prisma client: every table is the list of its rows, every
    client call is one atomic read or write that may reject, and the
    handlers are written in a small state-and-exception monad so that the
    order of their persistence calls is the order of the source. A call
    that a handler starts without awaiting it is kept with the world, and
    runs as an invocation of its own. *)

From Stdlib Require Import ZArith List String Bool Lia Arith DecimalString Permutation.
Import ListNotations.

Local Open Scope string_scope.
Local Open Scope Z_scope.

(** ** JavaScript values the handlers test *)

(** [!x] for a value that is a string or [undefined]. *)
Definition falsy (x : option string) : bool :=
  match x with
  | None => true
  | Some s => String.eqb s ""
  end.

(** [x || d] for the same kind of value. *)
Definition or_else (x : option string) (d : string) : string :=
  match x with
  | None => d
  | Some s => if String.eqb s "" then d else s
  end.

(** ** The Prisma client *)

Module Prisma.

(** What a handler cannot decide by itself, indexed by the number of
    effects performed so far in the invocation:
    - [fault n]: the client call issued at tick [n] rejects (connection
      loss, a constraint of the schema that the model does not carry);
    - [random n]: the result of the test [Math.random() > 0.1] at tick [n];
    - [cuid n]: the identifier generated at tick [n];
    - [clock n]: the value of [new Date()] / [Date.now()] at tick [n];
    - [order n i]: the rank that the answer of the call issued at tick [n]
      gives to the [i]-th row of a relation it includes without
      [orderBy]. *)
Record Env : Type := {
  fault : nat -> bool;
  random : nat -> bool;
  cuid : nat -> string;
  clock : nat -> Z;
  order : nat -> nat -> nat
}.

Inductive Outcome (A : Type) : Type :=
| Ok (a : A)
| Throw (e : string).
Arguments Ok {A} a.
Arguments Throw {A} e.

(** The database, the number of effects so far, and the calls of async
    functions started without [await], each with the name of the function
    and its argument. *)
Record World (Db : Type) : Type := {
  db : Db;
  tick : nat;
  started : list (string * string)
}.
Arguments db {Db} w.
Arguments tick {Db} w.
Arguments started {Db} w.
Arguments Build_World {Db} db tick started.

Definition M (Db A : Type) : Type := Env -> World Db -> Outcome A * World Db.

Section Client.
Context {Db : Type}.

Definition ret {A} (a : A) : M Db A := fun _ w => (Ok a, w).

Definition bind {A B} (m : M Db A) (k : A -> M Db B) : M Db B :=
  fun env w =>
    match m env w with
    | (Ok a, w') => k a env w'
    | (Throw e, w') => (Throw e, w')
    end.

(** [try { m } catch (error) { h error }]: no rollback, the handler runs
    in the world the failing statement left. *)
Definition try_catch {A} (m : M Db A) (h : string -> M Db A) : M Db A :=
  fun env w =>
    match m env w with
    | (Ok a, w') => (Ok a, w')
    | (Throw e, w') => h e env w'
    end.

Definition bump (w : World Db) : World Db :=
  Build_World (db w) (S (tick w)) (started w).

(** One call of the client: it either rejects and leaves the database as
    it was, or performs [f] as a whole. *)
Definition call {A} (f : Db -> Outcome (A * Db)) : M Db A :=
  fun env w =>
    if fault env (tick w) then (Throw "PrismaClientError", bump w)
    else match f (db w) with
         | Ok (a, d) => (Ok a, Build_World d (S (tick w)) (started w))
         | Throw e => (Throw e, bump w)
         end.

Definition new_Date : M Db Z := fun env w => (Ok (clock env (tick w)), w).

Definition Math_random_gt : M Db bool :=
  fun env w => (Ok (random env (tick w)), bump w).

Definition new_id : M Db string :=
  fun env w => (Ok (cuid env (tick w)), bump w).

(** As many generated identifiers as the list has elements. *)
Fixpoint new_ids {A} (l : list A) : M Db (list string) :=
  match l with
  | [] => ret []
  | _ :: rest =>
      bind new_id (fun i => bind (new_ids rest) (fun ids => ret (i :: ids)))
  end.

(** An invocation starts at tick 0. *)
Definition run {A} (m : M Db A) (env : Env) (d : Db) : Outcome A * Db :=
  let (o, w) := m env (Build_World d 0 []) in (o, db w).

(** [f(arg)], a call of an async function made without [await]: the
    callee has not reached the database when the caller goes on, and
    whatever happens to it later does not come back to the caller. The
    world keeps the call; it runs in turns of the event loop that follow. *)
Definition detached (f arg : string) : M Db unit :=
  fun _ w => (Ok tt, Build_World (db w) (tick w) (started w ++ [(f, arg)])).

(** The calls that an invocation has started without awaiting them. *)
Definition launched {A} (m : M Db A) (env : Env) (d : Db) : list (string * string) :=
  started (snd (m env (Build_World d 0 []))).

End Client.

Definition no_faults (env : Env) : Prop := forall n, fault env n = false.

(** Rows of a table are kept in insertion order. *)
Section Table.
Context {R : Type}.

Definition find_first (p : R -> bool) (t : list R) : option R := find p t.

Definition update_where (p : R -> bool) (f : R -> R) (t : list R) : list R :=
  map (fun r => if p r then f r else r) t.

(** The rows of a relation that a call includes without [orderBy] come
    in the order of the ranks that the answer gives them, rows of one rank
    in table order. *)
Fixpoint place (k : nat) (r : R) (l : list (nat * R)) : list (nat * R) :=
  match l with
  | [] => [(k, r)]
  | (k', r') :: rest =>
      if (k <=? k')%nat then (k, r) :: l else (k', r') :: place k r rest
  end.

Fixpoint ranked (rank : nat -> nat) (i : nat) (rows : list R) : list (nat * R) :=
  match rows with
  | [] => []
  | r :: rest => place (rank i) r (ranked rank (S i) rest)
  end.

Definition arrange (rank : nat -> nat) (rows : list R) : list R :=
  map snd (ranked rank 0 rows).

End Table.

End Prisma.

Declare Scope prisma_scope.
Delimit Scope prisma_scope with prisma.
Notation "x <- m ;; k" := (Prisma.bind m (fun x => k))
  (at level 61, m at next level, right associativity) : prisma_scope.
Notation "m ;; k" := (Prisma.bind m (fun _ => k))
  (at level 61, right associativity) : prisma_scope.

Local Open Scope prisma_scope.

(** The value of a string-or-undefined when it is truthy. *)
Definition truthy (x : option string) : option string :=
  if falsy x then None else x.

(** [xs.map((x, index) => f index x)] *)
Fixpoint mapi_from {A B} (i : Z) (f : Z -> A -> B) (xs : list A) : list B :=
  match xs with
  | [] => []
  | x :: rest => f i x :: mapi_from (i + 1) f rest
  end.

Definition mapi {A B} (f : Z -> A -> B) (xs : list A) : list B :=
  mapi_from 0 f xs.

(** [Array.length] as a JavaScript number. *)
Definition len {A} (xs : list A) : Z := Z.of_nat (List.length xs).

(** A column whose new value is [undefined] keeps its old value. *)
Definition assign {A} (new : option A) (old : A) : A :=
  match new with
  | Some v => v
  | None => old
  end.

Definition assign_opt {A} (new old : option A) : option A :=
  match new with
  | Some v => Some v
  | None => old
  end.

(** All of a list of optional rows, when none is missing. *)
Fixpoint all_rows {A} (l : list (option A)) : option (list A) :=
  match l with
  | [] => Some []
  | None :: _ => None
  | Some x :: rest => option_map (cons x) (all_rows rest)
  end.

(** The first of two identifier lists has no element of the second and no
    repetition: what the primary key of a table demands of inserted rows. *)
Definition fresh_ids (new old : list string) : bool :=
  forallb (fun i => negb (existsb (String.eqb i) old)) new
  && (fix nodup (l : list string) : bool :=
        match l with
        | [] => true
        | i :: rest => negb (existsb (String.eqb i) rest) && nodup rest
        end) new.

(** ** Approval workflows: [routes/approvals] *)

Module Approvals.
Import Prisma.

Module WorkflowStatus.
Inductive t : Type := PENDING | IN_PROGRESS | APPROVED | REJECTED | CANCELLED.
End WorkflowStatus.

Module StepStatus.
Inductive t : Type := PENDING | IN_PROGRESS | APPROVED | REJECTED | SKIPPED.

(** The enum values the client accepts for a [StepStatus] column. *)
Definition of_string (s : string) : option t :=
  if String.eqb s "PENDING" then Some PENDING
  else if String.eqb s "IN_PROGRESS" then Some IN_PROGRESS
  else if String.eqb s "APPROVED" then Some APPROVED
  else if String.eqb s "REJECTED" then Some REJECTED
  else if String.eqb s "SKIPPED" then Some SKIPPED
  else None.
End StepStatus.

Module WorkflowType.
Inductive t : Type :=
| APPOINTMENT_CANCELLATION | REFUND_REQUEST | SPECIAL_DISCOUNT
| EMERGENCY_BOOKING | BULK_BOOKING_APPROVAL | CUSTOMER_COMPLAINT.

Definition of_string (s : string) : option t :=
  if String.eqb s "APPOINTMENT_CANCELLATION" then Some APPOINTMENT_CANCELLATION
  else if String.eqb s "REFUND_REQUEST" then Some REFUND_REQUEST
  else if String.eqb s "SPECIAL_DISCOUNT" then Some SPECIAL_DISCOUNT
  else if String.eqb s "EMERGENCY_BOOKING" then Some EMERGENCY_BOOKING
  else if String.eqb s "BULK_BOOKING_APPROVAL" then Some BULK_BOOKING_APPROVAL
  else if String.eqb s "CUSTOMER_COMPLAINT" then Some CUSTOMER_COMPLAINT
  else None.
End WorkflowType.

Module WorkflowPriority.
Inductive t : Type := LOW | MEDIUM | HIGH | URGENT.

Definition of_string (s : string) : option t :=
  if String.eqb s "LOW" then Some LOW
  else if String.eqb s "MEDIUM" then Some MEDIUM
  else if String.eqb s "HIGH" then Some HIGH
  else if String.eqb s "URGENT" then Some URGENT
  else None.
End WorkflowPriority.

(** Table [approval_workflows]. The columns [requestData], [estimatedValue],
    [dueDate], [createdAt] and [updatedAt] are payload that no handler
    reads back; they are left out. *)
Module ApprovalWorkflow.
Record t : Type := {
  id : string;
  requestType : WorkflowType.t;
  requestId : string;
  requesterId : string;
  currentStep : Z;
  totalSteps : Z;
  status : WorkflowStatus.t;
  priority : WorkflowPriority.t;
  title : string;
  description : option string;
  justification : option string;
  completedAt : option Z;
  cancellationReason : option string
}.
End ApprovalWorkflow.

(** Table [workflow_steps]. *)
Module WorkflowStep.
Record t : Type := {
  id : string;
  workflowId : string;
  stepOrder : Z;
  stepName : string;
  description : option string;
  isOptional : bool;
  approverId : option string;
  status : StepStatus.t;
  comments : option string;
  approverNotes : option string;
  processedAt : option Z;
  processedBy : option string
}.
End WorkflowStep.

Record Db : Type := {
  approvalWorkflow : list ApprovalWorkflow.t;
  workflowStep : list WorkflowStep.t
}.

(** *** Requests and responses *)

Record StepInput : Type := {
  in_stepName : option string;
  in_description : option string;
  in_isOptional : option bool;
  in_approverId : option string
}.

(** [steps] is [None] when the body has no [steps] or it is not an array. *)
Record CreateRequest : Type := {
  c_agent : option string;
  c_requestType : option string;
  c_requestId : option string;
  c_priority : option string;
  c_description : option string;
  c_justification : option string;
  c_steps : option (list StepInput)
}.

Record DecideRequest : Type := {
  d_agent : option string;
  d_workflowId : string;
  d_stepId : string;
  d_status : option string;
  d_comments : option string;
  d_approverNotes : option string
}.

Record CancelRequest : Type := {
  x_agent : option string;
  x_id : string;
  x_reason : option string
}.

Inductive Body : Type :=
| message (m : string)
| workflow (w : option (ApprovalWorkflow.t * list WorkflowStep.t)).

Record Response : Type := { code : Z; body : Body }.

Definition json (c : Z) (b : Body) : Response := {| code := c; body := b |}.

(** *** Queries *)

(** [orderBy: { stepOrder: 'asc' }] *)
Fixpoint insert_step (s : WorkflowStep.t) (l : list WorkflowStep.t) : list WorkflowStep.t :=
  match l with
  | [] => [s]
  | x :: rest =>
      if WorkflowStep.stepOrder s <? WorkflowStep.stepOrder x
      then s :: l else x :: insert_step s rest
  end.

Definition order_steps (l : list WorkflowStep.t) : list WorkflowStep.t :=
  fold_right insert_step [] l.

Definition steps_of (wid : string) (d : Db) : list WorkflowStep.t :=
  filter (fun s => String.eqb (WorkflowStep.workflowId s) wid) (workflowStep d).

Definition find_workflow (wid : string) (d : Db) : option ApprovalWorkflow.t :=
  find_first (fun w => String.eqb (ApprovalWorkflow.id w) wid) (approvalWorkflow d).

Definition find_step (sid : string) (d : Db) : option WorkflowStep.t :=
  find_first (fun s => String.eqb (WorkflowStep.id s) sid) (workflowStep d).

(** [include: { steps: { orderBy: { stepOrder: 'asc' } } }] *)
Definition with_steps (d : Db) (w : ApprovalWorkflow.t)
  : ApprovalWorkflow.t * list WorkflowStep.t :=
  (w, order_steps (steps_of (ApprovalWorkflow.id w) d)).

(** [prisma.workflowStep.findFirst({ where: { id, workflowId, approverId },
    include: { workflow: true } })]. A step without approver has
    [approverId] null, which no agent identifier equals. *)
Definition step_where (sid wid agentId : string) (s : WorkflowStep.t) : bool :=
  String.eqb (WorkflowStep.id s) sid
  && String.eqb (WorkflowStep.workflowId s) wid
  && match WorkflowStep.approverId s with
     | Some a => String.eqb a agentId
     | None => false
     end.

Definition workflowStep_findFirst (sid wid agentId : string)
  : M Db (option (WorkflowStep.t * ApprovalWorkflow.t)) :=
  call (fun d =>
    match find_first (step_where sid wid agentId) (workflowStep d) with
    | None => Ok (None, d)
    | Some s =>
        match find_workflow (WorkflowStep.workflowId s) d with
        | Some w => Ok (Some (s, w), d)
        | None => Throw "PrismaClientError"
        end
    end).

(** [prisma.approvalWorkflow.findFirst({ where: { id, requesterId } })] *)
Definition approvalWorkflow_findFirst (wid agentId : string)
  : M Db (option ApprovalWorkflow.t) :=
  call (fun d =>
    Ok (find_first
          (fun w => String.eqb (ApprovalWorkflow.id w) wid
                    && String.eqb (ApprovalWorkflow.requesterId w) agentId)
          (approvalWorkflow d), d)).

(** [prisma.approvalWorkflow.findUnique({ where: { id }, include: steps })] *)
Definition approvalWorkflow_findUnique (wid : string)
  : M Db (option (ApprovalWorkflow.t * list WorkflowStep.t)) :=
  call (fun d => Ok (option_map (with_steps d) (find_workflow wid d), d)).

(** *** Writes *)

Record StepData : Type := {
  sd_status : string;
  sd_comments : option string;
  sd_approverNotes : option string;
  sd_processedAt : Z;
  sd_processedBy : string
}.

Definition set_step (st : StepStatus.t) (data : StepData) (s : WorkflowStep.t)
  : WorkflowStep.t :=
  {| WorkflowStep.id := WorkflowStep.id s;
     WorkflowStep.workflowId := WorkflowStep.workflowId s;
     WorkflowStep.stepOrder := WorkflowStep.stepOrder s;
     WorkflowStep.stepName := WorkflowStep.stepName s;
     WorkflowStep.description := WorkflowStep.description s;
     WorkflowStep.isOptional := WorkflowStep.isOptional s;
     WorkflowStep.approverId := WorkflowStep.approverId s;
     WorkflowStep.status := st;
     WorkflowStep.comments := assign_opt (sd_comments data) (WorkflowStep.comments s);
     WorkflowStep.approverNotes :=
       assign_opt (sd_approverNotes data) (WorkflowStep.approverNotes s);
     WorkflowStep.processedAt := Some (sd_processedAt data);
     WorkflowStep.processedBy := Some (sd_processedBy data) |}.

Definition write_step (sid : string) (st : StepStatus.t) (data : StepData) (d : Db) : Db :=
  {| approvalWorkflow := approvalWorkflow d;
     workflowStep :=
       update_where (fun r => String.eqb (WorkflowStep.id r) sid)
                    (set_step st data) (workflowStep d) |}.

(** [prisma.workflowStep.update({ where: { id }, data })]: the client
    refuses a [status] outside the enum, and a row that does not exist. *)
Definition workflowStep_update (sid : string) (data : StepData) : M Db WorkflowStep.t :=
  call (fun d =>
    match StepStatus.of_string (sd_status data), find_step sid d with
    | Some st, Some s => Ok (set_step st data s, write_step sid st data d)
    | None, _ => Throw "PrismaClientValidationError"
    | _, None => Throw "PrismaClientKnownRequestError"
    end).

(** The object [workflowUpdate] of the decision handler and the [data] of
    the cancel handler: a key that is absent is [None]. *)
Record WorkflowData : Type := {
  wd_currentStep : option Z;
  wd_status : option WorkflowStatus.t;
  wd_completedAt : option Z;
  wd_cancellationReason : option string
}.

Definition no_keys : WorkflowData :=
  {| wd_currentStep := None; wd_status := None; wd_completedAt := None;
     wd_cancellationReason := None |}.

(** [Object.keys(workflowUpdate).length > 0] *)
Definition has_keys (u : WorkflowData) : bool :=
  match wd_currentStep u, wd_status u, wd_completedAt u, wd_cancellationReason u with
  | None, None, None, None => false
  | _, _, _, _ => true
  end.

Definition set_workflow (u : WorkflowData) (w : ApprovalWorkflow.t) : ApprovalWorkflow.t :=
  {| ApprovalWorkflow.id := ApprovalWorkflow.id w;
     ApprovalWorkflow.requestType := ApprovalWorkflow.requestType w;
     ApprovalWorkflow.requestId := ApprovalWorkflow.requestId w;
     ApprovalWorkflow.requesterId := ApprovalWorkflow.requesterId w;
     ApprovalWorkflow.currentStep := assign (wd_currentStep u) (ApprovalWorkflow.currentStep w);
     ApprovalWorkflow.totalSteps := ApprovalWorkflow.totalSteps w;
     ApprovalWorkflow.status := assign (wd_status u) (ApprovalWorkflow.status w);
     ApprovalWorkflow.priority := ApprovalWorkflow.priority w;
     ApprovalWorkflow.title := ApprovalWorkflow.title w;
     ApprovalWorkflow.description := ApprovalWorkflow.description w;
     ApprovalWorkflow.justification := ApprovalWorkflow.justification w;
     ApprovalWorkflow.completedAt :=
       assign_opt (wd_completedAt u) (ApprovalWorkflow.completedAt w);
     ApprovalWorkflow.cancellationReason :=
       assign_opt (wd_cancellationReason u) (ApprovalWorkflow.cancellationReason w) |}.

Definition write_workflow (wid : string) (u : WorkflowData) (d : Db) : Db :=
  {| approvalWorkflow :=
       update_where (fun r => String.eqb (ApprovalWorkflow.id r) wid)
                    (set_workflow u) (approvalWorkflow d);
     workflowStep := workflowStep d |}.

(** [prisma.approvalWorkflow.update({ where: { id }, data, include })] *)
Definition approvalWorkflow_update (wid : string) (u : WorkflowData)
  : M Db (ApprovalWorkflow.t * list WorkflowStep.t) :=
  call (fun d =>
    match find_workflow wid d with
    | Some w =>
        Ok (with_steps (write_workflow wid u d) (set_workflow u w),
            write_workflow wid u d)
    | None => Throw "PrismaClientKnownRequestError"
    end).

(** One row of the nested [steps: { create: steps.map(...) }]; the column
    [stepName] is required, so a step without name is refused, and an
    approver is connected only for a truthy [approverId]: the column is
    null otherwise. *)
Definition step_row (wid : string) (index : Z) (p : string * StepInput)
  : option WorkflowStep.t :=
  let (sid, step) := p in
  match in_stepName step with
  | None => None
  | Some name =>
      Some {| WorkflowStep.id := sid;
              WorkflowStep.workflowId := wid;
              WorkflowStep.stepOrder := index + 1;
              WorkflowStep.stepName := name;
              WorkflowStep.description := in_description step;
              WorkflowStep.isOptional :=
                match in_isOptional step with Some b => b | None => false end;
              WorkflowStep.approverId := truthy (in_approverId step);
              WorkflowStep.status := StepStatus.PENDING;
              WorkflowStep.comments := None;
              WorkflowStep.approverNotes := None;
              WorkflowStep.processedAt := None;
              WorkflowStep.processedBy := None |}
  end.

(** [prisma.approvalWorkflow.create({ data: { ..., steps: { create } },
    include })]: the workflow and its steps are inserted together or not at
    all. The columns that the data leave out take the defaults of the
    schema: [currentStep] 1, [status] PENDING, step [status] PENDING. *)
Definition approvalWorkflow_create
    (wid : string) (sids : list string) (agentId : string)
    (requestType requestId description0 priority : string)
    (justification : option string) (steps : list StepInput)
  : M Db (ApprovalWorkflow.t * list WorkflowStep.t) :=
  call (fun d =>
    match WorkflowType.of_string requestType,
          WorkflowPriority.of_string priority,
          all_rows (mapi (step_row wid) (combine sids steps)) with
    | Some ty, Some pr, Some rows =>
        if fresh_ids [wid] (map ApprovalWorkflow.id (approvalWorkflow d))
           && fresh_ids sids (map WorkflowStep.id (workflowStep d))
        then
          let w :=
            {| ApprovalWorkflow.id := wid;
               ApprovalWorkflow.requestType := ty;
               ApprovalWorkflow.requestId := requestId;
               ApprovalWorkflow.requesterId := agentId;
               ApprovalWorkflow.currentStep := 1;
               ApprovalWorkflow.totalSteps := len steps;
               ApprovalWorkflow.status := WorkflowStatus.PENDING;
               ApprovalWorkflow.priority := pr;
               ApprovalWorkflow.title := description0;
               ApprovalWorkflow.description := Some description0;
               ApprovalWorkflow.justification := justification;
               ApprovalWorkflow.completedAt := None;
               ApprovalWorkflow.cancellationReason := None |} in
          let d' :=
            {| approvalWorkflow := approvalWorkflow d ++ [w];
               workflowStep := workflowStep d ++ rows |} in
          Ok (with_steps d' w, d')
        else Throw "PrismaClientKnownRequestError"
    | _, _, _ => Throw "PrismaClientValidationError"
    end).

(** *** Handlers *)

Definition internal_error : string -> M Db Response :=
  fun _ => ret (json 500 (message "Internal server error")).

(** [router.post('/')] *)
Definition create (req : CreateRequest) : M Db Response :=
  try_catch
    (match truthy (c_agent req) with
     | None => ret (json 401 (message "Unauthorized"))
     | Some agentId =>
         match truthy (c_requestType req), truthy (c_requestId req),
               truthy (c_description req), c_steps req with
         | Some requestType, Some requestId, Some description0, Some steps =>
             if len steps =? 0
             then ret (json 400 (message "At least one approval step is required"))
             else
               wid <- new_id ;;
               sids <- new_ids steps ;;
               created <- approvalWorkflow_create wid sids agentId requestType requestId
                            description0 (or_else (c_priority req) "MEDIUM")
                            (c_justification req) steps ;;
               ret (json 201 (workflow (Some created)))
         | _, _, _, _ =>
             ret (json 400 (message "Missing required fields or invalid steps array"))
         end
     end)
    internal_error.

(** The object [workflowUpdate] that the decision handler builds from the
    verdict; [now] is the [new Date()] of the branch that takes one. *)
Definition workflowUpdate (status : string) (step : WorkflowStep.t)
    (wf : ApprovalWorkflow.t) (now : Z) : WorkflowData :=
  if String.eqb status "APPROVED" then
    if WorkflowStep.stepOrder step <? ApprovalWorkflow.totalSteps wf
    then {| wd_currentStep := Some (WorkflowStep.stepOrder step + 1);
            wd_status := None;
            wd_completedAt := None;
            wd_cancellationReason := None |}
    else {| wd_currentStep := None;
            wd_status := Some WorkflowStatus.APPROVED;
            wd_completedAt := Some now;
            wd_cancellationReason := None |}
  else if String.eqb status "REJECTED" then
    {| wd_currentStep := None;
       wd_status := Some WorkflowStatus.REJECTED;
       wd_completedAt := Some now;
       wd_cancellationReason := None |}
  else no_keys.

(** [router.patch('/:workflowId/steps/:stepId')] *)
Definition decideStep (req : DecideRequest) : M Db Response :=
  try_catch
    (match truthy (d_agent req) with
     | None => ret (json 401 (message "Unauthorized"))
     | Some agentId =>
         match truthy (d_status req) with
         | None => ret (json 400 (message "Status is required"))
         | Some status =>
             found <- workflowStep_findFirst (d_stepId req) (d_workflowId req) agentId ;;
             match found with
             | None =>
                 ret (json 404 (message
                   "Step not found or you are not authorized to approve this step"))
             | Some (step, wf) =>
                 if negb (ApprovalWorkflow.currentStep wf =? WorkflowStep.stepOrder step)
                 then ret (json 400 (message "This step is not currently active"))
                 else
                   processedAt <- new_Date ;;
                   workflowStep_update (d_stepId req)
                     {| sd_status := status;
                        sd_comments := d_comments req;
                        sd_approverNotes := d_approverNotes req;
                        sd_processedAt := processedAt;
                        sd_processedBy := agentId |} ;;
                   completedAt <- new_Date ;;
                   (if has_keys (workflowUpdate status step wf completedAt)
                    then approvalWorkflow_update (d_workflowId req)
                           (workflowUpdate status step wf completedAt) ;; ret tt
                    else ret tt) ;;
                   updatedWorkflow <- approvalWorkflow_findUnique (d_workflowId req) ;;
                   ret (json 200 (workflow updatedWorkflow))
             end
         end
     end)
    internal_error.

(** [router.patch('/:id/cancel')] *)
Definition cancel (req : CancelRequest) : M Db Response :=
  try_catch
    (match truthy (x_agent req) with
     | None => ret (json 401 (message "Unauthorized"))
     | Some agentId =>
         found <- approvalWorkflow_findFirst (x_id req) agentId ;;
         match found with
         | None => ret (json 404 (message "Workflow not found"))
         | Some wf =>
             match ApprovalWorkflow.status wf with
             | WorkflowStatus.PENDING | WorkflowStatus.IN_PROGRESS =>
                 completedAt <- new_Date ;;
                 updatedWorkflow <-
                   approvalWorkflow_update (x_id req)
                     {| wd_currentStep := None;
                        wd_status := Some WorkflowStatus.CANCELLED;
                        wd_completedAt := Some completedAt;
                        wd_cancellationReason := x_reason req |} ;;
                 ret (json 200 (workflow (Some updatedWorkflow)))
             | _ =>
                 ret (json 400 (message
                   "Can only cancel pending or in-progress workflows"))
             end
         end
     end)
    internal_error.

End Approvals.

(** ** Bulk bookings: [routes/bulkBooking] *)

(** [String(n)] and template interpolation of an integer. *)
Definition Number_toString (n : Z) : string :=
  DecimalString.NilZero.string_of_int (Z.to_int n).

Module Bulk.
Import Prisma.

Module BulkBookingStatus.
Inductive t : Type := PROCESSING | COMPLETED | FAILED | CANCELLED.

Definition eqb (a b : t) : bool :=
  match a, b with
  | PROCESSING, PROCESSING | COMPLETED, COMPLETED
  | FAILED, FAILED | CANCELLED, CANCELLED => true
  | _, _ => false
  end.
End BulkBookingStatus.

Module BulkItemStatus.
Inductive t : Type := PENDING | SUCCESS | FAILED.

Definition eqb (a b : t) : bool :=
  match a, b with
  | PENDING, PENDING | SUCCESS, SUCCESS | FAILED, FAILED => true
  | _, _ => false
  end.
End BulkItemStatus.

(** Table [customers], the columns the router reads. *)
Module Customer.
Record t : Type := {
  id : string;
  agentId : string;
  firstName : string;
  lastName : string;
  email : string;
  phone : string
}.
End Customer.

(** Table [bulk_bookings]. *)
Module BulkBooking.
Record t : Type := {
  id : string;
  batchNumber : string;
  batchName : string;
  description : option string;
  agentId : string;
  customerId : string;
  totalItems : Z;
  successfulItems : Z;
  failedItems : Z;
  status : BulkBookingStatus.t;
  notes : option string;
  completedAt : option Z
}.
End BulkBooking.

(** Table [bulk_booking_items]. An instant is its time value, the
    milliseconds since the epoch; [appointmentDate] is a [TIMESTAMP(3)]
    column and [appointmentTime] a text. The decimal [consultationFee] is
    left out: no transition reads it. *)
Module BulkBookingItem.
Record t : Type := {
  id : string;
  bulkBookingId : string;
  sequenceNumber : Z;
  appointmentDate : Z;
  appointmentTime : string;
  notes : option string;
  patientName : string;
  patientEmail : string;
  patientPhone : string;
  doctorId : string;
  hospitalId : string;
  status : BulkItemStatus.t;
  appointmentId : option string;
  errorMessage : option string;
  processedAt : option Z
}.
End BulkBookingItem.

(** Table [appointments], the columns [processaBulkBooking] fills, without
    the decimal amounts. [appointmentDate] is a [DATE] column. *)
Module Appointment.
Record t : Type := {
  id : string;
  appointmentNumber : string;
  patientName : string;
  patientEmail : string;
  patientPhone : string;
  doctorId : string;
  hospitalId : string;
  timeSlotId : string;
  agentId : string;
  customerId : string;
  appointmentDate : Z;
  appointmentTime : string;
  notes : option string
}.
End Appointment.

Record Db : Type := {
  customer : list Customer.t;
  bulkBooking : list BulkBooking.t;
  bulkBookingItem : list BulkBookingItem.t;
  appointment : list Appointment.t
}.

(** *** Requests and responses *)

(** One entry of [appointments]. [in_appointmentDate] is the time value of
    [new Date(apt.appointmentDate)], and [None] when that is an invalid
    date. *)
Record AppointmentInput : Type := {
  in_appointmentDate : option Z;
  in_appointmentTime : option string;
  in_notes : option string;
  in_patientName : option string;
  in_patientEmail : option string;
  in_patientPhone : option string;
  in_doctorId : option string;
  in_hospitalId : option string
}.

(** [appointments] is [None] when the body has none or it is not an array. *)
Record SubmitRequest : Type := {
  s_agent : option string;
  s_customerId : option string;
  s_batchName : option string;
  s_description : option string;
  s_appointments : option (list AppointmentInput)
}.

Record CancelRequest : Type := {
  x_agent : option string;
  x_id : string;
  x_reason : option string
}.

(** [itemIds] is [None] when the body has none. *)
Record RetryRequest : Type := {
  r_agent : option string;
  r_id : string;
  r_itemIds : option (list string)
}.

Inductive Body : Type :=
| message (m : string)
| booking (b : BulkBooking.t * list BulkBookingItem.t).

Record Response : Type := { code : Z; body : Body }.

Definition json (c : Z) (b : Body) : Response := {| code := c; body := b |}.

(** The first rule of [validateBulkAppointmentBooking] in
    [middleware/validation.ts]:
    [body('appointments').isArray({ min: 1, max: 10 })]. The router does
    not mount this middleware. *)
Definition validateBulkAppointmentBooking_isArray
    (appointments : option (list AppointmentInput)) : bool :=
  match appointments with
  | None => false
  | Some l => (1 <=? len l) && (len l <=? 10)
  end.

(** *** Queries *)

Definition items_of (bid : string) (d : Db) : list BulkBookingItem.t :=
  filter (fun i => String.eqb (BulkBookingItem.bulkBookingId i) bid) (bulkBookingItem d).

Definition is_status (st : BulkItemStatus.t) (i : BulkBookingItem.t) : bool :=
  BulkItemStatus.eqb (BulkBookingItem.status i) st.

Definition find_booking (bid : string) (d : Db) : option BulkBooking.t :=
  find_first (fun b => String.eqb (BulkBooking.id b) bid) (bulkBooking d).

(** [prisma.customer.findFirst({ where: { id: customerId, agentId } })] *)
Definition customer_findFirst (customerId agentId : string) : M Db (option Customer.t) :=
  call (fun d =>
    Ok (find_first
          (fun c => String.eqb (Customer.id c) customerId
                    && String.eqb (Customer.agentId c) agentId)
          (customer d), d)).

(** [prisma.bulkBooking.findFirst({ where: { id, agentId } })], with the
    items that [keep] selects when the caller includes them. *)
Definition bulkBooking_findFirst (bid agentId : string) (keep : BulkBookingItem.t -> bool)
  : M Db (option (BulkBooking.t * list BulkBookingItem.t)) :=
  call (fun d =>
    Ok (option_map (fun b => (b, filter keep (items_of (BulkBooking.id b) d)))
          (find_first
             (fun b => String.eqb (BulkBooking.id b) bid
                       && String.eqb (BulkBooking.agentId b) agentId)
             (bulkBooking d)), d)).

(** [prisma.bulkBooking.findUnique({ where: { id },
    include: { items: { where: { status: 'PENDING' } } } })] *)
Definition bulkBooking_findUnique_pending (bid : string)
  : M Db (option (BulkBooking.t * list BulkBookingItem.t)) :=
  call (fun d =>
    Ok (option_map
          (fun b => (b, filter (is_status BulkItemStatus.PENDING)
                               (items_of (BulkBooking.id b) d)))
          (find_booking bid d), d)).

(** [prisma.bulkBookingItem.findMany({ where: { bulkBookingId } })] *)
Definition bulkBookingItem_findMany (bid : string) : M Db (list BulkBookingItem.t) :=
  call (fun d => Ok (items_of bid d, d)).

(** *** Writes *)

(** [data] of [prisma.bulkBooking.update]; an absent key is [None], and
    [completedAt: null] is [Some None]. *)
Record BookingData : Type := {
  bd_status : option BulkBookingStatus.t;
  bd_successfulItems : option Z;
  bd_failedItems : option Z;
  bd_completedAt : option (option Z);
  bd_notes : option string
}.

Definition set_booking (u : BookingData) (b : BulkBooking.t) : BulkBooking.t :=
  {| BulkBooking.id := BulkBooking.id b;
     BulkBooking.batchNumber := BulkBooking.batchNumber b;
     BulkBooking.batchName := BulkBooking.batchName b;
     BulkBooking.description := BulkBooking.description b;
     BulkBooking.agentId := BulkBooking.agentId b;
     BulkBooking.customerId := BulkBooking.customerId b;
     BulkBooking.totalItems := BulkBooking.totalItems b;
     BulkBooking.successfulItems := assign (bd_successfulItems u) (BulkBooking.successfulItems b);
     BulkBooking.failedItems := assign (bd_failedItems u) (BulkBooking.failedItems b);
     BulkBooking.status := assign (bd_status u) (BulkBooking.status b);
     BulkBooking.notes := assign_opt (bd_notes u) (BulkBooking.notes b);
     BulkBooking.completedAt := assign (bd_completedAt u) (BulkBooking.completedAt b) |}.

Definition with_bookings (t : list BulkBooking.t) (d : Db) : Db :=
  {| customer := customer d; bulkBooking := t;
     bulkBookingItem := bulkBookingItem d; appointment := appointment d |}.

Definition with_items (t : list BulkBookingItem.t) (d : Db) : Db :=
  {| customer := customer d; bulkBooking := bulkBooking d;
     bulkBookingItem := t; appointment := appointment d |}.

Definition with_appointments (t : list Appointment.t) (d : Db) : Db :=
  {| customer := customer d; bulkBooking := bulkBooking d;
     bulkBookingItem := bulkBookingItem d; appointment := t |}.

(** [prisma.bulkBooking.update({ where: { id }, data, include })]; the
    items are those of the [include], for the caller that asks for them. *)
Definition bulkBooking_update (bid : string) (u : BookingData)
  : M Db (BulkBooking.t * list BulkBookingItem.t) :=
  call (fun d =>
    match find_booking bid d with
    | Some b =>
        Ok ((set_booking u b, items_of bid d),
            with_bookings
              (update_where (fun r => String.eqb (BulkBooking.id r) bid)
                            (set_booking u) (bulkBooking d)) d)
    | None => Throw "PrismaClientKnownRequestError"
    end).

(** [data] of the item updates; [errorMessage: null] is [Some None]. *)
Record ItemData : Type := {
  id_status : BulkItemStatus.t;
  id_appointmentId : option string;
  id_errorMessage : option (option string);
  id_processedAt : option Z
}.

Definition set_item (u : ItemData) (i : BulkBookingItem.t) : BulkBookingItem.t :=
  {| BulkBookingItem.id := BulkBookingItem.id i;
     BulkBookingItem.bulkBookingId := BulkBookingItem.bulkBookingId i;
     BulkBookingItem.sequenceNumber := BulkBookingItem.sequenceNumber i;
     BulkBookingItem.appointmentDate := BulkBookingItem.appointmentDate i;
     BulkBookingItem.appointmentTime := BulkBookingItem.appointmentTime i;
     BulkBookingItem.notes := BulkBookingItem.notes i;
     BulkBookingItem.patientName := BulkBookingItem.patientName i;
     BulkBookingItem.patientEmail := BulkBookingItem.patientEmail i;
     BulkBookingItem.patientPhone := BulkBookingItem.patientPhone i;
     BulkBookingItem.doctorId := BulkBookingItem.doctorId i;
     BulkBookingItem.hospitalId := BulkBookingItem.hospitalId i;
     BulkBookingItem.status := id_status u;
     BulkBookingItem.appointmentId :=
       assign_opt (id_appointmentId u) (BulkBookingItem.appointmentId i);
     BulkBookingItem.errorMessage :=
       assign (id_errorMessage u) (BulkBookingItem.errorMessage i);
     BulkBookingItem.processedAt :=
       assign_opt (id_processedAt u) (BulkBookingItem.processedAt i) |}.

Definition has_item (iid : string) (d : Db) : bool :=
  existsb (fun i => String.eqb (BulkBookingItem.id i) iid) (bulkBookingItem d).

(** [prisma.bulkBookingItem.update({ where: { id }, data })] *)
Definition bulkBookingItem_update (iid : string) (u : ItemData) : M Db unit :=
  call (fun d =>
    if has_item iid d
    then Ok (tt, with_items
                   (update_where (fun r => String.eqb (BulkBookingItem.id r) iid)
                                 (set_item u) (bulkBookingItem d)) d)
    else Throw "PrismaClientKnownRequestError").

(** [prisma.bulkBookingItem.updateMany({ where: { id: { in: ids },
    status: 'FAILED' }, data: { status: 'PENDING', errorMessage: null } })] *)
Definition bulkBookingItem_resetFailed (ids : list string) : M Db unit :=
  call (fun d =>
    Ok (tt, with_items
              (update_where
                 (fun r => existsb (String.eqb (BulkBookingItem.id r)) ids
                           && is_status BulkItemStatus.FAILED r)
                 (set_item {| id_status := BulkItemStatus.PENDING;
                              id_appointmentId := None;
                              id_errorMessage := Some None;
                              id_processedAt := None |})
                 (bulkBookingItem d)) d)).

(** What a [DATE] column keeps of an instant: its day, as the first
    millisecond of that day. *)
Definition Date_day (t : Z) : Z := 86400000 * (t / 86400000).

(** The row that the table [appointments] holds for the data [a]. *)
Definition appointment_row (a : Appointment.t) : Appointment.t :=
  {| Appointment.id := Appointment.id a;
     Appointment.appointmentNumber := Appointment.appointmentNumber a;
     Appointment.patientName := Appointment.patientName a;
     Appointment.patientEmail := Appointment.patientEmail a;
     Appointment.patientPhone := Appointment.patientPhone a;
     Appointment.doctorId := Appointment.doctorId a;
     Appointment.hospitalId := Appointment.hospitalId a;
     Appointment.timeSlotId := Appointment.timeSlotId a;
     Appointment.agentId := Appointment.agentId a;
     Appointment.customerId := Appointment.customerId a;
     Appointment.appointmentDate := Date_day (Appointment.appointmentDate a);
     Appointment.appointmentTime := Appointment.appointmentTime a;
     Appointment.notes := Appointment.notes a |}.

(** [prisma.appointment.create({ data })]: [id] and [appointmentNumber]
    are unique, and the answer is the row as the table holds it. *)
Definition appointment_create (a : Appointment.t) : M Db Appointment.t :=
  call (fun d =>
    if fresh_ids [Appointment.id a] (map Appointment.id (appointment d))
       && fresh_ids [Appointment.appointmentNumber a]
                    (map Appointment.appointmentNumber (appointment d))
    then Ok (appointment_row a,
             with_appointments (appointment d ++ [appointment_row a]) d)
    else Throw "Unique constraint failed").

(** One row of the nested [items: { create: appointments.map(...) }]. The
    doctor and the hospital are connected by identifier and the date is
    parsed, so an entry without one of them is refused. *)
Definition item_row (bid : string) (c : Customer.t) (index : Z)
    (p : string * AppointmentInput) : option BulkBookingItem.t :=
  let (iid, apt) := p in
  match in_appointmentDate apt, in_doctorId apt, in_hospitalId apt with
  | Some date, Some doctor, Some hospital =>
      Some {| BulkBookingItem.id := iid;
              BulkBookingItem.bulkBookingId := bid;
              BulkBookingItem.sequenceNumber := index + 1;
              BulkBookingItem.appointmentDate := date;
              BulkBookingItem.appointmentTime :=
                match in_appointmentTime apt with
                | Some t => t
                | None => "undefined"
                end;
              BulkBookingItem.notes := in_notes apt;
              BulkBookingItem.patientName :=
                or_else (in_patientName apt)
                        (Customer.firstName c ++ " " ++ Customer.lastName c);
              BulkBookingItem.patientEmail :=
                or_else (in_patientEmail apt) (Customer.email c);
              BulkBookingItem.patientPhone :=
                or_else (in_patientPhone apt) (Customer.phone c);
              BulkBookingItem.doctorId := doctor;
              BulkBookingItem.hospitalId := hospital;
              BulkBookingItem.status := BulkItemStatus.PENDING;
              BulkBookingItem.appointmentId := None;
              BulkBookingItem.errorMessage := None;
              BulkBookingItem.processedAt := None |}
  | _, _, _ => None
  end.

(** [prisma.bulkBooking.create({ data: { ..., items: { create } },
    include })]: the booking and its items are inserted together or not at
    all. Columns left out take the defaults of the schema: [status]
    PROCESSING, both counters 0, item [status] PENDING. The [include] of
    the items has no [orderBy]: the answer carries the inserted items in
    an order that the client chooses. *)
Definition bulkBooking_create
    (bid : string) (iids : list string) (batchNumber : string)
    (agentId : string) (c : Customer.t) (batchName : string)
    (description0 : option string) (appointments : list AppointmentInput)
  : M Db (BulkBooking.t * list BulkBookingItem.t) :=
  fun env w =>
  call (fun d =>
    match all_rows (mapi (item_row bid c) (combine iids appointments)) with
    | Some rows =>
        if fresh_ids [bid] (map BulkBooking.id (bulkBooking d))
           && fresh_ids [batchNumber] (map BulkBooking.batchNumber (bulkBooking d))
           && fresh_ids iids (map BulkBookingItem.id (bulkBookingItem d))
        then
          let b :=
            {| BulkBooking.id := bid;
               BulkBooking.batchNumber := batchNumber;
               BulkBooking.batchName := batchName;
               BulkBooking.description := description0;
               BulkBooking.agentId := agentId;
               BulkBooking.customerId := Customer.id c;
               BulkBooking.totalItems := len appointments;
               BulkBooking.successfulItems := 0;
               BulkBooking.failedItems := 0;
               BulkBooking.status := BulkBookingStatus.PROCESSING;
               BulkBooking.notes := None;
               BulkBooking.completedAt := None |} in
          Ok ((b, arrange (order env (tick w)) rows),
              with_items (bulkBookingItem d ++ rows)
                         (with_bookings (bulkBooking d ++ [b]) d))
        else Throw "Unique constraint failed"
    | None => Throw "PrismaClientValidationError"
    end) env w.

(** *** [processaBulkBooking] *)

Definition item_failed (iid e : string) : M Db unit :=
  processedAt <- new_Date ;;
  bulkBookingItem_update iid
    {| id_status := BulkItemStatus.FAILED;
       id_appointmentId := None;
       id_errorMessage := Some (Some e);
       id_processedAt := Some processedAt |}.

(** The body of the [for] loop, with its own [try]/[catch]. *)
Definition process_item (b : BulkBooking.t) (item : BulkBookingItem.t) : M Db unit :=
  try_catch
    (success <- Math_random_gt ;;
     if (success : bool) then
       stamp <- new_Date ;;
       aid <- new_id ;;
       created <- appointment_create
         {| Appointment.id := aid;
            Appointment.appointmentNumber :=
              "BULK-" ++ Number_toString stamp ++ "-"
                      ++ Number_toString (BulkBookingItem.sequenceNumber item);
            Appointment.patientName := BulkBookingItem.patientName item;
            Appointment.patientEmail := BulkBookingItem.patientEmail item;
            Appointment.patientPhone := BulkBookingItem.patientPhone item;
            Appointment.doctorId := BulkBookingItem.doctorId item;
            Appointment.hospitalId := BulkBookingItem.hospitalId item;
            Appointment.timeSlotId := "1";
            Appointment.agentId := BulkBooking.agentId b;
            Appointment.customerId := BulkBooking.customerId b;
            Appointment.appointmentDate := BulkBookingItem.appointmentDate item;
            Appointment.appointmentTime :=
              "1970-01-01T" ++ BulkBookingItem.appointmentTime item ++ ":00Z";
            Appointment.notes := BulkBookingItem.notes item |} ;;
       processedAt <- new_Date ;;
       bulkBookingItem_update (BulkBookingItem.id item)
         {| id_status := BulkItemStatus.SUCCESS;
            id_appointmentId := Some (Appointment.id created);
            id_errorMessage := None;
            id_processedAt := Some processedAt |}
     else
       item_failed (BulkBookingItem.id item) "Simulated booking failure")
    (fun e => item_failed (BulkBookingItem.id item) e).

(** [for (const item of bulkBooking.items) { ... }] *)
Fixpoint process_items (b : BulkBooking.t) (items : list BulkBookingItem.t) : M Db unit :=
  match items with
  | [] => ret tt
  | item :: rest => process_item b item ;; process_items b rest
  end.

Definition finalStatus (failedCount total : Z) : BulkBookingStatus.t :=
  if failedCount =? total then BulkBookingStatus.FAILED else BulkBookingStatus.COMPLETED.

Definition status_only (st : BulkBookingStatus.t) : BookingData :=
  {| bd_status := Some st; bd_successfulItems := None; bd_failedItems := None;
     bd_completedAt := None; bd_notes := None |}.

(** The [try] block. It returns [true] when it ran to its last statement
    and [false] when it returned early because the booking does not exist. *)
Definition processaBulkBooking_try (bulkBookingId : string) : M Db bool :=
  found <- bulkBooking_findUnique_pending bulkBookingId ;;
  match found with
  | None => ret false
  | Some (b, items) =>
      bulkBooking_update bulkBookingId (status_only BulkBookingStatus.PROCESSING) ;;
      process_items b items ;;
      updatedItems <- bulkBookingItem_findMany bulkBookingId ;;
      let successCount := len (filter (is_status BulkItemStatus.SUCCESS) updatedItems) in
      let failedCount := len (filter (is_status BulkItemStatus.FAILED) updatedItems) in
      completedAt <- new_Date ;;
      bulkBooking_update bulkBookingId
        {| bd_status := Some (finalStatus failedCount (len updatedItems));
           bd_successfulItems := Some successCount;
           bd_failedItems := Some failedCount;
           bd_completedAt := Some (Some completedAt);
           bd_notes := None |} ;;
      ret true
  end.

(** The [catch] block. *)
Definition processaBulkBooking_catch (bulkBookingId : string) : M Db unit :=
  completedAt <- new_Date ;;
  bulkBooking_update bulkBookingId
    {| bd_status := Some BulkBookingStatus.FAILED;
       bd_successfulItems := None;
       bd_failedItems := None;
       bd_completedAt := Some (Some completedAt);
       bd_notes := None |} ;;
  ret tt.

Definition processaBulkBooking (bulkBookingId : string) : M Db unit :=
  try_catch
    (processaBulkBooking_try bulkBookingId ;; ret tt)
    (fun _ => processaBulkBooking_catch bulkBookingId).

(** *** Handlers

    The submit and the retry handler call [processaBulkBooking] without
    awaiting it: they answer while the items are still PENDING, and the
    call does its work afterwards. *)

Definition internal_error : string -> M Db Response :=
  fun _ => ret (json 500 (message "Internal server error")).

(** [router.post('/')] *)
Definition submit (req : SubmitRequest) : M Db Response :=
  try_catch
    (match truthy (s_agent req) with
     | None => ret (json 401 (message "Unauthorized"))
     | Some agentId =>
         match truthy (s_customerId req), truthy (s_batchName req), s_appointments req with
         | Some customerId, Some batchName, Some appointments =>
             if len appointments =? 0
             then ret (json 400 (message "At least one appointment is required"))
             else
               found <- customer_findFirst customerId agentId ;;
               match found with
               | None => ret (json 404 (message "Customer not found"))
               | Some c =>
                   stamp <- new_Date ;;
                   bid <- new_id ;;
                   iids <- new_ids appointments ;;
                   created <- bulkBooking_create bid iids
                                ("BULK-" ++ Number_toString stamp)
                                agentId c batchName (s_description req) appointments ;;
                   detached "processaBulkBooking" (BulkBooking.id (fst created)) ;;
                   ret (json 201 (booking created))
               end
         | _, _, _ =>
             ret (json 400 (message
               "Missing required fields or invalid appointments array"))
         end
     end)
    internal_error.

(** [router.patch('/:id/cancel')] *)
Definition cancel (req : CancelRequest) : M Db Response :=
  try_catch
    (match truthy (x_agent req) with
     | None => ret (json 401 (message "Unauthorized"))
     | Some agentId =>
         found <- bulkBooking_findFirst (x_id req) agentId (fun _ => false) ;;
         match found with
         | None => ret (json 404 (message "Bulk booking not found"))
         | Some (b, _) =>
             if BulkBookingStatus.eqb (BulkBooking.status b) BulkBookingStatus.COMPLETED
             then ret (json 400 (message "Cannot cancel completed bulk booking"))
             else
               completedAt <- new_Date ;;
               updated <-
                 bulkBooking_update (x_id req)
                   {| bd_status := Some BulkBookingStatus.CANCELLED;
                      bd_successfulItems := None;
                      bd_failedItems := None;
                      bd_completedAt := Some (Some completedAt);
                      bd_notes :=
                        Some match truthy (x_reason req) with
                             | Some reason => "Cancelled: " ++ reason
                             | None => "Cancelled by agent"
                             end |} ;;
               ret (json 200 (booking updated))
         end
     end)
    internal_error.

(** [router.post('/:id/retry')] *)
Definition retry (req : RetryRequest) : M Db Response :=
  try_catch
    (match truthy (r_agent req) with
     | None => ret (json 401 (message "Unauthorized"))
     | Some agentId =>
         found <- bulkBooking_findFirst (r_id req) agentId
                    (match r_itemIds req with
                     | Some itemIds =>
                         fun i => existsb (String.eqb (BulkBookingItem.id i)) itemIds
                     | None => is_status BulkItemStatus.FAILED
                     end) ;;
         match found with
         | None => ret (json 404 (message "Bulk booking not found"))
         | Some (b, items) =>
             bulkBookingItem_resetFailed (map BulkBookingItem.id items) ;;
             (if BulkBookingStatus.eqb (BulkBooking.status b) BulkBookingStatus.FAILED
              then bulkBooking_update (r_id req)
                     {| bd_status := Some BulkBookingStatus.PROCESSING;
                        bd_successfulItems := None;
                        bd_failedItems := None;
                        bd_completedAt := Some None;
                        bd_notes := None |} ;; ret tt
              else ret tt) ;;
             detached "processaBulkBooking" (r_id req) ;;
             ret (json 200 (message "Retry initiated successfully"))
         end
     end)
    internal_error.

End Bulk.

(** ** Approval workflows: the read handlers of [routes/approvals] *)

Module ApprovalsQueries.
Import Prisma Approvals.

(** The enum values the client accepts for a [WorkflowStatus] filter. *)
Definition WorkflowStatus_of_string (s : string) : option WorkflowStatus.t :=
  if String.eqb s "PENDING" then Some WorkflowStatus.PENDING
  else if String.eqb s "IN_PROGRESS" then Some WorkflowStatus.IN_PROGRESS
  else if String.eqb s "APPROVED" then Some WorkflowStatus.APPROVED
  else if String.eqb s "REJECTED" then Some WorkflowStatus.REJECTED
  else if String.eqb s "CANCELLED" then Some WorkflowStatus.CANCELLED
  else None.

Definition WorkflowStatus_eqb (a b : WorkflowStatus.t) : bool :=
  match a, b with
  | WorkflowStatus.PENDING, WorkflowStatus.PENDING
  | WorkflowStatus.IN_PROGRESS, WorkflowStatus.IN_PROGRESS
  | WorkflowStatus.APPROVED, WorkflowStatus.APPROVED
  | WorkflowStatus.REJECTED, WorkflowStatus.REJECTED
  | WorkflowStatus.CANCELLED, WorkflowStatus.CANCELLED => true
  | _, _ => false
  end.

Definition WorkflowType_eqb (a b : WorkflowType.t) : bool :=
  match a, b with
  | WorkflowType.APPOINTMENT_CANCELLATION, WorkflowType.APPOINTMENT_CANCELLATION
  | WorkflowType.REFUND_REQUEST, WorkflowType.REFUND_REQUEST
  | WorkflowType.SPECIAL_DISCOUNT, WorkflowType.SPECIAL_DISCOUNT
  | WorkflowType.EMERGENCY_BOOKING, WorkflowType.EMERGENCY_BOOKING
  | WorkflowType.BULK_BOOKING_APPROVAL, WorkflowType.BULK_BOOKING_APPROVAL
  | WorkflowType.CUSTOMER_COMPLAINT, WorkflowType.CUSTOMER_COMPLAINT => true
  | _, _ => false
  end.

Definition WorkflowPriority_eqb (a b : WorkflowPriority.t) : bool :=
  match a, b with
  | WorkflowPriority.LOW, WorkflowPriority.LOW
  | WorkflowPriority.MEDIUM, WorkflowPriority.MEDIUM
  | WorkflowPriority.HIGH, WorkflowPriority.HIGH
  | WorkflowPriority.URGENT, WorkflowPriority.URGENT => true
  | _, _ => false
  end.

(** *** Requests and responses *)

(** [req.query] of the listing. [page] and [limit] are the values of
    [Number(page)] and [Number(limit)]; the model covers the requests in
    which both are positive integers, [None] being an absent parameter. *)
Record ListRequest : Type := {
  l_agent : option string;
  l_page : option positive;
  l_limit : option positive;
  l_status : option string;
  l_requestType : option string;
  l_priority : option string
}.

Record GetRequest : Type := {
  g_agent : option string;
  g_id : string
}.

Record PendingRequest : Type := {
  p_agent : option string
}.

Record Pagination : Type := {
  currentPage : Z;
  totalPages : Z;
  totalItems : Z;
  itemsPerPage : Z
}.

Definition Included : Type := (ApprovalWorkflow.t * list WorkflowStep.t)%type.

Inductive Body : Type :=
| message (m : string)
| workflow (w : Included)
| workflows (l : list Included) (pagination : Pagination)
| pendingApprovals (l : list Included).

Record Response : Type := { code : Z; body : Body }.

Definition json (c : Z) (b : Body) : Response := {| code := c; body := b |}.

Definition internal_error : string -> M Db Response :=
  fun _ => ret (json 500 (message "Internal server error")).

(** *** The listing: [router.get('/')] *)

(** The object [where] of the listing, its optional keys parsed. *)
Record Where : Type := {
  where_requesterId : string;
  where_status : option WorkflowStatus.t;
  where_requestType : option WorkflowType.t;
  where_priority : option WorkflowPriority.t
}.

Definition matches (q : Where) (w : ApprovalWorkflow.t) : bool :=
  String.eqb (ApprovalWorkflow.requesterId w) (where_requesterId q)
  && match where_status q with
     | Some st => WorkflowStatus_eqb (ApprovalWorkflow.status w) st
     | None => true
     end
  && match where_requestType q with
     | Some ty => WorkflowType_eqb (ApprovalWorkflow.requestType w) ty
     | None => true
     end
  && match where_priority q with
     | Some pr => WorkflowPriority_eqb (ApprovalWorkflow.priority w) pr
     | None => true
     end.

(** [if (x) where.x = x]: a key is set when the parameter is truthy, and
    the client refuses a value outside the enum of the column. *)
Definition where_key {T} (of_string : string -> option T) (x : option string)
  : Outcome (option T) :=
  match truthy x with
  | None => Ok None
  | Some s =>
      match of_string s with
      | Some t => Ok (Some t)
      | None => Throw "PrismaClientValidationError"
      end
  end.

Definition where_of (agentId : string) (req : ListRequest) : Outcome Where :=
  match where_key WorkflowStatus_of_string (l_status req),
        where_key WorkflowType.of_string (l_requestType req),
        where_key WorkflowPriority.of_string (l_priority req) with
  | Ok st, Ok ty, Ok pr =>
      Ok {| where_requesterId := agentId; where_status := st;
            where_requestType := ty; where_priority := pr |}
  | _, _, _ => Throw "PrismaClientValidationError"
  end.

(** [orderBy: { createdAt: 'desc' }]. The column [createdAt] takes the
    time of the insertion and is never written again, so the rows of a
    table, which are kept in insertion order, are in ascending
    [createdAt]. *)
Definition newest_first {R} (t : list R) : list R := rev t.

(** [prisma.approvalWorkflow.findMany({ where, include, orderBy, skip,
    take })] *)
Definition approvalWorkflow_findMany (q : Outcome Where) (skip take : Z)
  : M Db (list Included) :=
  call (fun d =>
    match q with
    | Throw e => Throw e
    | Ok q =>
        Ok (map (with_steps d)
              (firstn (Z.to_nat take)
                 (skipn (Z.to_nat skip)
                    (newest_first (filter (matches q) (approvalWorkflow d))))), d)
    end).

(** [prisma.approvalWorkflow.count({ where })] *)
Definition approvalWorkflow_count (q : Outcome Where) : M Db Z :=
  call (fun d =>
    match q with
    | Throw e => Throw e
    | Ok q => Ok (len (filter (matches q) (approvalWorkflow d)), d)
    end).

(** [Math.ceil(a / b)] for a positive [b]. *)
Definition Math_ceil_div (a b : Z) : Z := - ((- a) / b).

Definition page_of (req : ListRequest) : Z :=
  match l_page req with Some p => Z.pos p | None => 1 end.

Definition limit_of (req : ListRequest) : Z :=
  match l_limit req with Some p => Z.pos p | None => 10 end.

(** The two queries of [Promise.all] only read; they are issued one
    after the other, and the handler answers 500 when either rejects. *)
Definition listing (req : ListRequest) : M Db Response :=
  try_catch
    (match truthy (l_agent req) with
     | None => ret (json 401 (message "Unauthorized"))
     | Some agentId =>
         let skip := (page_of req - 1) * limit_of req in
         found <- approvalWorkflow_findMany (where_of agentId req) skip (limit_of req) ;;
         total <- approvalWorkflow_count (where_of agentId req) ;;
         ret (json 200
                (workflows found
                   {| currentPage := page_of req;
                      totalPages := Math_ceil_div total (limit_of req);
                      totalItems := total;
                      itemsPerPage := limit_of req |}))
     end)
    internal_error.

(** *** One workflow: [router.get('/:id')] *)

(** [prisma.approvalWorkflow.findFirst({ where: { id, requesterId },
    include: { steps: { orderBy: { stepOrder: 'asc' } } } })] *)
Definition approvalWorkflow_findFirst_include (wid agentId : string)
  : M Db (option Included) :=
  call (fun d =>
    Ok (option_map (with_steps d)
          (find_first
             (fun w => String.eqb (ApprovalWorkflow.id w) wid
                       && String.eqb (ApprovalWorkflow.requesterId w) agentId)
             (approvalWorkflow d)), d)).

Definition get (req : GetRequest) : M Db Response :=
  try_catch
    (match truthy (g_agent req) with
     | None => ret (json 401 (message "Unauthorized"))
     | Some agentId =>
         found <- approvalWorkflow_findFirst_include (g_id req) agentId ;;
         match found with
         | None => ret (json 404 (message "Workflow not found"))
         | Some w => ret (json 200 (workflow w))
         end
     end)
    internal_error.

(** *** Pending approvals: [router.get('/pending/approvals')] *)

(** [{ approverId: agentId, status: 'PENDING' }] *)
Definition awaits (agentId : string) (s : WorkflowStep.t) : bool :=
  match WorkflowStep.approverId s with
  | Some a => String.eqb a agentId
  | None => false
  end
  && match WorkflowStep.status s with
     | StepStatus.PENDING => true
     | _ => false
     end.

(** [status: { in: ['PENDING', 'IN_PROGRESS'] }] *)
Definition is_open (w : ApprovalWorkflow.t) : bool :=
  match ApprovalWorkflow.status w with
  | WorkflowStatus.PENDING | WorkflowStatus.IN_PROGRESS => true
  | _ => false
  end.

(** [prisma.approvalWorkflow.findMany({ where: { status: { in },
    steps: { some } }, include: { steps: { where } },
    orderBy: { createdAt: 'asc' } })] *)
Definition approvalWorkflow_findMany_pending (agentId : string) : M Db (list Included) :=
  call (fun d =>
    Ok (map (fun w => (w, filter (awaits agentId) (steps_of (ApprovalWorkflow.id w) d)))
          (filter (fun w => is_open w
                               && existsb (awaits agentId) (steps_of (ApprovalWorkflow.id w) d))
                  (approvalWorkflow d)), d)).

Definition pending (req : PendingRequest) : M Db Response :=
  try_catch
    (match truthy (p_agent req) with
     | None => ret (json 401 (message "Unauthorized"))
     | Some agentId =>
         found <- approvalWorkflow_findMany_pending agentId ;;
         ret (json 200 (pendingApprovals found))
     end)
    internal_error.

End ApprovalsQueries.

(** ** Authentication: [middleware/auth] before every handler *)

Module Auth.
Import Prisma.

(** [AuthUtils.extractTokenFromHeader]: [null] unless the header starts
    with ['Bearer '], and then what follows these seven characters. *)
Definition extractTokenFromHeader (authHeader : option string) : option string :=
  match authHeader with
  | None => None
  | Some h =>
      if falsy authHeader || negb (String.prefix "Bearer " h) then None
      else Some (String.substring 7 (String.length h - 7) h)
  end.

Record JWTPayload : Type := {
  agentId : string;
  email : string;
  status : string;
  permissions : list string
}.

(** What [jwt.verify] makes of a token, under the secret, the issuer and
    the audience of the module: the payload, or one of its errors. *)
Inductive Verification : Type :=
| Decoded (payload : JWTPayload)
| TokenExpiredError
| JsonWebTokenError
| OtherError.

(** A document of the [Agent] collection, the fields the middleware
    queries. *)
Record AgentDocument : Type := {
  doc_agentId : string;
  doc_status : string
}.

(** What the middleware does: it passes the request on with [req.agent]
    set, or answers itself. *)
Inductive Passage : Type :=
| next (agent : JWTPayload)
| answer (code : Z) (message error : string).

Section Middleware.
(** [jwt.verify(token, JWT_SECRET, { issuer, audience })] *)
Variable jwt_verify : string -> Verification.

(** [AuthUtils.verifyAccessToken] *)
Definition verifyAccessToken (token : string) : Outcome JWTPayload :=
  match jwt_verify token with
  | Decoded payload => Ok payload
  | TokenExpiredError => Throw "Access token expired"
  | JsonWebTokenError => Throw "Invalid access token"
  | OtherError => Throw "Access token verification failed"
  end.

(** [Agent.findOne({ agentId, status: { $in: ['active', 'pending'] } })]
    on the collection, or the rejection of the query. *)
Definition Agent_findOne (agents : Outcome (list AgentDocument)) (id : string)
  : Outcome (option AgentDocument) :=
  match agents with
  | Throw e => Throw e
  | Ok documents =>
      Ok (find (fun a => String.eqb (doc_agentId a) id
                         && (String.eqb (doc_status a) "active"
                             || String.eqb (doc_status a) "pending"))
               documents)
  end.

(** The [catch] block of [authenticateToken]. *)
Definition authentication_error (e : string) : Passage :=
  if String.eqb e "Access token expired"
  then answer 401 "Access token expired" "TOKEN_EXPIRED"
  else answer 401 "Invalid access token" "INVALID_TOKEN".

(** [authenticateToken], from the [Authorization] header of the request. *)
Definition authenticateToken (authorization : option string)
    (agents : Outcome (list AgentDocument)) : Passage :=
  match truthy (extractTokenFromHeader authorization) with
  | None => answer 401 "Access token is required" "MISSING_TOKEN"
  | Some token =>
      match verifyAccessToken token with
      | Throw e => authentication_error e
      | Ok decoded =>
          match Agent_findOne agents (agentId decoded) with
          | Throw e => authentication_error e
          | Ok None => answer 401 "Agent not found or inactive" "INVALID_AGENT"
          | Ok (Some _) =>
              next {| agentId := agentId decoded;
                      email := email decoded;
                      status := status decoded;
                      permissions := permissions decoded |}
          end
      end
  end.

End Middleware.

End Auth.

(** * Vocabulary of the properties *)

(** ** Approval workflows *)

Module ApprovalsSpec.
Import Prisma Approvals.

(** *** Outcomes of a decision *)

Definition error500 : Outcome Response :=
  Ok (json 500 (message "Internal server error")).

Definition step_data (req : DecideRequest) (agentId status : string) (now : Z) : StepData :=
  {| sd_status := status;
     sd_comments := d_comments req;
     sd_approverNotes := d_approverNotes req;
     sd_processedAt := now;
     sd_processedBy := agentId |}.

(** The request comes from agent [a] with verdict [v], and the first query
    of the handler finds step [s] with its workflow [w]. *)
Definition finds (d : Db) (req : DecideRequest) (a v : string)
    (s : WorkflowStep.t) (w : ApprovalWorkflow.t) : Prop :=
  truthy (d_agent req) = Some a /\
  truthy (d_status req) = Some v /\
  find_first (step_where (d_stepId req) (d_workflowId req) a) (workflowStep d) = Some s /\
  find_workflow (WorkflowStep.workflowId s) d = Some w.

(** What an authorised decision on the active step returns and leaves in
    the database, by the persistence calls that reject: tick 1 is the step
    update, tick 2 the workflow update when there is one, and the last tick
    the read for the response. *)
Definition decided (env : Env) (d : Db) (req : DecideRequest) (a v : string)
    (s : WorkflowStep.t) (w : ApprovalWorkflow.t) : Outcome Response * Db :=
  if fault env 1 then (error500, d)
  else
    match StepStatus.of_string v with
    | None => (error500, d)
    | Some st =>
        let d1 := write_step (d_stepId req) st (step_data req a v (clock env 1)) d in
        let u := workflowUpdate v s w (clock env 2) in
        let respond (n : nat) (d' : Db) :=
          if fault env n then (error500, d')
          else (Ok (json 200 (workflow
                      (option_map (with_steps d') (find_workflow (d_workflowId req) d')))),
                d') in
        if has_keys u then
          if fault env 2 then (error500, d1)
          else respond 3%nat (write_workflow (d_workflowId req) u d1)
        else respond 2%nat d1
    end.

Definition cancelled (now : Z) (reason : option string) : WorkflowData :=
  {| wd_currentStep := None;
     wd_status := Some WorkflowStatus.CANCELLED;
     wd_completedAt := Some now;
     wd_cancellationReason := reason |}.

(** *** Sequences of decisions *)

(** The two verdicts of a decision. *)
Definition verdict (req : DecideRequest) : Prop :=
  d_status req = Some "APPROVED" \/ d_status req = Some "REJECTED".

Fixpoint decide_all (calls : list (Env * DecideRequest)) (d : Db) : Db :=
  match calls with
  | [] => d
  | (env, req) :: rest => decide_all rest (snd (run (decideStep req) env d))
  end.

(** The calls approve the steps of workflow [wid] of orders [k], [k + 1],
    ..., each one sent by the approver of its step, and the three first
    persistence calls of each invocation go through. *)
Fixpoint approvals_in_order (d : Db) (wid : string) (k : Z)
    (calls : list (Env * DecideRequest)) : Prop :=
  match calls with
  | [] => True
  | (env, req) :: rest =>
      (fault env 0 = false /\ fault env 1 = false /\ fault env 2 = false) /\
      d_workflowId req = wid /\
      truthy (d_status req) = Some "APPROVED" /\
      (exists a s,
          truthy (d_agent req) = Some a /\
          find_step (d_stepId req) d = Some s /\
          WorkflowStep.workflowId s = wid /\
          WorkflowStep.stepOrder s = k /\
          WorkflowStep.approverId s = Some a) /\
      approvals_in_order d wid (k + 1) rest
  end.

(** *** Databases that the handlers produce *)

Definition empty : Db := {| approvalWorkflow := []; workflowStep := [] |}.

Inductive reachable : Db -> Prop :=
| reach_empty : reachable empty
| reach_create env req d :
    reachable d -> reachable (snd (run (create req) env d))
| reach_decideStep env req d :
    reachable d -> reachable (snd (run (decideStep req) env d))
| reach_cancel env req d :
    reachable d -> reachable (snd (run (cancel req) env d)).

Record consistent (d : Db) : Prop := {
  workflow_key : NoDup (map ApprovalWorkflow.id (approvalWorkflow d));
  step_key : NoDup (map WorkflowStep.id (workflowStep d));
  step_workflow :
    forall s, In s (workflowStep d) ->
      exists w, In w (approvalWorkflow d) /\ ApprovalWorkflow.id w = WorkflowStep.workflowId s;
  later_steps_pending :
    forall s w, In s (workflowStep d) -> In w (approvalWorkflow d) ->
      ApprovalWorkflow.id w = WorkflowStep.workflowId s ->
      ApprovalWorkflow.currentStep w < WorkflowStep.stepOrder s ->
      WorkflowStep.status s = StepStatus.PENDING;
  currentStep_range :
    forall w, In w (approvalWorkflow d) ->
      1 <= ApprovalWorkflow.currentStep w <= ApprovalWorkflow.totalSteps w
}.

Definition terminal (st : WorkflowStatus.t) : Prop :=
  st = WorkflowStatus.APPROVED \/ st = WorkflowStatus.REJECTED \/
  st = WorkflowStatus.CANCELLED.

(** Databases produced when decisions carry one of the two verdicts and no
    persistence call of a decision rejects. *)
Inductive orderly : Db -> Prop :=
| orderly_empty : orderly empty
| orderly_create env req d :
    orderly d -> orderly (snd (run (create req) env d))
| orderly_decideStep env req d :
    no_faults env -> verdict req ->
    orderly d -> orderly (snd (run (decideStep req) env d))
| orderly_cancel env req d :
    orderly d -> orderly (snd (run (cancel req) env d)).

Definition outstanding (st : StepStatus.t) : Prop :=
  st = StepStatus.PENDING \/ st = StepStatus.IN_PROGRESS.

Definition live (st : WorkflowStatus.t) : Prop :=
  st = WorkflowStatus.PENDING \/ st = WorkflowStatus.IN_PROGRESS.

Record in_order (d : Db) : Prop := {
  order_key :
    forall s s', In s (workflowStep d) -> In s' (workflowStep d) ->
      WorkflowStep.workflowId s = WorkflowStep.workflowId s' ->
      WorkflowStep.stepOrder s = WorkflowStep.stepOrder s' -> s = s';
  every_order :
    forall w k, In w (approvalWorkflow d) ->
      1 <= k <= ApprovalWorkflow.totalSteps w ->
      exists s, In s (workflowStep d) /\
                WorkflowStep.workflowId s = ApprovalWorkflow.id w /\
                WorkflowStep.stepOrder s = k;
  never_in_progress :
    forall w, In w (approvalWorkflow d) ->
      ApprovalWorkflow.status w <> WorkflowStatus.IN_PROGRESS;
  pending_prefix :
    forall w s, In w (approvalWorkflow d) ->
      ApprovalWorkflow.status w = WorkflowStatus.PENDING ->
      In s (workflowStep d) ->
      WorkflowStep.workflowId s = ApprovalWorkflow.id w ->
      (WorkflowStep.stepOrder s < ApprovalWorkflow.currentStep w ->
       WorkflowStep.status s = StepStatus.APPROVED) /\
      (WorkflowStep.stepOrder s = ApprovalWorkflow.currentStep w ->
       WorkflowStep.status s = StepStatus.PENDING)
}.

(** *** A two-step workflow to run the handlers on *)

(** No call rejects; identifiers are [id0], [id1], ...; the clock shows
    1000 plus the tick. *)
Definition calm : Env :=
  {| fault := fun _ => false;
     random := fun _ => true;
     cuid := fun n => "id" ++ Number_toString (Z.of_nat n);
     clock := fun n => 1000 + Z.of_nat n;
     order := fun _ _ => 0%nat |}.

(** The same, except that the call issued at tick [k] rejects. *)
Definition failing_at (k : nat) : Env :=
  {| fault := Nat.eqb k; random := random calm; cuid := cuid calm; clock := clock calm;
     order := order calm |}.

Definition step_for (approver : string) (optional : bool) : StepInput :=
  {| in_stepName := Some "Review";
     in_description := None;
     in_isOptional := Some optional;
     in_approverId := Some approver |}.

Definition refund_request : CreateRequest :=
  {| c_agent := Some "agent-7";
     c_requestType := Some "REFUND_REQUEST";
     c_requestId := Some "apt-31";
     c_priority := None;
     c_description := Some "Refund of a cancelled appointment";
     c_justification := None;
     c_steps := Some [step_for "supervisor-1" false; step_for "admin-1" true] |}.

(** What [refund_request] creates: workflow [id0] with steps [id1] (order
    1) and [id2] (order 2, optional). *)
Definition refund_workflow : ApprovalWorkflow.t :=
  {| ApprovalWorkflow.id := "id0";
     ApprovalWorkflow.requestType := WorkflowType.REFUND_REQUEST;
     ApprovalWorkflow.requestId := "apt-31";
     ApprovalWorkflow.requesterId := "agent-7";
     ApprovalWorkflow.currentStep := 1;
     ApprovalWorkflow.totalSteps := 2;
     ApprovalWorkflow.status := WorkflowStatus.PENDING;
     ApprovalWorkflow.priority := WorkflowPriority.MEDIUM;
     ApprovalWorkflow.title := "Refund of a cancelled appointment";
     ApprovalWorkflow.description := Some "Refund of a cancelled appointment";
     ApprovalWorkflow.justification := None;
     ApprovalWorkflow.completedAt := None;
     ApprovalWorkflow.cancellationReason := None |}.

Definition refund_step (sid : string) (order : Z) (approver : string) (optional : bool)
  : WorkflowStep.t :=
  {| WorkflowStep.id := sid;
     WorkflowStep.workflowId := "id0";
     WorkflowStep.stepOrder := order;
     WorkflowStep.stepName := "Review";
     WorkflowStep.description := None;
     WorkflowStep.isOptional := optional;
     WorkflowStep.approverId := Some approver;
     WorkflowStep.status := StepStatus.PENDING;
     WorkflowStep.comments := None;
     WorkflowStep.approverNotes := None;
     WorkflowStep.processedAt := None;
     WorkflowStep.processedBy := None |}.

Definition refund_pending : Db :=
  {| approvalWorkflow := [refund_workflow];
     workflowStep := [refund_step "id1" 1 "supervisor-1" false;
                      refund_step "id2" 2 "admin-1" true] |}.

Definition decision (sid agentId verdict : string) : DecideRequest :=
  {| d_agent := Some agentId;
     d_workflowId := "id0";
     d_stepId := sid;
     d_status := Some verdict;
     d_comments := None;
     d_approverNotes := None |}.

Definition refund_cancelled : Db :=
  Eval vm_compute in
    snd (run (cancel {| x_agent := Some "agent-7"; x_id := "id0";
                        x_reason := Some "Paid by other means" |})
             calm refund_pending).

Definition approve_both : list (Env * DecideRequest) :=
  [(calm, decision "id1" "supervisor-1" "APPROVED");
   (calm, decision "id2" "admin-1" "APPROVED")].

Ltac nodup_ids :=
  repeat constructor; simpl; intuition discriminate.

End ApprovalsSpec.

(** ** Bulk bookings *)

Module BulkSpec.
Import Prisma Bulk.

(** *** Item tables before and after a loop *)

Definition item_is (iid : string) (r : BulkBookingItem.t) : bool :=
  String.eqb (BulkBookingItem.id r) iid.

Definition of_booking (bid : string) (i : BulkBookingItem.t) : bool :=
  String.eqb (BulkBookingItem.bulkBookingId i) bid.

Definition booking_is (bid : string) (b : BulkBooking.t) : bool :=
  String.eqb (BulkBooking.id b) bid.

(** Row [r'] is row [r] after writes to the items named in [ids]: it has
    kept its identifier and its booking, and it is the same row unless it
    is one of [ids] and no longer PENDING. *)
Definition row_kept (ids : list string) (r r' : BulkBookingItem.t) : Prop :=
  BulkBookingItem.id r' = BulkBookingItem.id r /\
  BulkBookingItem.bulkBookingId r' = BulkBookingItem.bulkBookingId r /\
  (r' = r \/
   (In (BulkBookingItem.id r) ids /\ BulkBookingItem.status r' <> BulkItemStatus.PENDING)).

Definition touched (ids : list string) (t t' : list BulkBookingItem.t) : Prop :=
  Forall2 (row_kept ids) t t'.

Definition settled (ids : list string) (t : list BulkBookingItem.t) : Prop :=
  forall r, In r t -> In (BulkBookingItem.id r) ids ->
            BulkBookingItem.status r <> BulkItemStatus.PENDING.

(** Rows that have kept their identifier and their booking. *)
Definition same_rows (t t' : list BulkBookingItem.t) : Prop :=
  Forall2 (fun r r' => BulkBookingItem.id r' = BulkBookingItem.id r /\
                       BulkBookingItem.bulkBookingId r' = BulkBookingItem.bulkBookingId r)
          t t'.

Definition pending_ids (bid : string) (d : Db) : list string :=
  map BulkBookingItem.id (filter (is_status BulkItemStatus.PENDING) (items_of bid d)).

Definition count (st : BulkItemStatus.t) (l : list BulkBookingItem.t) : Z :=
  len (filter (is_status st) l).

(** The [data] of the last update, from the item table [t] at that time. *)
Definition recomputed (bid : string) (t : list BulkBookingItem.t) (now : Z) : BookingData :=
  {| bd_status :=
       Some (finalStatus (count BulkItemStatus.FAILED (filter (of_booking bid) t))
                         (len (filter (of_booking bid) t)));
     bd_successfulItems := Some (count BulkItemStatus.SUCCESS (filter (of_booking bid) t));
     bd_failedItems := Some (count BulkItemStatus.FAILED (filter (of_booking bid) t));
     bd_completedAt := Some (Some now);
     bd_notes := None |}.

Definition answer (o : Outcome Response) : option Z :=
  match o with
  | Ok r => Some (code r)
  | Throw _ => None
  end.

(** *** Bookings that the router produces *)

(** The databases that come of invocations of the three handlers and of
    runs of [processaBulkBooking] that do not overlap: each goes from its
    first call to its last before the next begins. Any call may reject,
    and a run may begin at any point, for any identifier. *)
Inductive reachable : Db -> Prop :=
| reach_start d :
    bulkBooking d = [] -> bulkBookingItem d = [] -> reachable d
| reach_submit env req d :
    reachable d -> reachable (snd (run (submit req) env d))
| reach_cancel env req d :
    reachable d -> reachable (snd (run (cancel req) env d))
| reach_retry env req d :
    reachable d -> reachable (snd (run (retry req) env d))
| reach_process env bid d :
    reachable d -> reachable (snd (run (processaBulkBooking bid) env d)).

(** The counters of booking [b] add up to its number of items, or they
    are both 0, as the creation leaves them, and [b] is not COMPLETED. *)
Definition counted (b : BulkBooking.t) : Prop :=
  BulkBooking.successfulItems b + BulkBooking.failedItems b = BulkBooking.totalItems b \/
  (BulkBooking.successfulItems b = 0 /\ BulkBooking.failedItems b = 0 /\
   BulkBooking.status b <> BulkBookingStatus.COMPLETED).

Record sound (d : Db) : Prop := {
  item_booking :
    forall i, In i (bulkBookingItem d) ->
      exists b, In b (bulkBooking d) /\ BulkBooking.id b = BulkBookingItem.bulkBookingId i;
  total_is_items :
    forall b, In b (bulkBooking d) ->
      len (items_of (BulkBooking.id b) d) = BulkBooking.totalItems b;
  counters :
    forall b, In b (bulkBooking d) -> counted b
}.

(** A sound database is sound afterwards. *)
Definition stays_sound (d d' : Db) : Prop := sound d -> sound d'.

(** *** Runs that overlap *)

(** The [try] block of [processaBulkBooking] up to the end of its loop,
    and from there on. Between the two, as between any two calls of the
    function, the calls of another invocation can reach the database. *)
Definition processaBulkBooking_loop (bulkBookingId : string) : M Db bool :=
  found <- bulkBooking_findUnique_pending bulkBookingId ;;
  match found with
  | None => ret false
  | Some (b, items) =>
      bulkBooking_update bulkBookingId (status_only BulkBookingStatus.PROCESSING) ;;
      process_items b items ;;
      ret true
  end.

Definition processaBulkBooking_count (bulkBookingId : string) : M Db bool :=
  updatedItems <- bulkBookingItem_findMany bulkBookingId ;;
  let successCount := len (filter (is_status BulkItemStatus.SUCCESS) updatedItems) in
  let failedCount := len (filter (is_status BulkItemStatus.FAILED) updatedItems) in
  completedAt <- new_Date ;;
  bulkBooking_update bulkBookingId
    {| bd_status := Some (finalStatus failedCount (len updatedItems));
       bd_successfulItems := Some successCount;
       bd_failedItems := Some failedCount;
       bd_completedAt := Some (Some completedAt);
       bd_notes := None |} ;;
  ret true.

(** *** A customer and bookings to run the handlers on *)

Definition patient : Customer.t :=
  {| Customer.id := "cust-1";
     Customer.agentId := "agent-7";
     Customer.firstName := "Nimal";
     Customer.lastName := "Perera";
     Customer.email := "nimal@example.org";
     Customer.phone := "0770000000" |}.

Definition clinic : Db :=
  {| customer := [patient]; bulkBooking := []; bulkBookingItem := []; appointment := [] |}.

Definition visit (date : Z) : AppointmentInput :=
  {| in_appointmentDate := Some date;
     in_appointmentTime := Some "10:30";
     in_notes := None;
     in_patientName := None;
     in_patientEmail := None;
     in_patientPhone := None;
     in_doctorId := Some "doc-1";
     in_hospitalId := Some "hosp-1" |}.

(** 2025-11-03T10:30:00.000Z *)
Definition morning : Z := 1762165800000.

Definition visits (n : nat) : SubmitRequest :=
  {| s_agent := Some "agent-7";
     s_customerId := Some "cust-1";
     s_batchName := Some "Follow-up visits";
     s_description := None;
     s_appointments := Some (repeat (visit morning) n) |}.

(** No call rejects, the draw at tick [k] is a failure and every other
    draw a success; identifiers are [id0], [id1], ...; the clock shows 1000
    plus the tick; included rows come in table order. *)
Definition unlucky_at (k : nat) : Env :=
  {| fault := fun _ => false;
     random := fun n => negb (Nat.eqb n k);
     cuid := fun n => "id" ++ Number_toString (Z.of_nat n);
     clock := fun n => 1000 + Z.of_nat n;
     order := fun _ _ => 0%nat |}.

(** The same with every draw a success and the call at tick [k] rejected. *)
Definition failing_at (k : nat) : Env :=
  {| fault := Nat.eqb k;
     random := fun _ => true;
     cuid := cuid (unlucky_at 0);
     clock := clock (unlucky_at 0);
     order := order (unlucky_at 0) |}.

(** Two visits as the submit handler leaves them when it answers:
    booking [id1] with items [id2] and [id3], both PENDING. *)
Definition two_visits_pending : Db :=
  Eval vm_compute in snd (run (submit (visits 2)) (unlucky_at 0) clinic).

(** The same after the run of [processaBulkBooking] that the handler has
    started, the second visit failing in the simulation. *)
Definition two_visits_done : Db :=
  Eval vm_compute in
    snd (run (processaBulkBooking "id1") (unlucky_at 6) two_visits_pending).

(** Its booking record: COMPLETED with one success and one failure. *)
Definition done_booking : BulkBooking.t :=
  {| BulkBooking.id := "id1";
     BulkBooking.batchNumber := "BULK-1001";
     BulkBooking.batchName := "Follow-up visits";
     BulkBooking.description := None;
     BulkBooking.agentId := "agent-7";
     BulkBooking.customerId := "cust-1";
     BulkBooking.totalItems := 2;
     BulkBooking.successfulItems := 1;
     BulkBooking.failedItems := 1;
     BulkBooking.status := BulkBookingStatus.COMPLETED;
     BulkBooking.notes := None;
     BulkBooking.completedAt := Some 1009 |}.

Definition two_visits_processed : Db :=
  Eval vm_compute in
    snd (run (processaBulkBooking_try "id1") (unlucky_at 6) two_visits_pending).

End BulkSpec.

(** ** Rows before and after a handler of the approvals router *)

Module ApprovalsRows.
Import Prisma Approvals.

(** [i], [i + 1], ..., [n] numbers in all. *)
Fixpoint upto (i : Z) (n : nat) : list Z :=
  match n with
  | O => []
  | S m => i :: upto (i + 1) m
  end.

(** What the create handler makes of one entry of [steps]. *)
Definition step_created (wid : string) (input : StepInput) (s : WorkflowStep.t) : Prop :=
  WorkflowStep.workflowId s = wid /\
  in_stepName input = Some (WorkflowStep.stepName s) /\
  WorkflowStep.description s = in_description input /\
  WorkflowStep.isOptional s = match in_isOptional input with Some b => b | None => false end /\
  WorkflowStep.approverId s = truthy (in_approverId input) /\
  WorkflowStep.status s = StepStatus.PENDING /\
  WorkflowStep.comments s = None /\
  WorkflowStep.approverNotes s = None /\
  WorkflowStep.processedAt s = None /\
  WorkflowStep.processedBy s = None.

(** Step [s'] is step [s] after a decision on step [sid]: the decision may
    have written [sid], and of it only the columns of the verdict. *)
Definition step_kept (sid : string) (s s' : WorkflowStep.t) : Prop :=
  (WorkflowStep.id s <> sid -> s' = s) /\
  WorkflowStep.id s' = WorkflowStep.id s /\
  WorkflowStep.workflowId s' = WorkflowStep.workflowId s /\
  WorkflowStep.stepOrder s' = WorkflowStep.stepOrder s /\
  WorkflowStep.stepName s' = WorkflowStep.stepName s /\
  WorkflowStep.description s' = WorkflowStep.description s /\
  WorkflowStep.isOptional s' = WorkflowStep.isOptional s /\
  WorkflowStep.approverId s' = WorkflowStep.approverId s.

(** Workflow [w'] is workflow [w] after a write to workflow [wid]: only
    [wid] may differ, and only in [currentStep], [status], [completedAt] and
    [cancellationReason]. *)
Definition workflow_kept (wid : string) (w w' : ApprovalWorkflow.t) : Prop :=
  (ApprovalWorkflow.id w <> wid -> w' = w) /\
  ApprovalWorkflow.id w' = ApprovalWorkflow.id w /\
  ApprovalWorkflow.requestType w' = ApprovalWorkflow.requestType w /\
  ApprovalWorkflow.requestId w' = ApprovalWorkflow.requestId w /\
  ApprovalWorkflow.requesterId w' = ApprovalWorkflow.requesterId w /\
  ApprovalWorkflow.totalSteps w' = ApprovalWorkflow.totalSteps w /\
  ApprovalWorkflow.priority w' = ApprovalWorkflow.priority w /\
  ApprovalWorkflow.title w' = ApprovalWorkflow.title w /\
  ApprovalWorkflow.description w' = ApprovalWorkflow.description w /\
  ApprovalWorkflow.justification w' = ApprovalWorkflow.justification w.

(** The request carries everything the create handler and the client ask
    for: an agent, the three required texts, a type and a priority of the
    schema's enums, and at least one step, each with a name. *)
Definition well_formed (req : CreateRequest) (a : string) (steps : list StepInput) : Prop :=
  truthy (c_agent req) = Some a /\
  (exists ty t, truthy (c_requestType req) = Some ty /\ WorkflowType.of_string ty = Some t) /\
  (exists rid, truthy (c_requestId req) = Some rid) /\
  (exists de, truthy (c_description req) = Some de) /\
  (exists p, WorkflowPriority.of_string (or_else (c_priority req) "MEDIUM") = Some p) /\
  c_steps req = Some steps /\
  steps <> [] /\
  (forall st, In st steps -> in_stepName st <> None).

(** The identifiers that an invocation generates from tick [i] on. *)
Definition cuids (env : Env) (i : nat) (n : nat) : list string :=
  map (cuid env) (seq i n).

(** The steps of every workflow, in table order, carry the orders 1, 2,
    ..., [totalSteps]. *)
Definition numbered (d : Db) : Prop :=
  forall w, In w (approvalWorkflow d) ->
    map WorkflowStep.stepOrder (steps_of (ApprovalWorkflow.id w) d)
    = upto 1 (Z.to_nat (ApprovalWorkflow.totalSteps w)).

(** What the three writing handlers make of a database in any number of
    invocations, whichever requests come and whichever calls reject. *)
Inductive later : Db -> Db -> Prop :=
| later_now d : later d d
| later_create env req d d' :
    later d d' -> later d (snd (run (create req) env d'))
| later_decideStep env req d d' :
    later d d' -> later d (snd (run (decideStep req) env d'))
| later_cancel env req d d' :
    later d d' -> later d (snd (run (cancel req) env d')).

(** Workflow [wid] exists and is terminal, whichever row carries its
    identifier. *)
Definition over (wid : string) (d : Db) : Prop :=
  (exists w, In w (approvalWorkflow d) /\ ApprovalWorkflow.id w = wid) /\
  (forall w, In w (approvalWorkflow d) -> ApprovalWorkflow.id w = wid ->
             ApprovalsSpec.terminal (ApprovalWorkflow.status w)).

End ApprovalsRows.

(** ** Answers of the read handlers *)

Module ApprovalsAnswers.
Import Prisma Approvals ApprovalsQueries.

(** The workflows of a listing. *)
Definition listed (o : Outcome Response) : list Included :=
  match o with
  | Ok {| body := workflows l _ |} => l
  | _ => []
  end.

(** The request for page [k + 1] of the same listing. *)
Definition at_page (req : ListRequest) (k : nat) : ListRequest :=
  {| l_agent := l_agent req;
     l_page := Some (Pos.of_succ_nat k);
     l_limit := l_limit req;
     l_status := l_status req;
     l_requestType := l_requestType req;
     l_priority := l_priority req |}.

(** The first [n] pages of a listing, one request per page, in a row. *)
Definition pages (env : Env) (d : Db) (req : ListRequest) (n : nat) : list Included :=
  flat_map (fun k => listed (fst (run (listing (at_page req k)) env d))) (seq 0 n).

(** Step [s] of workflow [w] is in the pending approvals answered to the
    request. *)
Definition awaited (o : Outcome Response) (w : ApprovalWorkflow.t) (s : WorkflowStep.t)
  : Prop :=
  exists l steps,
    o = Ok (json 200 (pendingApprovals l)) /\ In (w, steps) l /\ In s steps.

End ApprovalsAnswers.

(** ** Rows before and after a handler of the bulk-booking router *)

Module BulkRows.
Import Prisma Bulk BulkSpec.

(** Item [r'] carries the request of item [r]: the columns that the
    creation fills and no update writes. *)
Definition same_request (r r' : BulkBookingItem.t) : Prop :=
  BulkBookingItem.id r' = BulkBookingItem.id r /\
  BulkBookingItem.bulkBookingId r' = BulkBookingItem.bulkBookingId r /\
  BulkBookingItem.sequenceNumber r' = BulkBookingItem.sequenceNumber r /\
  BulkBookingItem.appointmentDate r' = BulkBookingItem.appointmentDate r /\
  BulkBookingItem.appointmentTime r' = BulkBookingItem.appointmentTime r /\
  BulkBookingItem.notes r' = BulkBookingItem.notes r /\
  BulkBookingItem.patientName r' = BulkBookingItem.patientName r /\
  BulkBookingItem.patientEmail r' = BulkBookingItem.patientEmail r /\
  BulkBookingItem.patientPhone r' = BulkBookingItem.patientPhone r /\
  BulkBookingItem.doctorId r' = BulkBookingItem.doctorId r /\
  BulkBookingItem.hospitalId r' = BulkBookingItem.hospitalId r.

(** Appointment [a] is the one that item [i] points to, made for the
    patient, the doctor and the hospital of the item, on the day of its
    date. *)
Definition booked_for (i : BulkBookingItem.t) (a : Appointment.t) : Prop :=
  BulkBookingItem.appointmentId i = Some (Appointment.id a) /\
  Appointment.patientName a = BulkBookingItem.patientName i /\
  Appointment.patientEmail a = BulkBookingItem.patientEmail i /\
  Appointment.patientPhone a = BulkBookingItem.patientPhone i /\
  Appointment.doctorId a = BulkBookingItem.doctorId i /\
  Appointment.hospitalId a = BulkBookingItem.hospitalId i /\
  Appointment.appointmentDate a = Date_day (BulkBookingItem.appointmentDate i) /\
  Appointment.notes a = BulkBookingItem.notes i.

(** Row [r'] is row [r] after the loop over [items], [apps] being the
    appointments at the end: untouched, or one of [items] and then FAILED,
    or SUCCESS with its appointment. *)
Definition processed (apps : list Appointment.t) (items : list BulkBookingItem.t)
    (r r' : BulkBookingItem.t) : Prop :=
  r' = r \/
  (In r items /\ same_request r r' /\
   (BulkBookingItem.status r' = BulkItemStatus.FAILED \/
    (BulkBookingItem.status r' = BulkItemStatus.SUCCESS /\
     exists a, In a apps /\ booked_for r' a))).

(** Booking [b'] is booking [b] after work on booking [bid]: only [bid]
    may differ, and not in what the creation has filled. *)
Definition booking_kept (bid : string) (b b' : BulkBooking.t) : Prop :=
  (BulkBooking.id b <> bid -> b' = b) /\
  BulkBooking.id b' = BulkBooking.id b /\
  BulkBooking.batchNumber b' = BulkBooking.batchNumber b /\
  BulkBooking.batchName b' = BulkBooking.batchName b /\
  BulkBooking.description b' = BulkBooking.description b /\
  BulkBooking.agentId b' = BulkBooking.agentId b /\
  BulkBooking.customerId b' = BulkBooking.customerId b /\
  BulkBooking.totalItems b' = BulkBooking.totalItems b.

(** Item identifiers are a key of their table. *)
Definition keyed (d : Db) : Prop :=
  NoDup (map BulkBookingItem.id (bulkBookingItem d)).

(** Every SUCCESS item points to an appointment made for it. *)
Definition linked (d : Db) : Prop :=
  forall i, In i (bulkBookingItem d) ->
    BulkBookingItem.status i = BulkItemStatus.SUCCESS ->
    exists a, In a (appointment d) /\ booked_for i a.

(** The PENDING items of booking [bid], as [processaBulkBooking] reads
    them. *)
Definition pending_items (bid : string) (d : Db) : list BulkBookingItem.t :=
  filter (is_status BulkItemStatus.PENDING) (items_of bid d).

(** Database [d'] is [d] after work of [processaBulkBooking] on booking
    [bid]: customers are as they were, bookings other than [bid] too,
    appointments have been added, and of the items those that were PENDING
    in booking [bid] may have been processed. *)
Definition processing (bid : string) (d d' : Db) : Prop :=
  customer d' = customer d /\
  Forall2 (booking_kept bid) (bulkBooking d) (bulkBooking d') /\
  (exists new, appointment d' = (appointment d ++ new)%list) /\
  Forall2 (processed (appointment d') (pending_items bid d))
    (bulkBookingItem d) (bulkBookingItem d').

(** What an invocation of the router, or a run of [processaBulkBooking],
    makes of a database when nothing else writes between its first call
    and its last, whichever calls reject. *)
Inductive handled : Db -> Db -> Prop :=
| handled_submit env req d : handled d (snd (run (submit req) env d))
| handled_cancel env req d : handled d (snd (run (cancel req) env d))
| handled_retry env req d : handled d (snd (run (retry req) env d))
| handled_process env bid d : handled d (snd (run (processaBulkBooking bid) env d)).

(** Databases that the router produces from one without bulk items, by
    invocations and runs that do not overlap. *)
Inductive produced : Db -> Prop :=
| produced_start d : bulkBookingItem d = [] -> produced d
| produced_next d d' : produced d -> handled d d' -> produced d'.

(** What lasts from [d] to [d'] when identifiers are a key and SUCCESS
    items have their appointments: both facts, every SUCCESS item, and
    every appointment. *)
Definition lasting (d d' : Db) : Prop :=
  keyed d -> linked d ->
  keyed d' /\ linked d' /\
  (forall i, In i (bulkBookingItem d) ->
     BulkBookingItem.status i = BulkItemStatus.SUCCESS -> In i (bulkBookingItem d')) /\
  (forall a, In a (appointment d) -> In a (appointment d')).

(** The retry request selects item [i]: it names it, or it names no item
    and [i] is FAILED. *)
Definition selects (req : RetryRequest) : BulkBookingItem.t -> bool :=
  match r_itemIds req with
  | Some itemIds => fun i => existsb (String.eqb (BulkBookingItem.id i)) itemIds
  | None => is_status BulkItemStatus.FAILED
  end.

(** Item [r'] is item [r] when the retry handler answers: a FAILED item of
    the booking that the request selects is PENDING and without error
    message, its other columns as they were; any other item is as it
    was. *)
Definition retried (req : RetryRequest) (r r' : BulkBookingItem.t) : Prop :=
  if of_booking (r_id req) r && selects req r && is_status BulkItemStatus.FAILED r
  then BulkBookingItem.status r' = BulkItemStatus.PENDING /\
       BulkBookingItem.errorMessage r' = None /\
       same_request r r' /\
       BulkBookingItem.appointmentId r' = BulkBookingItem.appointmentId r /\
       BulkBookingItem.processedAt r' = BulkBookingItem.processedAt r
  else r' = r.

(** Booking [b'] is booking [b] when the retry handler answers: a FAILED
    booking is PROCESSING and without [completedAt], its other columns as
    they were; a booking of another status is as it was. *)
Definition restarted (b b' : BulkBooking.t) : Prop :=
  if BulkBookingStatus.eqb (BulkBooking.status b) BulkBookingStatus.FAILED
  then BulkBooking.status b' = BulkBookingStatus.PROCESSING /\
       BulkBooking.completedAt b' = None /\
       BulkBooking.successfulItems b' = BulkBooking.successfulItems b /\
       BulkBooking.failedItems b' = BulkBooking.failedItems b /\
       BulkBooking.notes b' = BulkBooking.notes b /\
       booking_kept (BulkBooking.id b) b b'
  else b' = b.

(** What the submit handler makes of one entry of [appointments] for
    customer [c]. *)
Definition item_created (bid : string) (c : Customer.t) (apt : AppointmentInput)
    (i : BulkBookingItem.t) : Prop :=
  BulkBookingItem.bulkBookingId i = bid /\
  in_appointmentDate apt = Some (BulkBookingItem.appointmentDate i) /\
  in_doctorId apt = Some (BulkBookingItem.doctorId i) /\
  in_hospitalId apt = Some (BulkBookingItem.hospitalId i) /\
  BulkBookingItem.notes i = in_notes apt /\
  BulkBookingItem.patientName i
  = or_else (in_patientName apt) (Customer.firstName c ++ " " ++ Customer.lastName c) /\
  BulkBookingItem.patientEmail i = or_else (in_patientEmail apt) (Customer.email c) /\
  BulkBookingItem.patientPhone i = or_else (in_patientPhone apt) (Customer.phone c) /\
  BulkBookingItem.status i = BulkItemStatus.PENDING /\
  BulkBookingItem.appointmentId i = None /\
  BulkBookingItem.errorMessage i = None /\
  BulkBookingItem.processedAt i = None.

End BulkRows.

(** ** Effects that keep a relation *)

Module Keeping.
Import Prisma.

(** Every run of [m] takes a database to one that [R] relates to it,
    whether it returns or throws. *)
Definition keeps {Db A : Type} (R : Db -> Db -> Prop) (m : M Db A) : Prop :=
  forall env w, R (db w) (db (snd (m env w))).

Definition preorder {Db : Type} (R : Db -> Db -> Prop) : Prop :=
  (forall d, R d d) /\ (forall d1 d2 d3, R d1 d2 -> R d2 d3 -> R d1 d3).

End Keeping.

(** * Properties *)

(** ** Tables *)

Section TableFacts.
Context {R : Type} (key : R -> string).

Let has (k : string) : R -> bool := fun r => String.eqb (key r) k.

Lemma find_first_key (k : string) (t : list R) (r : R) :
  Prisma.find_first (has k) t = Some r -> key r = k /\ In r t.
Proof.
  intros H. apply find_some in H. destruct H as [Hin Hk].
  apply String.eqb_eq in Hk. auto.
Qed.

Lemma find_first_absent (k : string) (q : R -> bool) (t : list R) :
  ~ In k (map key t) -> Prisma.find_first (fun r => has k r && q r) t = None.
Proof.
  induction t as [|a t IH]; simpl; intros Hn; [reflexivity|].
  unfold has at 1. destruct (String.eqb_spec (key a) k) as [E|E].
  - exfalso. apply Hn. left. exact E.
  - simpl. apply IH. intros H. apply Hn. right. exact H.
Qed.

(** With a primary key, a query that adds conditions to the key finds the
    row of that key or nothing. *)
Lemma find_first_refine (k : string) (q : R -> bool) (t : list R) (r : R) :
  NoDup (map key t) ->
  Prisma.find_first (has k) t = Some r ->
  Prisma.find_first (fun x => has k x && q x) t = if q r then Some r else None.
Proof.
  induction t as [|a t IH]; simpl; intros Hnd Hf; [discriminate|].
  inversion Hnd as [|? ? Hnotin Hnd']; subst.
  unfold has at 1 in Hf. unfold has at 1.
  destruct (String.eqb_spec (key a) k) as [E|E]; simpl.
  - inversion Hf; subst a. destruct (q r); [reflexivity|].
    apply find_first_absent. rewrite <- E. exact Hnotin.
  - apply IH; assumption.
Qed.

Lemma find_first_weaken (p q : R -> bool) (t : list R) (r : R) :
  (forall x, p x = true -> q x = true) ->
  Prisma.find_first p t = Some r ->
  exists r', Prisma.find_first q t = Some r'.
Proof.
  intros Hpq. induction t as [|a t IH]; simpl; intros Hf; [discriminate|].
  destruct (p a) eqn:Ep.
  - rewrite (Hpq a Ep). eauto.
  - destruct (q a); eauto.
Qed.

Lemma find_first_ext (p q : R -> bool) (t : list R) :
  (forall x, p x = q x) -> Prisma.find_first p t = Prisma.find_first q t.
Proof.
  intros E. induction t as [|a t IH]; simpl; [reflexivity|].
  rewrite E, IH. reflexivity.
Qed.

Lemma key_determines_row (t : list R) (r r' : R) :
  NoDup (map key t) -> In r t -> In r' t -> key r = key r' -> r = r'.
Proof.
  induction t as [|a t IH]; simpl; intros Hnd Hr Hr' E; [contradiction|].
  inversion Hnd as [|? ? Hnotin Hnd']; subst.
  destruct Hr as [Hr|Hr], Hr' as [Hr'|Hr'].
  - congruence.
  - subst a. exfalso. apply Hnotin. rewrite E. apply in_map. exact Hr'.
  - subst a. exfalso. apply Hnotin. rewrite <- E. apply in_map. exact Hr.
  - apply IH; assumption.
Qed.

(** Rows keep their key under an update that keeps keys. *)
Lemma update_where_keys (p : R -> bool) (f : R -> R) (t : list R) :
  (forall r, key (f r) = key r) ->
  map key (Prisma.update_where p f t) = map key t.
Proof.
  intros Hf. unfold Prisma.update_where. rewrite map_map.
  apply map_ext. intros r. destruct (p r); auto.
Qed.

Lemma find_first_update (k k' : string) (f : R -> R) (t : list R) :
  (forall r, key (f r) = key r) ->
  Prisma.find_first (has k) (Prisma.update_where (has k') f t)
  = option_map (fun r => if has k' r then f r else r) (Prisma.find_first (has k) t).
Proof.
  intros Hf. induction t as [|a t IH]; simpl; [reflexivity|].
  assert (E : has k (if has k' a then f a else a) = has k a).
  { unfold has. destruct (String.eqb (key a) k'); [rewrite Hf|]; reflexivity. }
  rewrite E. destruct (has k a); simpl; [reflexivity|exact IH].
Qed.

Lemma in_update_where (p : R -> bool) (f : R -> R) (t : list R) (x : R) :
  In x (Prisma.update_where p f t) ->
  exists r, In r t /\ x = (if p r then f r else r).
Proof.
  unfold Prisma.update_where. rewrite in_map_iff.
  intros [r [E Hin]]. exists r. auto.
Qed.

(** Rows included without [orderBy] are the rows, in some order. *)
Lemma place_permutation (k : nat) (r : R) (l : list (nat * R)) :
  Permutation (map snd (Prisma.place k r l)) (r :: map snd l).
Proof.
  induction l as [|[k' r'] l IH]; simpl; [apply Permutation_refl|].
  destruct (k <=? k')%nat; simpl; [apply Permutation_refl|].
  eapply perm_trans; [apply perm_skip, IH|apply perm_swap].
Qed.

Lemma arrange_permutation (rank : nat -> nat) (rows : list R) :
  Permutation (Prisma.arrange rank rows) rows.
Proof.
  unfold Prisma.arrange. generalize 0%nat.
  induction rows as [|r rows IH]; intros i; simpl; [apply perm_nil|].
  eapply perm_trans; [apply place_permutation|]. apply perm_skip, IH.
Qed.

End TableFacts.

(** ** Lists *)

Lemma Forall2_map_eq {A B C} (f : A -> C) (g : B -> C) (P : A -> B -> Prop) l l' :
  (forall a b, P a b -> g b = f a) -> Forall2 P l l' -> map g l' = map f l.
Proof.
  intros H F. induction F; simpl; [reflexivity|].
  rewrite IHF. f_equal. auto.
Qed.

Lemma Forall2_right {A B} (P : A -> B -> Prop) (Q : B -> Prop) l l' :
  (forall a b, P a b -> Q b) -> Forall2 P l l' -> forall b, In b l' -> Q b.
Proof.
  intros H F. induction F; simpl; intros b' Hb; [contradiction|].
  destruct Hb as [Hb|Hb]; [subst; eauto|auto].
Qed.

Lemma Forall2_length_eq {A B} (P : A -> B -> Prop) l l' :
  Forall2 P l l' -> List.length l' = List.length l.
Proof. induction 1; simpl; congruence. Qed.

Lemma filter_all {A} (p : A -> bool) (l : list A) :
  (forall x, In x l -> p x = true) -> filter p l = l.
Proof.
  induction l as [|x l IH]; intros H; [reflexivity|].
  simpl. rewrite (H x (or_introl eq_refl)). f_equal. apply IH.
  intros y Hy. apply H. right. exact Hy.
Qed.

Lemma filter_none {A} (p : A -> bool) (l : list A) :
  (forall x, In x l -> p x = false) -> filter p l = [].
Proof.
  induction l as [|x l IH]; intros H; [reflexivity|].
  simpl. rewrite (H x (or_introl eq_refl)). apply IH.
  intros y Hy. apply H. right. exact Hy.
Qed.

(** ** Generated identifiers and inserted rows *)

Lemma existsb_eqb_false (i : string) (l : list string) :
  existsb (String.eqb i) l = false -> ~ In i l.
Proof.
  induction l as [|x l IH]; simpl; intros H; [tauto|].
  apply orb_false_iff in H. destruct H as [Hx Hl].
  apply String.eqb_neq in Hx. intros [E|E]; [congruence|]. exact (IH Hl E).
Qed.

Lemma fresh_ids_spec (new old : list string) :
  fresh_ids new old = true ->
  NoDup new /\ forall i, In i new -> ~ In i old.
Proof.
  unfold fresh_ids. intros H. apply andb_prop in H. destruct H as [Hold Hnd].
  split.
  - clear Hold. induction new as [|i new IH]; [constructor|].
    apply andb_prop in Hnd. destruct Hnd as [Hi Hrest].
    apply negb_true_iff in Hi. constructor; [apply existsb_eqb_false; exact Hi|].
    apply IH. exact Hrest.
  - intros i Hi. rewrite forallb_forall in Hold. specialize (Hold i Hi).
    apply negb_true_iff in Hold. apply existsb_eqb_false. exact Hold.
Qed.

Lemma new_ids_run {Db A : Type} (l : list A) (env : Prisma.Env) (w : Prisma.World Db) :
  exists ids w',
    Prisma.new_ids l env w = (Prisma.Ok ids, w') /\ Prisma.db w' = Prisma.db w /\
    List.length ids = List.length l.
Proof.
  revert w. induction l as [|x l IH]; intros w; simpl.
  - exists [], w. auto.
  - unfold Prisma.bind at 1. unfold Prisma.new_id at 1.
    destruct (IH (Prisma.bump w)) as (ids & w' & E & Hdb & Hlen).
    unfold Prisma.bind at 1. rewrite E. unfold Prisma.ret.
    eexists. exists w'. split; [reflexivity|]. rewrite Hdb. simpl. auto.
Qed.

Lemma combine_fst_incl {A} (l : list string) (l' : list A) (i : string) :
  In i (map fst (combine l l')) -> In i l.
Proof.
  revert l'. induction l as [|x l IH]; intros [|y l']; simpl; try tauto.
  intros [E|E]; [left; exact E|right; exact (IH _ E)].
Qed.

Lemma combine_fst_NoDup {A} (l : list string) (l' : list A) :
  NoDup l -> NoDup (map fst (combine l l')).
Proof.
  revert l'. induction l as [|x l IH]; intros [|y l'] Hnd; simpl; try constructor.
  - inversion Hnd; subst. intros Hin. apply combine_fst_incl in Hin. contradiction.
  - inversion Hnd; subst. apply IH. assumption.
Qed.

Lemma NoDup_app_disjoint (l l' : list string) :
  NoDup l -> NoDup l' -> (forall i, In i l' -> ~ In i l) -> NoDup (l ++ l').
Proof.
  induction l as [|x l IH]; simpl; intros Hl Hl' Hd; [exact Hl'|].
  inversion Hl; subst. constructor.
  - rewrite in_app_iff. intros [H|H]; [contradiction|].
    apply (Hd x H). left. reflexivity.
  - apply IH; auto. intros i Hi Hin. apply (Hd i Hi). right. exact Hin.
Qed.

(** The rows that a nested create inserts, read off the inputs. *)
Lemma all_rows_mapi {A B} (f : Z -> A -> option B) (P : A -> B -> Prop) (xs : list A) :
  (forall i x y, f i x = Some y -> P x y) ->
  forall i rows,
    all_rows (mapi_from i f xs) = Some rows -> Forall2 P xs rows.
Proof.
  intros Hf. induction xs as [|x xs IH]; simpl; intros i rows H.
  - inversion H. constructor.
  - destruct (f i x) as [y|] eqn:E; [|discriminate].
    destruct (all_rows (mapi_from (i + 1) f xs)) as [rest|] eqn:Er; [|discriminate].
    inversion H; subst. constructor; eauto.
Qed.

(** ** Invocations that return *)

Section MonadFacts.
Context {Db : Type}.
Import Prisma.

Lemma bind_ok {A B} (m : M Db A) (k : A -> M Db B) env w b w' :
  bind m k env w = (Ok b, w') ->
  exists a w1, m env w = (Ok a, w1) /\ k a env w1 = (Ok b, w').
Proof.
  unfold bind. destruct (m env w) as [[a|e] w1]; intros H; [eauto|discriminate].
Qed.

Lemma call_ok {A} (f : Db -> Outcome (A * Db)) env w a w' :
  call f env w = (Ok a, w') ->
  fault env (tick w) = false /\ f (db w) = Ok (a, db w') /\ tick w' = S (tick w).
Proof.
  unfold call. destruct (fault env (tick w)); [discriminate|].
  destruct (f (db w)) as [[a0 d]|e]; intros H; inversion H; subst. auto.
Qed.

Lemma call_no_fault {A} (f : Db -> Outcome (A * Db)) env w :
  fault env (tick w) = false ->
  call f env w
  = match f (db w) with
    | Ok (a, d) => (Ok a, Build_World d (S (tick w)) (started w))
    | Throw e => (Throw e, bump w)
    end.
Proof. unfold call. intros E. rewrite E. reflexivity. Qed.

End MonadFacts.

(** ** Effects that keep a relation *)

Section KeepingFacts.
Import Prisma Keeping.
Context {Db : Type} (R : Db -> Db -> Prop) (HR : preorder R).

Lemma keeps_ret {A} (a : A) : keeps R (ret a).
Proof. intros env w. apply HR. Qed.

Lemma keeps_bind {A B} (m : M Db A) (k : A -> M Db B) :
  keeps R m -> (forall a, keeps R (k a)) -> keeps R (bind m k).
Proof.
  intros Hm Hk env w. unfold bind. specialize (Hm env w).
  destruct (m env w) as [[a|e] w1]; simpl in *; [|exact Hm].
  destruct HR as [_ Htrans]. eapply Htrans; [exact Hm|apply Hk].
Qed.

Lemma keeps_try_catch {A} (m : M Db A) (h : string -> M Db A) :
  keeps R m -> (forall e, keeps R (h e)) -> keeps R (try_catch m h).
Proof.
  intros Hm Hh env w. unfold try_catch. specialize (Hm env w).
  destruct (m env w) as [[a|e] w1]; simpl in *; [exact Hm|].
  destruct HR as [_ Htrans]. eapply Htrans; [exact Hm|apply Hh].
Qed.

Lemma keeps_call {A} (f : Db -> Outcome (A * Db)) :
  (forall d a d', f d = Ok (a, d') -> R d d') -> keeps R (call f).
Proof.
  intros Hf env w. unfold call. destruct (fault env (tick w)); [apply HR|].
  destruct (f (db w)) as [[a d']|e] eqn:E; simpl; [eapply Hf; exact E|apply HR].
Qed.

Lemma keeps_new_Date : keeps R new_Date.
Proof. intros env w. apply HR. Qed.

Lemma keeps_new_id : keeps R new_id.
Proof. intros env w. apply HR. Qed.

Lemma keeps_Math_random_gt : keeps R Math_random_gt.
Proof. intros env w. apply HR. Qed.

Lemma keeps_new_ids {A} (l : list A) : keeps R (new_ids l).
Proof.
  induction l as [|x l IH]; simpl.
  - apply keeps_ret.
  - apply keeps_bind; [apply keeps_new_id|]. intros i.
    apply keeps_bind; [exact IH|]. intros ids. apply keeps_ret.
Qed.

Lemma keeps_detached (f arg : string) : keeps R (detached f arg).
Proof. intros env w. apply HR. Qed.

Lemma keeps_run {A} (m : M Db A) env d : keeps R m -> R d (snd (run m env d)).
Proof.
  intros Hm. specialize (Hm env (Build_World d 0 [])). unfold run.
  destruct (m env (Build_World d 0 [])). exact Hm.
Qed.

End KeepingFacts.

(** ** The step decision, call by call *)

Module ApprovalsFacts.
Import Prisma Approvals ApprovalsSpec.

Lemma step_where_sound (sid wid a : string) (s : WorkflowStep.t) :
  step_where sid wid a s = true ->
  WorkflowStep.id s = sid /\ WorkflowStep.workflowId s = wid /\
  WorkflowStep.approverId s = Some a.
Proof.
  unfold step_where. intros H.
  apply andb_prop in H. destruct H as [H Ha].
  apply andb_prop in H. destruct H as [Hi Hw].
  apply String.eqb_eq in Hi. apply String.eqb_eq in Hw.
  destruct (WorkflowStep.approverId s) as [a'|]; [|discriminate].
  apply String.eqb_eq in Ha. subst. auto.
Qed.

Lemma finds_sound d req a v s w :
  finds d req a v s w ->
  In s (workflowStep d) /\ In w (approvalWorkflow d) /\
  WorkflowStep.id s = d_stepId req /\
  WorkflowStep.workflowId s = d_workflowId req /\
  WorkflowStep.approverId s = Some a /\
  ApprovalWorkflow.id w = d_workflowId req.
Proof.
  intros (_ & _ & Hs & Hw).
  apply find_some in Hs. destruct Hs as [Hin Hp].
  apply step_where_sound in Hp. destruct Hp as (Hi & Hwid & Ha).
  apply (find_first_key ApprovalWorkflow.id) in Hw. destruct Hw as [Hk Hinw].
  rewrite Hwid in Hk. auto 6.
Qed.

Lemma find_workflow_write_step wid sid st data d :
  find_workflow wid (write_step sid st data d) = find_workflow wid d.
Proof. reflexivity. Qed.

Lemma finds_find_step d req a v s w :
  finds d req a v s w -> exists s', find_step (d_stepId req) d = Some s'.
Proof.
  intros (_ & _ & Hs & _). unfold find_step.
  apply (find_first_weaken _ _ _ _) with (2 := Hs).
  intros x Hx. apply step_where_sound in Hx. destruct Hx as [Hx _].
  apply String.eqb_eq. exact Hx.
Qed.

Lemma decideStep_run env d req a v s w :
  finds d req a v s w ->
  ApprovalWorkflow.currentStep w = WorkflowStep.stepOrder s ->
  fault env 0 = false ->
  run (decideStep req) env d = decided env d req a v s w.
Proof.
  intros Hf Hact H0.
  destruct (finds_find_step _ _ _ _ _ _ Hf) as [s' Hs'].
  pose proof (finds_sound _ _ _ _ _ _ Hf) as (_ & _ & _ & Hwid & _ & _).
  destruct Hf as (Ha & Hv & Hs & Hw).
  unfold run, decideStep, try_catch, bind, decided.
  rewrite Ha, Hv.
  unfold workflowStep_findFirst, call at 1. simpl. rewrite H0, Hs, Hw.
  rewrite Hact, Z.eqb_refl. simpl.
  unfold workflowStep_update, call at 1, new_Date. simpl.
  destruct (fault env 1); [reflexivity|].
  destruct (StepStatus.of_string v) as [st|]; [|reflexivity].
  rewrite Hs'. simpl.
  fold (step_data req a v (clock env 1)).
  destruct (has_keys (workflowUpdate v s w (clock env 2))).
  - unfold approvalWorkflow_update, call at 1. simpl.
    destruct (fault env 2); [reflexivity|].
    rewrite find_workflow_write_step, <- Hwid, Hw. simpl.
    unfold approvalWorkflow_findUnique, call. simpl.
    destruct (fault env 3); reflexivity.
  - unfold ret. unfold approvalWorkflow_findUnique, call. simpl.
    destruct (fault env 2); reflexivity.
Qed.

(** Every invocation answers: the handler catches what its calls throw. *)
Lemma decideStep_cases env d req :
  (exists r, run (decideStep req) env d = (Ok r, d) /\ code r <> 200) \/
  (exists a v s w,
      finds d req a v s w /\
      ApprovalWorkflow.currentStep w = WorkflowStep.stepOrder s /\
      fault env 0 = false /\
      run (decideStep req) env d = decided env d req a v s w).
Proof.
  destruct (truthy (d_agent req)) as [a|] eqn:Ha.
  2:{ left. eexists. unfold run, decideStep, try_catch. rewrite Ha.
      split; [reflexivity|]. simpl. lia. }
  destruct (truthy (d_status req)) as [v|] eqn:Hv.
  2:{ left. eexists. unfold run, decideStep, try_catch. rewrite Ha, Hv.
      split; [reflexivity|]. simpl. lia. }
  destruct (fault env 0) eqn:H0.
  { left. eexists. unfold run, decideStep, try_catch, bind. rewrite Ha, Hv.
    unfold workflowStep_findFirst, call. simpl. rewrite H0.
    split; [reflexivity|]. simpl. lia. }
  destruct (find_first (step_where (d_stepId req) (d_workflowId req) a) (workflowStep d))
    as [s|] eqn:Hs.
  2:{ left. eexists. unfold run, decideStep, try_catch, bind. rewrite Ha, Hv.
      unfold workflowStep_findFirst, call. simpl. rewrite H0, Hs.
      split; [reflexivity|]. simpl. lia. }
  destruct (find_workflow (WorkflowStep.workflowId s) d) as [w|] eqn:Hw.
  2:{ left. eexists. unfold run, decideStep, try_catch, bind. rewrite Ha, Hv.
      unfold workflowStep_findFirst, call. simpl. rewrite H0, Hs, Hw.
      split; [reflexivity|]. simpl. lia. }
  destruct (Z.eqb_spec (ApprovalWorkflow.currentStep w) (WorkflowStep.stepOrder s)) as [E|E].
  - right. exists a, v, s, w. assert (Hf : finds d req a v s w) by (repeat split; assumption).
    repeat split; try assumption. apply decideStep_run; assumption.
  - left. eexists. unfold run, decideStep, try_catch, bind. rewrite Ha, Hv.
    unfold workflowStep_findFirst, call. simpl. rewrite H0, Hs, Hw.
    apply Z.eqb_neq in E. rewrite E. simpl.
    split; [reflexivity|]. simpl. lia.
Qed.

(** A request for step [s] of workflow [w] by its approver is what the
    first query of the handler finds, when identifiers are a key. *)
Lemma finds_by_key d req a v s w :
  NoDup (map WorkflowStep.id (workflowStep d)) ->
  truthy (d_agent req) = Some a ->
  truthy (d_status req) = Some v ->
  find_step (d_stepId req) d = Some s ->
  WorkflowStep.workflowId s = d_workflowId req ->
  WorkflowStep.approverId s = Some a ->
  find_workflow (d_workflowId req) d = Some w ->
  finds d req a v s w.
Proof.
  intros Hnd Ha Hv Hs Hwid Happ Hw. repeat split; try assumption.
  - unfold find_step in Hs.
    rewrite (find_first_ext _
               (fun x => String.eqb (WorkflowStep.id x) (d_stepId req)
                         && (String.eqb (WorkflowStep.workflowId x) (d_workflowId req)
                             && match WorkflowStep.approverId x with
                                | Some a0 => String.eqb a0 a
                                | None => false
                                end))).
    2:{ intros x. unfold step_where. symmetry. apply andb_assoc. }
    rewrite (find_first_refine WorkflowStep.id _ _ _ s Hnd Hs).
    rewrite Hwid, Happ, !String.eqb_refl. reflexivity.
  - rewrite Hwid. exact Hw.
Qed.

Lemma decideStep_not_active env d req a v s w :
  finds d req a v s w ->
  ApprovalWorkflow.currentStep w <> WorkflowStep.stepOrder s ->
  fault env 0 = false ->
  run (decideStep req) env d
  = (Ok (json 400 (message "This step is not currently active")), d).
Proof.
  intros (Ha & Hv & Hs & Hw) E H0.
  unfold run, decideStep, try_catch, bind. rewrite Ha, Hv.
  unfold workflowStep_findFirst, call. simpl. rewrite H0, Hs, Hw.
  apply Z.eqb_neq in E. rewrite E. reflexivity.
Qed.

(** C5. A decision on a step whose [stepOrder] is not the workflow's
    [currentStep] fails and leaves every record as it was; when it comes
    from the step's approver (so that the earlier checks of the handler
    pass) the failure is the 400 answer "This step is not currently
    active". *)
Theorem decideStep_inactive_step env d req s w :
  NoDup (map WorkflowStep.id (workflowStep d)) ->
  find_step (d_stepId req) d = Some s ->
  find_workflow (WorkflowStep.workflowId s) d = Some w ->
  WorkflowStep.stepOrder s <> ApprovalWorkflow.currentStep w ->
  (exists r, run (decideStep req) env d = (Ok r, d) /\ code r <> 200) /\
  (forall a v,
      truthy (d_agent req) = Some a ->
      truthy (d_status req) = Some v ->
      WorkflowStep.workflowId s = d_workflowId req ->
      WorkflowStep.approverId s = Some a ->
      fault env 0 = false ->
      run (decideStep req) env d
      = (Ok (json 400 (message "This step is not currently active")), d)).
Proof.
  intros Hnd Hs Hw Hne. split.
  - destruct (decideStep_cases env d req) as [H|(a & v & s' & w' & Hf & Hact & _ & _)];
      [exact H|exfalso].
    pose proof (finds_sound _ _ _ _ _ _ Hf) as (Hin' & _ & Hid' & _).
    apply (find_first_key WorkflowStep.id) in Hs. destruct Hs as [Hid Hin].
    assert (s' = s).
    { apply (key_determines_row WorkflowStep.id (workflowStep d)); congruence. }
    subst s'. destruct Hf as (_ & _ & _ & Hw'). congruence.
  - intros a v Ha Hv Hwid Happ H0.
    apply decideStep_not_active with (a := a) (v := v) (s := s) (w := w); auto.
    apply finds_by_key; try assumption. rewrite <- Hwid. exact Hw.
Qed.

Lemma refund_pending_created :
  run (create refund_request) calm empty
  = (Ok (json 201 (workflow (Some (refund_workflow, workflowStep refund_pending)))),
     refund_pending).
Proof. vm_compute. reflexivity. Qed.

Lemma decideStep_inactive_step_witness :
  (exists r,
      run (decideStep (decision "id2" "admin-1" "APPROVED")) calm refund_pending
      = (Ok r, refund_pending) /\ code r <> 200) /\
  run (decideStep (decision "id2" "admin-1" "APPROVED")) calm refund_pending
  = (Ok (json 400 (message "This step is not currently active")), refund_pending).
Proof.
  assert (Hnd : NoDup (map WorkflowStep.id (workflowStep refund_pending)))
    by nodup_ids.
  assert (Hne : WorkflowStep.stepOrder (refund_step "id2" 2 "admin-1" true)
                <> ApprovalWorkflow.currentStep refund_workflow)
    by (simpl; lia).
  split.
  - exact (proj1 (decideStep_inactive_step calm refund_pending
                    (decision "id2" "admin-1" "APPROVED")
                    (refund_step "id2" 2 "admin-1" true) refund_workflow
                    Hnd eq_refl eq_refl Hne)).
  - exact (proj2 (decideStep_inactive_step calm refund_pending
                    (decision "id2" "admin-1" "APPROVED")
                    (refund_step "id2" 2 "admin-1" true) refund_workflow
                    Hnd eq_refl eq_refl Hne)
             "admin-1" "APPROVED" eq_refl eq_refl eq_refl eq_refl eq_refl).
Defined.

Lemma find_workflow_write_workflow wid u d :
  find_workflow wid (write_workflow wid u d)
  = option_map (set_workflow u) (find_workflow wid d).
Proof.
  unfold find_workflow, write_workflow. simpl.
  rewrite (find_first_update ApprovalWorkflow.id) by reflexivity.
  destruct (find_first _ (approvalWorkflow d)) as [w|] eqn:E; [|reflexivity].
  apply (find_first_key ApprovalWorkflow.id) in E. destruct E as [E _].
  simpl. rewrite E, String.eqb_refl. reflexivity.
Qed.

Lemma verdict_has_keys v s w now :
  v = "APPROVED" \/ v = "REJECTED" -> has_keys (workflowUpdate v s w now) = true.
Proof.
  intros [E|E]; subst v; unfold workflowUpdate; simpl;
    [destruct (_ <? _)|]; reflexivity.
Qed.

(** C8, as the code has it. The step record and the workflow record are
    written by two persistence calls, the step first. When the step update
    rejects, nothing is changed; when the workflow update rejects, the step
    stays decided and the workflow record is the one before the call, so
    that [currentStep] still designates the decided step. *)
Theorem decideStep_writes_step_then_workflow env d req a v st s w :
  finds d req a v s w ->
  ApprovalWorkflow.currentStep w = WorkflowStep.stepOrder s ->
  StepStatus.of_string v = Some st ->
  v = "APPROVED" \/ v = "REJECTED" ->
  fault env 0 = false ->
  (fault env 1 = true -> run (decideStep req) env d = (error500, d)) /\
  (fault env 1 = false -> fault env 2 = true ->
   let d' := write_step (d_stepId req) st (step_data req a v (clock env 1)) d in
   run (decideStep req) env d = (error500, d') /\
   approvalWorkflow d' = approvalWorkflow d /\
   find_workflow (d_workflowId req) d' = Some w).
Proof.
  intros Hf Hact Hst Hv H0.
  rewrite (decideStep_run env d req a v s w Hf Hact H0). unfold decided.
  split.
  - intros H1. rewrite H1. reflexivity.
  - intros H1 H2. rewrite H1, Hst, H2. simpl.
    rewrite (verdict_has_keys v s w _ Hv).
    repeat split.
    pose proof (finds_sound _ _ _ _ _ _ Hf) as (_ & _ & _ & Hwid & _ & _).
    destruct Hf as (_ & _ & _ & Hw). rewrite find_workflow_write_step, <- Hwid.
    exact Hw.
Qed.

Lemma decideStep_writes_step_then_workflow_witness :
  run (decideStep (decision "id1" "supervisor-1" "APPROVED")) (failing_at 1) refund_pending
  = (error500, refund_pending) /\
  (let d' := write_step "id1" StepStatus.APPROVED
               (step_data (decision "id1" "supervisor-1" "APPROVED")
                          "supervisor-1" "APPROVED" 1001)
               refund_pending in
   run (decideStep (decision "id1" "supervisor-1" "APPROVED")) (failing_at 2) refund_pending
   = (error500, d') /\
   approvalWorkflow d' = approvalWorkflow refund_pending /\
   find_workflow "id0" d' = Some refund_workflow).
Proof.
  assert (Hf : finds refund_pending (decision "id1" "supervisor-1" "APPROVED")
                 "supervisor-1" "APPROVED"
                 (refund_step "id1" 1 "supervisor-1" false) refund_workflow)
    by (repeat split; reflexivity).
  split.
  - exact (proj1 (decideStep_writes_step_then_workflow (failing_at 1) refund_pending
                    (decision "id1" "supervisor-1" "APPROVED")
                    "supervisor-1" "APPROVED" StepStatus.APPROVED _ _
                    Hf eq_refl eq_refl (or_introl eq_refl) eq_refl) eq_refl).
  - exact (proj2 (decideStep_writes_step_then_workflow (failing_at 2) refund_pending
                    (decision "id1" "supervisor-1" "APPROVED")
                    "supervisor-1" "APPROVED" StepStatus.APPROVED _ _
                    Hf eq_refl eq_refl (or_introl eq_refl) eq_refl) eq_refl eq_refl).
Defined.

(** C8, counterexample. The workflow update of an approval rejects: the
    answer is the 500 error, step [id1] is APPROVED in the database and the
    workflow still has [currentStep] 1, the order of that step. *)
Lemma decideStep_partial_write :
  let result :=
    run (decideStep (decision "id1" "supervisor-1" "APPROVED")) (failing_at 2)
        refund_pending in
  fst result = error500 /\
  snd result <> refund_pending /\
  option_map WorkflowStep.status (find_step "id1" (snd result))
  = Some StepStatus.APPROVED /\
  option_map WorkflowStep.stepOrder (find_step "id1" (snd result)) = Some 1 /\
  option_map ApprovalWorkflow.currentStep (find_workflow "id0" (snd result)) = Some 1.
Proof.
  vm_compute. repeat split; try reflexivity. discriminate.
Qed.

(** C9, as the code has it. An approval of the active step, when it is not
    the last one, adds one to [currentStep] and leaves the workflow's
    [status] and [completedAt] as they were: no handler ever writes
    IN_PROGRESS. *)
Theorem approve_advances_currentStep env d req a s w :
  finds d req a "APPROVED" s w ->
  ApprovalWorkflow.currentStep w = WorkflowStep.stepOrder s ->
  WorkflowStep.stepOrder s < ApprovalWorkflow.totalSteps w ->
  fault env 0 = false -> fault env 1 = false -> fault env 2 = false ->
  exists w',
    find_workflow (d_workflowId req) (snd (run (decideStep req) env d)) = Some w' /\
    ApprovalWorkflow.currentStep w' = ApprovalWorkflow.currentStep w + 1 /\
    ApprovalWorkflow.status w' = ApprovalWorkflow.status w /\
    ApprovalWorkflow.completedAt w' = ApprovalWorkflow.completedAt w.
Proof.
  intros Hf Hact Hlt H0 H1 H2.
  rewrite (decideStep_run env d req a _ s w Hf Hact H0). unfold decided.
  rewrite H1, H2. simpl StepStatus.of_string. cbv zeta.
  unfold workflowUpdate. simpl String.eqb.
  apply Z.ltb_lt in Hlt. rewrite Hlt. simpl has_keys.
  pose proof (finds_sound _ _ _ _ _ _ Hf) as (_ & _ & _ & Hwid & _ & _).
  destruct Hf as (_ & _ & _ & Hw). rewrite Hwid in Hw.
  eexists. split.
  - destruct (fault env 3); simpl;
      rewrite find_workflow_write_workflow, find_workflow_write_step, Hw; reflexivity.
  - simpl. rewrite Hact. auto.
Qed.

Lemma approve_advances_currentStep_witness :
  exists w',
    find_workflow "id0"
      (snd (run (decideStep (decision "id1" "supervisor-1" "APPROVED")) calm refund_pending))
    = Some w' /\
    ApprovalWorkflow.currentStep w' = 1 + 1 /\
    ApprovalWorkflow.status w' = WorkflowStatus.PENDING /\
    ApprovalWorkflow.completedAt w' = None.
Proof.
  refine (approve_advances_currentStep calm refund_pending
            (decision "id1" "supervisor-1" "APPROVED") "supervisor-1"
            (refund_step "id1" 1 "supervisor-1" false) refund_workflow
            _ _ _ eq_refl eq_refl eq_refl).
  - repeat split; reflexivity.
  - reflexivity.
  - simpl. lia.
Defined.

(** C9, counterexample. The first approval on a PENDING two-step workflow
    moves [currentStep] to 2 and leaves the status PENDING. *)
Lemma first_approval_stays_PENDING :
  option_map (fun w => (ApprovalWorkflow.currentStep w, ApprovalWorkflow.status w))
    (find_workflow "id0"
       (snd (run (decideStep (decision "id1" "supervisor-1" "APPROVED")) calm
                 refund_pending)))
  = Some (2, WorkflowStatus.PENDING) /\
  WorkflowStatus.PENDING <> WorkflowStatus.IN_PROGRESS.
Proof.
  split; [vm_compute; reflexivity | discriminate].
Qed.

(** *** Databases that the three handlers can produce *)

Lemma consistent_write_step d req a v s w st data :
  consistent d ->
  finds d req a v s w ->
  ApprovalWorkflow.currentStep w = WorkflowStep.stepOrder s ->
  consistent (write_step (d_stepId req) st data d).
Proof.
  intros [Hwk Hsk Hfk Hlater Hrange] Hf Hact.
  pose proof (finds_sound _ _ _ _ _ _ Hf) as (Hin & Hinw & Hid & Hwid & _ & Hidw).
  constructor; simpl; [| | | |exact Hrange].
  - exact Hwk.
  - rewrite (update_where_keys WorkflowStep.id) by reflexivity. exact Hsk.
  - intros x Hx. apply in_update_where in Hx. destruct Hx as [r [Hr E]].
    destruct (Hfk r Hr) as [w' [Hw' Ew']]. exists w'. split; [exact Hw'|].
    subst x. destruct (String.eqb _ _); simpl; exact Ew'.
  - intros x w' Hx Hw' Ew' Hlt.
    apply in_update_where in Hx. destruct Hx as [r [Hr E]].
    destruct (String.eqb_spec (WorkflowStep.id r) (d_stepId req)) as [Er|Er].
    + exfalso.
      assert (r = s).
      { apply (key_determines_row WorkflowStep.id (workflowStep d)); congruence. }
      subst r x. simpl in Ew', Hlt.
      assert (w' = w).
      { apply (key_determines_row ApprovalWorkflow.id (approvalWorkflow d)); congruence. }
      subst w'. lia.
    + subst x. eapply Hlater; eauto.
Qed.

Lemma consistent_write_workflow d wid u :
  consistent d ->
  (forall r, In r (approvalWorkflow d) -> ApprovalWorkflow.id r = wid ->
     ApprovalWorkflow.currentStep r <= ApprovalWorkflow.currentStep (set_workflow u r)
     <= ApprovalWorkflow.totalSteps r) ->
  consistent (write_workflow wid u d).
Proof.
  intros [Hwk Hsk Hfk Hlater Hrange] Hmono.
  constructor; simpl.
  - rewrite (update_where_keys ApprovalWorkflow.id) by reflexivity. exact Hwk.
  - exact Hsk.
  - intros x Hx. destruct (Hfk x Hx) as [w' [Hw' Ew']].
    exists (if String.eqb (ApprovalWorkflow.id w') wid then set_workflow u w' else w').
    split.
    + unfold update_where. apply in_map_iff. exists w'. auto.
    + destruct (String.eqb _ _); simpl; exact Ew'.
  - intros x w' Hx Hw' Ew' Hlt.
    apply in_update_where in Hw'. destruct Hw' as [r [Hr E]].
    destruct (String.eqb_spec (ApprovalWorkflow.id r) wid) as [Er|Er].
    + subst w'. simpl in Ew'. specialize (Hmono r Hr Er).
      apply (Hlater x r); auto. lia.
    + subst w'. eapply Hlater; eauto.
  - intros w' Hw'. apply in_update_where in Hw'. destruct Hw' as [r [Hr E]].
    specialize (Hrange r Hr).
    destruct (String.eqb_spec (ApprovalWorkflow.id r) wid) as [Er|Er]; subst w';
      [|exact Hrange].
    specialize (Hmono r Hr Er). simpl ApprovalWorkflow.totalSteps. lia.
Qed.

Lemma consistent_decideStep env req d :
  consistent d -> consistent (snd (run (decideStep req) env d)).
Proof.
  intros Hc.
  destruct (decideStep_cases env d req)
    as [(r & E & _)|(a & v & s & w & Hf & Hact & _ & E)]; rewrite E; [exact Hc|].
  pose proof (finds_sound _ _ _ _ _ _ Hf) as (_ & Hinw & _ & _ & _ & Hidw).
  unfold decided. destruct (fault env 1); [exact Hc|].
  destruct (StepStatus.of_string v) as [st|]; [|exact Hc].
  pose proof (consistent_write_step d req a v s w st
                (step_data req a v (clock env 1)) Hc Hf Hact) as Hc1.
  cbv zeta.
  assert (Hc2 : consistent (write_workflow (d_workflowId req)
                              (workflowUpdate v s w (clock env 2))
                              (write_step (d_stepId req) st
                                 (step_data req a v (clock env 1)) d))).
  { apply consistent_write_workflow; [exact Hc1|].
    simpl. intros r Hr Er.
    assert (r = w).
    { apply (key_determines_row ApprovalWorkflow.id (approvalWorkflow d));
        try assumption; [apply Hc | congruence]. }
    subst r. pose proof (currentStep_range d Hc w Hinw) as Hrange.
    unfold workflowUpdate.
    destruct (String.eqb v "APPROVED");
      [destruct (Z.ltb_spec (WorkflowStep.stepOrder s) (ApprovalWorkflow.totalSteps w))
      |destruct (String.eqb v "REJECTED")]; simpl; lia. }
  destruct (has_keys _); [destruct (fault env 2); [exact Hc1|]|];
    match goal with |- context [fault env ?n] => destruct (fault env n) end;
    simpl; assumption.
Qed.

(** The cancel handler writes only when the requester's workflow is
    PENDING or IN_PROGRESS. *)
Lemma cancel_cases env d req :
  snd (run (cancel req) env d) = d \/
  exists a w,
    truthy (x_agent req) = Some a /\
    find_first (fun w => String.eqb (ApprovalWorkflow.id w) (x_id req)
                         && String.eqb (ApprovalWorkflow.requesterId w) a)
               (approvalWorkflow d) = Some w /\
    (ApprovalWorkflow.status w = WorkflowStatus.PENDING \/
     ApprovalWorkflow.status w = WorkflowStatus.IN_PROGRESS) /\
    snd (run (cancel req) env d)
    = write_workflow (x_id req) (cancelled (clock env 1) (x_reason req)) d.
Proof.
  remember (snd (run (cancel req) env d)) as d' eqn:E.
  unfold run, cancel, try_catch, bind in E.
  destruct (truthy (x_agent req)) as [a|] eqn:Ha; [|left; exact E].
  unfold approvalWorkflow_findFirst, call at 1 in E. simpl in E.
  destruct (fault env 0); [left; exact E|].
  destruct (find_first _ (approvalWorkflow d)) as [w|] eqn:Hw; [|left; exact E].
  destruct (ApprovalWorkflow.status w) eqn:Est; try (left; exact E);
    unfold new_Date, approvalWorkflow_update, call in E; simpl in E;
    (destruct (fault env 1); [left; exact E|]);
    (destruct (find_workflow (x_id req) d); [|left; exact E]);
    right; exists a, w; repeat split; auto.
Qed.

Lemma consistent_cancel env req d :
  consistent d -> consistent (snd (run (cancel req) env d)).
Proof.
  intros Hc. destruct (cancel_cases env d req) as [E|(a & w & _ & _ & _ & E)];
    rewrite E; [exact Hc|].
  apply consistent_write_workflow; [exact Hc|]. simpl. intros r Hr _.
  pose proof (currentStep_range d Hc r Hr). lia.
Qed.

(** The create handler inserts a workflow at step 1 with all its steps
    PENDING, under fresh identifiers, or nothing. *)
Lemma create_cases env d req :
  snd (run (create req) env d) = d \/
  exists wid sids steps rows w,
    c_steps req = Some steps /\
    0 < len steps /\
    List.length sids = List.length steps /\
    fresh_ids [wid] (map ApprovalWorkflow.id (approvalWorkflow d)) = true /\
    fresh_ids sids (map WorkflowStep.id (workflowStep d)) = true /\
    all_rows (mapi (step_row wid) (combine sids steps)) = Some rows /\
    ApprovalWorkflow.id w = wid /\
    ApprovalWorkflow.currentStep w = 1 /\
    ApprovalWorkflow.status w = WorkflowStatus.PENDING /\
    ApprovalWorkflow.totalSteps w = len steps /\
    snd (run (create req) env d)
    = {| approvalWorkflow := approvalWorkflow d ++ [w];
         workflowStep := workflowStep d ++ rows |}.
Proof.
  remember (snd (run (create req) env d)) as d' eqn:E.
  unfold run, create, try_catch in E.
  destruct (truthy (c_agent req)) as [a|]; [|left; exact E].
  destruct (truthy (c_requestType req)) as [ty|]; [|left; exact E].
  destruct (truthy (c_requestId req)) as [rid|]; [|left; exact E].
  destruct (truthy (c_description req)) as [de|]; [|left; exact E].
  destruct (c_steps req) as [steps|]; [|left; exact E].
  destruct (Z.eqb_spec (len steps) 0) as [E0|E0]; [left; exact E|].
  unfold bind at 1, new_id at 1 in E. unfold bind at 1 in E.
  destruct (new_ids_run steps env (bump (Build_World d 0 [])))
    as (sids & w1 & Hids & Hdb & Hlen).
  rewrite Hids in E. unfold bind at 1, approvalWorkflow_create, call in E.
  simpl in Hdb.
  destruct (fault env (tick w1)); [left; rewrite E; simpl; exact Hdb|].
  rewrite Hdb in E.
  destruct (WorkflowType.of_string ty); [|left; rewrite E; simpl; exact Hdb].
  destruct (WorkflowPriority.of_string _); [|left; rewrite E; simpl; exact Hdb].
  destruct (all_rows _) as [rows|] eqn:Hrows; [|left; rewrite E; simpl; exact Hdb].
  simpl tick in *.
  destruct (fresh_ids [cuid env 0%nat] _) eqn:Hf1; [|left; rewrite E; simpl; exact Hdb].
  destruct (fresh_ids sids _) eqn:Hf2; [|left; rewrite E; simpl; exact Hdb].
  simpl in E. right.
  exists (cuid env 0%nat), sids, steps, rows. eexists.
  split; [reflexivity|]. split; [unfold len in *; lia|]. split; [exact Hlen|].
  split; [exact Hf1|]. split; [exact Hf2|]. split; [exact Hrows|].
  repeat split; try exact E; reflexivity.
Qed.

Lemma step_rows_shape wid (ps : list (string * StepInput)) rows :
  all_rows (mapi (step_row wid) ps) = Some rows ->
  Forall2 (fun p x => WorkflowStep.id x = fst p /\
                      WorkflowStep.workflowId x = wid /\
                      WorkflowStep.status x = StepStatus.PENDING /\
                      WorkflowStep.approverId x = truthy (in_approverId (snd p)))
          ps rows.
Proof.
  apply all_rows_mapi. intros i [sid inp] y. unfold step_row.
  destruct (in_stepName inp); [|discriminate].
  intros H. inversion H; subst. simpl. auto.
Qed.

Lemma consistent_create env req d :
  consistent d -> consistent (snd (run (create req) env d)).
Proof.
  intros Hc.
  destruct (create_cases env d req)
    as [E|(wid & sids & steps & rows & w & _ & Hlen & _ & Hf1 & Hf2 & Hrows & Hid & Hcur & _
           & Htot & E)];
    rewrite E; [exact Hc|].
  apply fresh_ids_spec in Hf1. destruct Hf1 as [_ Hf1].
  apply fresh_ids_spec in Hf2. destruct Hf2 as [Hnd2 Hf2].
  apply step_rows_shape in Hrows.
  assert (Hids : map WorkflowStep.id rows = map fst (combine sids steps)).
  { apply (Forall2_map_eq _ _ _ _ _) with (2 := Hrows). intros a b H. apply H. }
  assert (Hrow : forall x, In x rows ->
            WorkflowStep.workflowId x = wid /\ WorkflowStep.status x = StepStatus.PENDING).
  { apply (Forall2_right _ _ _ _) with (2 := Hrows). intros a b H. split; apply H. }
  destruct Hc as [Hwk Hsk Hfk Hlater Hrange].
  constructor; simpl.
  5:{ intros w' Hw'. apply in_app_or in Hw'. destruct Hw' as [Hw'|[Hw'|[]]]; [auto|].
      subst w'. lia. }
  - rewrite map_app. simpl. apply NoDup_app_disjoint; [exact Hwk|nodup_ids|].
    intros i [Hi|[]]. subst i. apply Hf1. left. symmetry. exact Hid.
  - rewrite map_app, Hids. apply NoDup_app_disjoint; [exact Hsk| |].
    + apply combine_fst_NoDup. exact Hnd2.
    + intros i Hi. apply Hf2. eapply combine_fst_incl. exact Hi.
  - intros s Hs. apply in_app_or in Hs. destruct Hs as [Hs|Hs].
    + destruct (Hfk s Hs) as [w' [Hw' Ew']]. exists w'. split; [|exact Ew'].
      apply in_or_app. left. exact Hw'.
    + exists w. split; [apply in_or_app; right; left; reflexivity|].
      destruct (Hrow s Hs) as [Hs' _]. congruence.
  - intros s w' Hs Hw' Ew' Hlt.
    apply in_app_or in Hs. destruct Hs as [Hs|Hs]; [|apply (Hrow s Hs)].
    apply in_app_or in Hw'. destruct Hw' as [Hw'|[Hw'|[]]].
    + eapply Hlater; eauto.
    + exfalso. subst w'. destruct (Hfk s Hs) as [w0 [Hw0 Ew0]].
      apply (Hf1 wid); [left; reflexivity|].
      rewrite Hid in Ew'. rewrite Ew', <- Ew0. apply in_map. exact Hw0.
Qed.

Lemma consistent_empty : consistent empty.
Proof. constructor; simpl; try constructor; intros; contradiction. Qed.

Theorem reachable_consistent d : reachable d -> consistent d.
Proof.
  induction 1.
  - exact consistent_empty.
  - apply consistent_create. assumption.
  - apply consistent_decideStep. assumption.
  - apply consistent_cancel. assumption.
Qed.

(** *** Deciding every step in order *)

Lemma decided_both_written env d req a v st s w :
  StepStatus.of_string v = Some st ->
  has_keys (workflowUpdate v s w (clock env 2)) = true ->
  fault env 1 = false -> fault env 2 = false ->
  snd (decided env d req a v s w)
  = write_workflow (d_workflowId req) (workflowUpdate v s w (clock env 2))
      (write_step (d_stepId req) st (step_data req a v (clock env 1)) d).
Proof.
  intros Hst Hk H1 H2. unfold decided. rewrite H1, Hst. cbv zeta.
  rewrite Hk, H2. destruct (fault env 3); reflexivity.
Qed.

Lemma find_step_other sid sid' st data wid u d s' :
  find_step sid' d = Some s' ->
  sid' <> sid ->
  find_step sid' (write_workflow wid u (write_step sid st data d)) = Some s'.
Proof.
  intros Hs' Hne. unfold find_step, write_workflow, write_step. simpl.
  rewrite (find_first_update WorkflowStep.id) by reflexivity.
  unfold find_step in Hs'. rewrite Hs'. simpl.
  apply (find_first_key WorkflowStep.id) in Hs'. destruct Hs' as [E _].
  rewrite E. apply String.eqb_neq in Hne. rewrite Hne. reflexivity.
Qed.

Lemma approvals_in_order_later sid st data wid u d s :
  find_step sid d = Some s ->
  forall calls k',
    WorkflowStep.stepOrder s < k' ->
    approvals_in_order d wid k' calls ->
    approvals_in_order (write_workflow wid u (write_step sid st data d)) wid k' calls.
Proof.
  intros Hs. induction calls as [|[env req] rest IH]; simpl; intros k' Hlt H; [exact I|].
  destruct H as (Hfault & Hwid & Hv & (a & s' & Ha & Hs' & Hw' & Ho' & Happ) & Hrest).
  repeat split; try tauto.
  - exists a, s'. repeat split; auto.
    apply find_step_other; [exact Hs'|].
    intros E. rewrite E in Hs'. assert (s' = s) by congruence. subst s'. lia.
  - apply IH; [lia|exact Hrest].
Qed.

Lemma approvals_complete calls :
  forall d wid w,
    NoDup (map WorkflowStep.id (workflowStep d)) ->
    find_workflow wid d = Some w ->
    ApprovalWorkflow.totalSteps w = ApprovalWorkflow.currentStep w + len calls - 1 ->
    calls <> [] ->
    approvals_in_order d wid (ApprovalWorkflow.currentStep w) calls ->
    exists w' t,
      find_workflow wid (decide_all calls d) = Some w' /\
      ApprovalWorkflow.status w' = WorkflowStatus.APPROVED /\
      ApprovalWorkflow.completedAt w' = Some t.
Proof.
  induction calls as [|[env req] rest IH]; intros d wid w Hnd Hw Htot Hne Hord;
    [congruence|].
  simpl in Hord.
  destruct Hord as ((H0 & H1 & H2) & Hwid & Hv & (a & s & Ha & Hs & Hsw & Hso & Happ) & Hrest).
  subst wid.
  assert (Hf : finds d req a "APPROVED" s w).
  { apply finds_by_key; try assumption; congruence. }
  assert (Hact : ApprovalWorkflow.currentStep w = WorkflowStep.stepOrder s) by congruence.
  simpl decide_all.
  rewrite (decideStep_run env d req a _ s w Hf Hact H0).
  rewrite (decided_both_written env d req a "APPROVED" StepStatus.APPROVED s w eq_refl
             (verdict_has_keys "APPROVED" s w _ (or_introl eq_refl)) H1 H2).
  set (data := step_data req a "APPROVED" (clock env 1)).
  unfold workflowUpdate. simpl String.eqb. cbv iota.
  destruct rest as [|call rest].
  - (* the last step *)
    unfold len in Htot. simpl in Htot.
    assert (E : (WorkflowStep.stepOrder s <? ApprovalWorkflow.totalSteps w) = false)
      by (apply Z.ltb_ge; lia).
    rewrite E. simpl decide_all.
    rewrite find_workflow_write_workflow, find_workflow_write_step, Hw.
    eexists. eexists. split; [reflexivity|]. simpl. auto.
  - unfold len in Htot. simpl List.length in Htot.
    assert (E : (WorkflowStep.stepOrder s <? ApprovalWorkflow.totalSteps w) = true)
      by (apply Z.ltb_lt; lia).
    rewrite E.
    match goal with
    | |- context [decide_all _ (write_workflow ?i ?u0 ?d1)] =>
        set (u := u0); set (d2 := write_workflow i u d1)
    end.
    apply (IH d2 (d_workflowId req) (set_workflow u w)).
    + unfold d2. simpl. rewrite (update_where_keys WorkflowStep.id) by reflexivity.
      exact Hnd.
    + unfold d2. rewrite find_workflow_write_workflow, find_workflow_write_step, Hw.
      reflexivity.
    + simpl. unfold len. simpl List.length. lia.
    + discriminate.
    + unfold d2. simpl ApprovalWorkflow.currentStep.
      apply (approvals_in_order_later _ _ _ _ _ _ s); [exact Hs|lia|].
      rewrite <- Hact. exact Hrest.
Qed.

Lemma find_workflow_In wid d w :
  find_workflow wid d = Some w -> In w (approvalWorkflow d) /\ ApprovalWorkflow.id w = wid.
Proof.
  intros H. apply (find_first_key ApprovalWorkflow.id) in H. tauto.
Qed.

Lemma reject_is_terminal env d req a s w :
  consistent d ->
  finds d req a "REJECTED" s w ->
  ApprovalWorkflow.currentStep w = WorkflowStep.stepOrder s ->
  fault env 0 = false -> fault env 1 = false -> fault env 2 = false ->
  exists w',
    find_workflow (d_workflowId req) (snd (run (decideStep req) env d)) = Some w' /\
    ApprovalWorkflow.status w' = WorkflowStatus.REJECTED /\
    ApprovalWorkflow.completedAt w' = Some (clock env 2) /\
    ApprovalWorkflow.currentStep w' = ApprovalWorkflow.currentStep w /\
    forall x,
      In x (workflowStep (snd (run (decideStep req) env d))) ->
      WorkflowStep.workflowId x = d_workflowId req ->
      ApprovalWorkflow.currentStep w' < WorkflowStep.stepOrder x ->
      WorkflowStep.status x = StepStatus.PENDING.
Proof.
  intros Hc Hf Hact H0 H1 H2.
  pose proof (consistent_decideStep env req d Hc) as Hc'.
  pose proof (finds_sound _ _ _ _ _ _ Hf) as (_ & _ & _ & Hwid & _ & _).
  assert (Hw : find_workflow (d_workflowId req) d = Some w).
  { destruct Hf as (_ & _ & _ & Hw). rewrite <- Hwid. exact Hw. }
  assert (E : find_workflow (d_workflowId req) (snd (run (decideStep req) env d))
              = Some (set_workflow (workflowUpdate "REJECTED" s w (clock env 2)) w)).
  { rewrite (decideStep_run env d req a _ s w Hf Hact H0).
    rewrite (decided_both_written env d req a "REJECTED" StepStatus.REJECTED s w eq_refl
               (verdict_has_keys "REJECTED" s w _ (or_intror eq_refl)) H1 H2).
    rewrite find_workflow_write_workflow, find_workflow_write_step, Hw. reflexivity. }
  eexists. split; [exact E|]. repeat split.
  intros x Hx Hxw Hlt. apply find_workflow_In in E. destruct E as [Hin Hid].
  eapply (later_steps_pending _ Hc' x); eauto. congruence.
Qed.

(** C1. In a database that the handlers can produce, take a workflow at
    its first step with [totalSteps] N. After N decisions APPROVED, one
    per step in step order, each by the approver of its step, its status is
    APPROVED and [completedAt] is set. And after one decision REJECTED on
    the active step of any workflow, whatever the step's [isOptional], the
    status is REJECTED, [completedAt] is set, [currentStep] has not moved
    and every step after it is still PENDING. *)
Theorem decisions_settle_workflow :
  (forall d wid w calls,
      reachable d ->
      find_workflow wid d = Some w ->
      ApprovalWorkflow.currentStep w = 1 ->
      len calls = ApprovalWorkflow.totalSteps w ->
      approvals_in_order d wid 1 calls ->
      exists w' t,
        find_workflow wid (decide_all calls d) = Some w' /\
        ApprovalWorkflow.status w' = WorkflowStatus.APPROVED /\
        ApprovalWorkflow.completedAt w' = Some t) /\
  (forall env d req a s w,
      reachable d ->
      finds d req a "REJECTED" s w ->
      ApprovalWorkflow.currentStep w = WorkflowStep.stepOrder s ->
      fault env 0 = false -> fault env 1 = false -> fault env 2 = false ->
      exists w',
        find_workflow (d_workflowId req) (snd (run (decideStep req) env d)) = Some w' /\
        ApprovalWorkflow.status w' = WorkflowStatus.REJECTED /\
        ApprovalWorkflow.completedAt w' = Some (clock env 2) /\
        ApprovalWorkflow.currentStep w' = ApprovalWorkflow.currentStep w /\
        forall x,
          In x (workflowStep (snd (run (decideStep req) env d))) ->
          WorkflowStep.workflowId x = d_workflowId req ->
          ApprovalWorkflow.currentStep w' < WorkflowStep.stepOrder x ->
          WorkflowStep.status x = StepStatus.PENDING).
Proof.
  split.
  - intros d wid w calls Hr Hw Hcur Hlen Hord.
    pose proof (reachable_consistent d Hr) as Hc.
    destruct (find_workflow_In _ _ _ Hw) as [Hin _].
    pose proof (currentStep_range d Hc w Hin) as Hrange.
    apply (approvals_complete calls d wid w); try assumption.
    + apply Hc.
    + lia.
    + intros E. subst calls. unfold len in Hlen. simpl in Hlen. lia.
    + rewrite Hcur. exact Hord.
  - intros env d req a s w Hr. apply reject_is_terminal.
    apply reachable_consistent. exact Hr.
Qed.

Lemma refund_pending_reachable : reachable refund_pending.
Proof.
  change refund_pending with (snd (Ok (json 201 (workflow
           (Some (refund_workflow, workflowStep refund_pending)))), refund_pending)).
  rewrite <- refund_pending_created. apply reach_create. apply reach_empty.
Qed.

Lemma decisions_settle_workflow_witness :
  (exists w' t,
      find_workflow "id0" (decide_all approve_both refund_pending) = Some w' /\
      ApprovalWorkflow.status w' = WorkflowStatus.APPROVED /\
      ApprovalWorkflow.completedAt w' = Some t) /\
  (exists w',
      find_workflow "id0"
        (snd (run (decideStep (decision "id1" "supervisor-1" "REJECTED")) calm
                  refund_pending)) = Some w' /\
      ApprovalWorkflow.status w' = WorkflowStatus.REJECTED /\
      ApprovalWorkflow.completedAt w' = Some 1002 /\
      ApprovalWorkflow.currentStep w' = 1 /\
      forall x,
        In x (workflowStep
                (snd (run (decideStep (decision "id1" "supervisor-1" "REJECTED")) calm
                          refund_pending))) ->
        WorkflowStep.workflowId x = "id0" ->
        ApprovalWorkflow.currentStep w' < WorkflowStep.stepOrder x ->
        WorkflowStep.status x = StepStatus.PENDING).
Proof.
  split.
  - refine (proj1 decisions_settle_workflow refund_pending "id0" refund_workflow
              approve_both refund_pending_reachable eq_refl eq_refl eq_refl _).
    simpl. repeat split; try reflexivity.
    + exists "supervisor-1", (refund_step "id1" 1 "supervisor-1" false).
      repeat split; reflexivity.
    + exists "admin-1", (refund_step "id2" 2 "admin-1" true).
      repeat split; reflexivity.
  - refine (proj2 decisions_settle_workflow calm refund_pending
              (decision "id1" "supervisor-1" "REJECTED") "supervisor-1"
              (refund_step "id1" 1 "supervisor-1" false) refund_workflow
              refund_pending_reachable _ eq_refl eq_refl eq_refl eq_refl).
    repeat split; reflexivity.
Defined.

(** The optional second step rejected after the first was approved. *)
Example optional_step_rejected :
  let d1 := snd (run (decideStep (decision "id1" "supervisor-1" "APPROVED")) calm
                     refund_pending) in
  let d2 := snd (run (decideStep (decision "id2" "admin-1" "REJECTED")) calm d1) in
  option_map WorkflowStep.isOptional (find_step "id2" d2) = Some true /\
  option_map (fun w => (ApprovalWorkflow.status w, ApprovalWorkflow.completedAt w))
    (find_workflow "id0" d2)
  = Some (WorkflowStatus.REJECTED, Some 1002) /\
  map WorkflowStep.status (workflowStep d2) = [StepStatus.APPROVED; StepStatus.REJECTED].
Proof. vm_compute. repeat split. Qed.

(** *** Terminal workflows *)

Lemma refund_cancelled_reachable : reachable refund_cancelled.
Proof.
  change refund_cancelled with
    (snd (run (cancel {| x_agent := Some "agent-7"; x_id := "id0";
                         x_reason := Some "Paid by other means" |})
              calm refund_pending)).
  apply reach_cancel. exact refund_pending_reachable.
Qed.

(** The cancel handler has the guard: on a terminal workflow it changes
    nothing. *)
Lemma cancel_terminal_unchanged env d req w :
  NoDup (map ApprovalWorkflow.id (approvalWorkflow d)) ->
  find_workflow (x_id req) d = Some w ->
  terminal (ApprovalWorkflow.status w) ->
  snd (run (cancel req) env d) = d.
Proof.
  intros Hnd Hw Hterm.
  destruct (cancel_cases env d req) as [E|(a & w' & _ & Hw' & Hst & _)]; [exact E|].
  exfalso. apply find_some in Hw'. destruct Hw' as [Hin Hp].
  apply andb_prop in Hp. destruct Hp as [Hid _]. apply String.eqb_eq in Hid.
  apply find_workflow_In in Hw. destruct Hw as [Hin0 Hid0].
  assert (w' = w).
  { apply (key_determines_row ApprovalWorkflow.id (approvalWorkflow d)); congruence. }
  subst w'. unfold terminal in Hterm.
  destruct Hst as [E|E]; rewrite E in Hterm; intuition discriminate.
Qed.

(** C4, the code at the failing input. The workflow [id0] was cancelled by
    its requester; the approver of its first step then sends REJECTED and
    the handler, which never reads the workflow's status, answers 200 and
    turns CANCELLED into REJECTED. *)
Theorem cancelled_workflow_becomes_REJECTED :
  option_map ApprovalWorkflow.status (find_workflow "id0" refund_cancelled)
  = Some WorkflowStatus.CANCELLED /\
  option_map code
    (match fst (run (decideStep (decision "id1" "supervisor-1" "REJECTED")) calm
                    refund_cancelled) with
     | Ok r => Some r
     | Throw _ => None
     end) = Some 200 /\
  option_map ApprovalWorkflow.status
    (find_workflow "id0"
       (snd (run (decideStep (decision "id1" "supervisor-1" "REJECTED")) calm
                 refund_cancelled)))
  = Some WorkflowStatus.REJECTED.
Proof. vm_compute. repeat split. Qed.

(** C3, the code at the failing input. On the same cancelled workflow the
    approver sends APPROVED: the step record [id1] changes from PENDING to
    APPROVED and [currentStep] moves to 2, while the status stays
    CANCELLED. *)
Theorem cancelled_workflow_step_changes :
  option_map ApprovalWorkflow.status (find_workflow "id0" refund_cancelled)
  = Some WorkflowStatus.CANCELLED /\
  option_map WorkflowStep.status (find_step "id1" refund_cancelled)
  = Some StepStatus.PENDING /\
  let d' := snd (run (decideStep (decision "id1" "supervisor-1" "APPROVED")) calm
                     refund_cancelled) in
  option_map (fun s => (WorkflowStep.status s, WorkflowStep.processedBy s))
    (find_step "id1" d')
  = Some (StepStatus.APPROVED, Some "supervisor-1") /\
  option_map (fun w => (ApprovalWorkflow.status w, ApprovalWorkflow.currentStep w))
    (find_workflow "id0" d')
  = Some (WorkflowStatus.CANCELLED, 2).
Proof. vm_compute. repeat split. Qed.

(** *** The active step while a workflow is open *)

Lemma step_rows_orders wid (ps : list (string * StepInput)) :
  forall i rows,
    all_rows (mapi_from i (step_row wid) ps) = Some rows ->
    (forall x, In x rows -> i < WorkflowStep.stepOrder x <= i + len ps) /\
    (forall k, i < k <= i + len ps ->
               exists x, In x rows /\ WorkflowStep.stepOrder x = k) /\
    (forall x y, In x rows -> In y rows ->
                 WorkflowStep.stepOrder x = WorkflowStep.stepOrder y -> x = y).
Proof.
  induction ps as [|[sid inp] ps IH]; intros i rows H.
  - simpl in H. inversion H; subst. unfold len. simpl.
    split; [intros x []|]. split; [intros k Hk; lia|intros x y []].
  - cbn [mapi_from all_rows] in H.
    destruct (step_row wid i (sid, inp)) as [r|] eqn:Er; [|discriminate].
    destruct (all_rows (mapi_from (i + 1) (step_row wid) ps)) as [rest|] eqn:Erest;
      [|discriminate].
    inversion H; subst rows. clear H.
    assert (Hr : WorkflowStep.stepOrder r = i + 1).
    { unfold step_row in Er. destruct (in_stepName inp); inversion Er. reflexivity. }
    destruct (IH (i + 1) rest Erest) as (H1 & H2 & H3).
    assert (Hlen : len ((sid, inp) :: ps) = 1 + len ps).
    { unfold len. simpl List.length. rewrite Nat2Z.inj_succ. lia. }
    rewrite Hlen. split; [|split].
    + intros x [E|Hx]; [subst x; unfold len; lia|]. specialize (H1 x Hx). lia.
    + intros k Hk. destruct (Z.eq_dec k (i + 1)) as [E|E].
      * exists r. split; [left; reflexivity|congruence].
      * destruct (H2 k) as [x [Hx Ex]]; [lia|]. exists x. split; [right; exact Hx|exact Ex].
    + intros x y [Ex|Hx] [Ey|Hy] E.
      * congruence.
      * subst x. specialize (H1 y Hy). lia.
      * subst y. specialize (H1 x Hx). lia.
      * apply H3; assumption.
Qed.

Lemma in_order_empty : in_order empty.
Proof. constructor; simpl; intros; contradiction. Qed.

Lemma in_order_create env req d :
  consistent d -> in_order d -> in_order (snd (run (create req) env d)).
Proof.
  intros Hc Ho.
  destruct (create_cases env d req)
    as [E|(wid & sids & steps & rows & w & _ & Hpos & Hlen & Hf1 & _ & Hrows & Hid & Hcur
           & Hst & Htot & E)];
    rewrite E; [exact Ho|].
  apply fresh_ids_spec in Hf1. destruct Hf1 as [_ Hf1].
  assert (Hfresh : forall x, In x (workflowStep d) -> WorkflowStep.workflowId x <> wid).
  { intros x Hx Ex. destruct (step_workflow d Hc x Hx) as [w0 [Hw0 Ew0]].
    apply (Hf1 wid); [left; reflexivity|]. rewrite <- Ex, <- Ew0. apply in_map. exact Hw0. }
  pose proof (step_rows_shape _ _ _ Hrows) as Hshape.
  assert (Hrow : forall x, In x rows ->
            WorkflowStep.workflowId x = wid /\ WorkflowStep.status x = StepStatus.PENDING).
  { apply (Forall2_right _ _ _ _) with (2 := Hshape). intros a b H. split; apply H. }
  destruct (step_rows_orders wid _ 0 rows Hrows) as (Hr1 & Hr2 & Hr3).
  assert (Hcomb : len (combine sids steps) = len steps).
  { unfold len. rewrite length_combine, Hlen, Nat.min_id. reflexivity. }
  rewrite Hcomb in Hr1, Hr2.
  destruct Ho as [J0 J1 J2 J3]. constructor; simpl.
  - intros x y Hx Hy Ew Eo.
    apply in_app_or in Hx. apply in_app_or in Hy.
    destruct Hx as [Hx|Hx], Hy as [Hy|Hy].
    + apply J0; assumption.
    + exfalso. apply (Hfresh x Hx). rewrite Ew. apply (Hrow y Hy).
    + exfalso. apply (Hfresh y Hy). rewrite <- Ew. apply (Hrow x Hx).
    + apply Hr3; assumption.
  - intros w0 k Hw0 Hk. apply in_app_or in Hw0. destruct Hw0 as [Hw0|[Ew0|[]]].
    + destruct (J1 w0 k Hw0 Hk) as [x [Hx Hxx]]. exists x.
      split; [apply in_or_app; left; exact Hx|exact Hxx].
    + subst w0. destruct (Hr2 k) as [x [Hx Ex]]; [lia|]. exists x.
      split; [apply in_or_app; right; exact Hx|].
      split; [rewrite Hid; apply (Hrow x Hx)|exact Ex].
  - intros w0 Hw0. apply in_app_or in Hw0. destruct Hw0 as [Hw0|[Ew0|[]]].
    + apply J2. exact Hw0.
    + subst w0. rewrite Hst. discriminate.
  - intros w0 x Hw0 Hp Hx Ew.
    apply in_app_or in Hw0. apply in_app_or in Hx.
    destruct Hw0 as [Hw0|[Ew0|[]]], Hx as [Hx|Hx].
    + apply J3; assumption.
    + exfalso. apply (Hf1 wid); [left; reflexivity|].
      destruct (Hrow x Hx) as [Exw _]. rewrite <- Exw, Ew. apply in_map. exact Hw0.
    + exfalso. subst w0. apply (Hfresh x Hx). congruence.
    + subst w0. specialize (Hr1 x Hx). split; [intros; lia|].
      intros _. apply (Hrow x Hx).
Qed.

Lemma in_order_cancel env req d :
  in_order d -> in_order (snd (run (cancel req) env d)).
Proof.
  intros Ho. destruct (cancel_cases env d req) as [E|(a & w & _ & _ & _ & E)];
    rewrite E; [exact Ho|].
  destruct Ho as [J0 J1 J2 J3]. constructor; simpl.
  - exact J0.
  - intros w' k Hw' Hk. apply in_update_where in Hw'. destruct Hw' as [r [Hr Er]].
    assert (Hi : ApprovalWorkflow.id w' = ApprovalWorkflow.id r /\
                 ApprovalWorkflow.totalSteps w' = ApprovalWorkflow.totalSteps r)
      by (subst w'; destruct (String.eqb _ _); split; reflexivity).
    destruct Hi as [Hi Ht]. rewrite Hi. apply (J1 r k Hr). rewrite <- Ht. exact Hk.
  - intros w' Hw'. apply in_update_where in Hw'. destruct Hw' as [r [Hr Er]].
    subst w'. destruct (String.eqb _ _); [simpl; discriminate|apply J2; exact Hr].
  - intros w' x Hw' Hp Hx Ew. apply in_update_where in Hw'. destruct Hw' as [r [Hr Er]].
    subst w'. destruct (String.eqb _ _); [simpl in Hp; discriminate|].
    apply J3; assumption.
Qed.

Lemma in_order_decided d req a v st s w data now :
  consistent d -> in_order d ->
  finds d req a v s w ->
  ApprovalWorkflow.currentStep w = WorkflowStep.stepOrder s ->
  (v = "APPROVED" /\ st = StepStatus.APPROVED) \/
  (v = "REJECTED" /\ st = StepStatus.REJECTED) ->
  in_order (write_workflow (d_workflowId req) (workflowUpdate v s w now)
              (write_step (d_stepId req) st data d)).
Proof.
  intros Hc [J0 J1 J2 J3] Hf Hact Hv.
  pose proof (finds_sound _ _ _ _ _ _ Hf) as (Hin & Hinw & Hid & Hwid & _ & Hidw).
  assert (Hs : forall x, In x (workflowStep d) -> WorkflowStep.id x = d_stepId req -> x = s).
  { intros x Hx Ex.
    apply (key_determines_row WorkflowStep.id (workflowStep d));
      [apply Hc|assumption|assumption|congruence]. }
  assert (Hw : forall r, In r (approvalWorkflow d) ->
                         ApprovalWorkflow.id r = d_workflowId req -> r = w).
  { intros r Hr Er.
    apply (key_determines_row ApprovalWorkflow.id (approvalWorkflow d));
      [apply Hc|assumption|assumption|congruence]. }
  constructor; simpl.
  - intros x' y' Hx' Hy' Ew Eo.
    apply in_update_where in Hx'. destruct Hx' as [x [Hx Ex]].
    apply in_update_where in Hy'. destruct Hy' as [y [Hy Ey]].
    assert (x = y).
    { apply J0; try assumption.
      - subst x' y'. destruct (String.eqb (WorkflowStep.id x) _),
          (String.eqb (WorkflowStep.id y) _); exact Ew.
      - subst x' y'. destruct (String.eqb (WorkflowStep.id x) _),
          (String.eqb (WorkflowStep.id y) _); exact Eo. }
    subst y. congruence.
  - intros w' k Hw' Hk. apply in_update_where in Hw'. destruct Hw' as [r [Hr Er]].
    assert (Hi : ApprovalWorkflow.id w' = ApprovalWorkflow.id r /\
                 ApprovalWorkflow.totalSteps w' = ApprovalWorkflow.totalSteps r)
      by (subst w'; destruct (String.eqb _ _); split; reflexivity).
    destruct Hi as [Hi Ht]. rewrite Ht in Hk.
    destruct (J1 r k Hr Hk) as [x [Hx [Exw Exo]]].
    exists (if String.eqb (WorkflowStep.id x) (d_stepId req) then set_step st data x else x).
    split; [unfold update_where; apply in_map_iff; exists x; auto|].
    rewrite Hi.
    destruct (String.eqb (WorkflowStep.id x) (d_stepId req)); simpl; auto.
  - intros w' Hw'. apply in_update_where in Hw'. destruct Hw' as [r [Hr Er]].
    subst w'. destruct (String.eqb _ _); [|apply J2; exact Hr].
    specialize (J2 r Hr). unfold workflowUpdate.
    destruct Hv as [[Ev _]|[Ev _]]; subst v; simpl;
      [destruct (_ <? _); simpl|]; congruence.
  - intros w' x' Hw' Hp Hx' Ew.
    apply in_update_where in Hw'. destruct Hw' as [r [Hr Er]].
    apply in_update_where in Hx'. destruct Hx' as [x [Hx Ex]].
    destruct (String.eqb_spec (ApprovalWorkflow.id r) (d_workflowId req)) as [Erw|Erw].
    + (* the workflow of the decided step *)
      assert (r = w) by (apply Hw; assumption). subst r w'.
      unfold workflowUpdate in Hp |- *.
      destruct Hv as [[Ev Est]|[Ev _]]; subst v; simpl in Hp |- *; [|discriminate].
      destruct (Z.ltb_spec (WorkflowStep.stepOrder s) (ApprovalWorkflow.totalSteps w))
        as [Hlt|Hge]; simpl in Hp |- *; [|discriminate].
      simpl in Ew.
      destruct (String.eqb_spec (WorkflowStep.id x) (d_stepId req)) as [Exs|Exs].
      * assert (x = s) by (apply Hs; assumption). subst x x'. simpl.
        split; [intros _; exact Est|intros; lia].
      * subst x'.
        destruct (J3 w x Hinw Hp Hx Ew) as [Hlow Hcur].
        split; intros Ho.
        -- destruct (Z.eq_dec (WorkflowStep.stepOrder x) (WorkflowStep.stepOrder s)) as [E|E].
           ++ exfalso. apply Exs. rewrite <- Hid. f_equal.
              apply J0; try assumption. congruence.
           ++ apply Hlow. lia.
        -- apply (later_steps_pending d Hc x w); try assumption; [congruence|lia].
    + (* another workflow *)
      subst w'.
      destruct (String.eqb_spec (WorkflowStep.id x) (d_stepId req)) as [Exs|Exs].
      * exfalso. assert (x = s) by (apply Hs; assumption). subst x x'.
        simpl in Ew. congruence.
      * subst x'. apply J3; assumption.
Qed.

Lemma truthy_verdict (req : DecideRequest) v :
  verdict req -> truthy (d_status req) = Some v ->
  (v = "APPROVED" /\ StepStatus.of_string v = Some StepStatus.APPROVED) \/
  (v = "REJECTED" /\ StepStatus.of_string v = Some StepStatus.REJECTED).
Proof.
  intros [E|E] H; rewrite E in H; inversion H; subst v; auto.
Qed.

Lemma in_order_decideStep env req d :
  no_faults env -> verdict req ->
  consistent d -> in_order d -> in_order (snd (run (decideStep req) env d)).
Proof.
  intros Hnf Hv Hc Ho.
  destruct (decideStep_cases env d req)
    as [(r & E & _)|(a & v & s & w & Hf & Hact & _ & E)]; rewrite E; [exact Ho|].
  assert (Htr : truthy (d_status req) = Some v) by apply Hf.
  destruct (truthy_verdict req v Hv Htr) as [[Ev Est]|[Ev Est]].
  - rewrite (decided_both_written env d req a v StepStatus.APPROVED s w Est
               (verdict_has_keys v s w _ (or_introl Ev)) (Hnf _) (Hnf _)).
    apply in_order_decided with (a := a); auto.
  - rewrite (decided_both_written env d req a v StepStatus.REJECTED s w Est
               (verdict_has_keys v s w _ (or_intror Ev)) (Hnf _) (Hnf _)).
    apply in_order_decided with (a := a); auto.
Qed.

Lemma orderly_reachable d : orderly d -> reachable d.
Proof. induction 1; constructor; assumption. Qed.

Lemma orderly_in_order d : orderly d -> in_order d.
Proof.
  induction 1 as [|env req d Hd IH|env req d Hnf Hv Hd IH|env req d Hd IH].
  - exact in_order_empty.
  - apply in_order_create; [|exact IH].
    apply reachable_consistent, orderly_reachable. exact Hd.
  - apply in_order_decideStep; try assumption.
    apply reachable_consistent, orderly_reachable. exact Hd.
  - apply in_order_cancel. exact IH.
Qed.

(** The first half of C3 holds on the code: while a workflow is PENDING or
    IN_PROGRESS, its [currentStep] is the lowest [stepOrder] among its steps
    that are PENDING or IN_PROGRESS, when decisions carry APPROVED or
    REJECTED and their persistence calls go through. *)
Lemma currentStep_lowest_outstanding d w :
  orderly d ->
  In w (approvalWorkflow d) ->
  live (ApprovalWorkflow.status w) ->
  (exists s, In s (workflowStep d) /\
             WorkflowStep.workflowId s = ApprovalWorkflow.id w /\
             WorkflowStep.stepOrder s = ApprovalWorkflow.currentStep w /\
             outstanding (WorkflowStep.status s)) /\
  (forall s, In s (workflowStep d) ->
             WorkflowStep.workflowId s = ApprovalWorkflow.id w ->
             outstanding (WorkflowStep.status s) ->
             ApprovalWorkflow.currentStep w <= WorkflowStep.stepOrder s).
Proof.
  intros Hd Hw Hlive.
  pose proof (reachable_consistent d (orderly_reachable d Hd)) as Hc.
  pose proof (orderly_in_order d Hd) as Ho.
  assert (Hp : ApprovalWorkflow.status w = WorkflowStatus.PENDING).
  { destruct Hlive as [E|E]; [exact E|]. exfalso. exact (never_in_progress d Ho w Hw E). }
  split.
  - destruct (every_order d Ho w (ApprovalWorkflow.currentStep w) Hw
                (currentStep_range d Hc w Hw)) as [s [Hs [Esw Eso]]].
    exists s. repeat split; try assumption.
    left. apply (pending_prefix d Ho w s Hw Hp Hs Esw). exact Eso.
  - intros s Hs Esw Hout.
    destruct (Z.lt_ge_cases (WorkflowStep.stepOrder s) (ApprovalWorkflow.currentStep w))
      as [Hlt|Hge]; [exfalso|exact Hge].
    destruct (pending_prefix d Ho w s Hw Hp Hs Esw) as [Hlow _].
    specialize (Hlow Hlt). destruct Hout as [E|E]; congruence.
Qed.

End ApprovalsFacts.

(** ** Batch processing *)

Module BulkFacts.
Import Prisma Bulk BulkSpec.

(** What one turn of the loop does to the database: the booking and
    customer tables are not touched; either the item is written once, with
    a status that is not PENDING, or the turn throws and the item table is
    as before, which takes a rejected call or an item that is gone. *)
Lemma process_item_spec b item env w :
  customer (db (snd (process_item b item env w))) = customer (db w) /\
  bulkBooking (db (snd (process_item b item env w))) = bulkBooking (db w) /\
  ((exists u,
       id_status u <> BulkItemStatus.PENDING /\
       fst (process_item b item env w) = Ok tt /\
       has_item (BulkBookingItem.id item) (db w) = true /\
       bulkBookingItem (db (snd (process_item b item env w)))
       = update_where (item_is (BulkBookingItem.id item)) (set_item u)
           (bulkBookingItem (db w))) \/
   (exists e,
       fst (process_item b item env w) = Throw e /\
       bulkBookingItem (db (snd (process_item b item env w))) = bulkBookingItem (db w) /\
       (has_item (BulkBookingItem.id item) (db w) = false \/
        exists n, fault env n = true))).
Proof.
  unfold process_item, item_failed, try_catch, bind, Math_random_gt, new_Date, new_id,
    appointment_create, bulkBookingItem_update, call, bump, item_is.
  simpl.
  destruct (random env (tick w));
    repeat match goal with
           | |- context [fault env ?n] =>
               let E := fresh "F" in destruct (fault env n) eqn:E; simpl
           | |- context [if has_item ?i ?d then _ else _] =>
               let E := fresh "H" in destruct (has_item i d) eqn:E; simpl
           | |- context [if fresh_ids ?a ?b && fresh_ids ?c ?d then _ else _] =>
               destruct (fresh_ids a b && fresh_ids c d); simpl
           end;
    (split; [reflexivity|split; [reflexivity|]]);
    first
      [ left; eexists;
        split; [|split; [reflexivity|split; [first [reflexivity|eassumption]|reflexivity]]];
        simpl; discriminate
      | right; eexists; split; [reflexivity|split; [reflexivity|]];
        first [left; first [reflexivity|eassumption] | right; eexists; eassumption]
      | exfalso; simpl in *; congruence ].
Qed.

(** *** Item tables before and after a loop *)

Lemma touched_refl ids t : touched ids t t.
Proof.
  induction t; constructor; [|assumption]. repeat split. left. reflexivity.
Qed.

Lemma touched_update iid u t :
  id_status u <> BulkItemStatus.PENDING ->
  touched [iid] t (update_where (item_is iid) (set_item u) t).
Proof.
  intros Hu. induction t as [|r t IH]; simpl; constructor; [|exact IH].
  unfold item_is. destruct (String.eqb_spec (BulkBookingItem.id r) iid) as [E|E].
  - repeat split. right. split; [left; auto|exact Hu].
  - repeat split. left. reflexivity.
Qed.

Lemma settled_update iid u t :
  id_status u <> BulkItemStatus.PENDING ->
  settled [iid] (update_where (item_is iid) (set_item u) t).
Proof.
  intros Hu r Hr [E|[]]. apply in_update_where in Hr. destruct Hr as [r0 [_ Er]].
  subst r. unfold item_is in *.
  destruct (String.eqb_spec (BulkBookingItem.id r0) iid) as [E0|E0];
    [exact Hu|congruence].
Qed.

Lemma touched_trans ids1 ids2 t t1 t2 :
  touched ids1 t t1 -> touched ids2 t1 t2 -> touched (ids1 ++ ids2) t t2.
Proof.
  intros H1. revert t2. induction H1 as [|r r1 t t1 Hr _ IH]; intros t2 H2.
  - inversion H2. constructor.
  - inversion H2 as [|? r2 ? t2' Hr2 Ht2]; subst. constructor; [|apply IH; exact Ht2].
    destruct Hr as (Hi & Hb & Hs), Hr2 as (Hi2 & Hb2 & Hs2).
    repeat split; try congruence.
    destruct Hs2 as [E|[Hin Hst]].
    + subst r2. destruct Hs as [E|[Hin Hst]]; [left; exact E|right].
      split; [apply in_or_app; left; exact Hin|exact Hst].
    + right. split; [apply in_or_app; right; congruence|exact Hst].
Qed.

Lemma touched_In ids t t' r' :
  touched ids t t' -> In r' t' -> exists r, In r t /\ row_kept ids r r'.
Proof.
  induction 1 as [|r0 r0' t t' Hr _ IH]; simpl; intros Hin; [contradiction|].
  destruct Hin as [E|Hin].
  - subst. exists r0. auto.
  - destruct (IH Hin) as [r [Hr0 Hk]]. exists r. auto.
Qed.

Lemma settled_touched ids1 ids2 t1 t2 :
  settled ids1 t1 -> touched ids2 t1 t2 -> settled ids1 t2.
Proof.
  intros Hs Ht r2 Hr2 Hin.
  destruct (touched_In _ _ _ _ Ht Hr2) as [r1 [Hr1 (Hi & _ & [E|[_ Hst]])]].
  - subst r2. apply Hs; assumption.
  - exact Hst.
Qed.

Lemma touched_ids ids t t' :
  touched ids t t' -> map BulkBookingItem.id t' = map BulkBookingItem.id t.
Proof.
  induction 1 as [|r r' t t' (Hi & _) _ IH]; simpl; [reflexivity|].
  rewrite IH, Hi. reflexivity.
Qed.

Lemma has_item_ids iid d :
  has_item iid d = existsb (fun i => String.eqb i iid) (map BulkBookingItem.id (bulkBookingItem d)).
Proof.
  unfold has_item. induction (bulkBookingItem d) as [|r t IH]; simpl; [reflexivity|].
  rewrite IH. reflexivity.
Qed.

Lemma has_item_touched ids iid d d' :
  touched ids (bulkBookingItem d) (bulkBookingItem d') ->
  has_item iid d' = has_item iid d.
Proof.
  intros H. rewrite !has_item_ids, (touched_ids _ _ _ H). reflexivity.
Qed.

(** The whole loop: it writes only items of its list, and when it comes
    to its end every item of the list has left PENDING. *)
Lemma process_items_spec b items :
  forall env w,
    customer (db (snd (process_items b items env w))) = customer (db w) /\
    bulkBooking (db (snd (process_items b items env w))) = bulkBooking (db w) /\
    touched (map BulkBookingItem.id items) (bulkBookingItem (db w))
      (bulkBookingItem (db (snd (process_items b items env w)))) /\
    ((fst (process_items b items env w) = Ok tt /\
      settled (map BulkBookingItem.id items)
        (bulkBookingItem (db (snd (process_items b items env w))))) \/
     (exists e,
         fst (process_items b items env w) = Throw e /\
         ((exists i, In i items /\ has_item (BulkBookingItem.id i) (db w) = false) \/
          exists n, fault env n = true))).
Proof.
  induction items as [|item rest IH]; intros env w.
  - simpl. repeat split; [apply touched_refl|].
    left. split; [reflexivity|]. intros r _ [].
  - simpl process_items. unfold bind at 1 2 3 4 5 6.
    pose proof (process_item_spec b item env w) as (Hc & Hb & Hit).
    destruct (process_item b item env w) as [[[]|e] w1]; simpl in Hc, Hb, Hit.
    + destruct Hit as [(u & Hu & _ & Hhas & Ht)|(e & He & _)]; [|discriminate].
      specialize (IH env w1). destruct IH as (Hc' & Hb' & Ht' & Hres).
      assert (Ht1 : touched [BulkBookingItem.id item] (bulkBookingItem (db w))
                      (bulkBookingItem (db w1))).
      { rewrite Ht. apply touched_update. exact Hu. }
      split; [congruence|]. split; [congruence|].
      split; [exact (touched_trans _ _ _ _ _ Ht1 Ht')|].
      destruct Hres as [[Ho Hs]|(e & He & Hwhy)].
      * left. split; [exact Ho|].
        intros r Hr [E|Hin]; [|apply Hs; assumption].
        assert (Hs1 : settled [BulkBookingItem.id item] (bulkBookingItem (db w1))).
        { rewrite Ht. apply settled_update. exact Hu. }
        apply (settled_touched _ _ _ _ Hs1 Ht' r Hr). left. exact E.
      * right. exists e. split; [exact He|].
        destruct Hwhy as [(i & Hi & Hno)|Hf]; [left|right; exact Hf].
        exists i. split; [right; exact Hi|].
        rewrite <- (has_item_touched _ _ _ _ Ht1). exact Hno.
    + destruct Hit as [(u & _ & Ho & _)|(e' & _ & Ht & Hwhy)]; [discriminate|].
      simpl. split; [exact Hc|]. split; [exact Hb|].
      split; [rewrite Ht; apply touched_refl|].
      right. exists e. split; [reflexivity|].
      destruct Hwhy as [Hno|Hf]; [left|right; exact Hf].
      exists item. split; [left; reflexivity|exact Hno].
Qed.

(** *** The [try] block, statement by statement *)

Lemma find_booking_id bid d b :
  find_booking bid d = Some b -> BulkBooking.id b = bid /\ In b (bulkBooking d).
Proof. apply (find_first_key BulkBooking.id). Qed.

Lemma processaBulkBooking_try_ok bid env w w' :
  processaBulkBooking_try bid env w = (Ok true, w') ->
  exists b now,
    find_booking bid (db w) = Some b /\
    touched (pending_ids bid (db w)) (bulkBookingItem (db w)) (bulkBookingItem (db w')) /\
    settled (pending_ids bid (db w)) (bulkBookingItem (db w')) /\
    customer (db w') = customer (db w) /\
    bulkBooking (db w')
    = update_where (booking_is bid)
        (set_booking (recomputed bid (bulkBookingItem (db w')) now))
        (update_where (booking_is bid)
           (set_booking (status_only BulkBookingStatus.PROCESSING))
           (bulkBooking (db w))).
Proof.
  unfold processaBulkBooking_try. intros H.
  apply bind_ok in H. destruct H as (found & w1 & H1 & H).
  apply call_ok in H1. destruct H1 as (_ & H1 & _).
  inversion H1 as [[Hfound Hd1]]. clear H1.
  destruct (find_booking bid (db w)) as [b0|] eqn:Hb0; simpl in Hfound;
    subst found; [|discriminate].
  destruct (find_booking_id _ _ _ Hb0) as [Hid0 _]. rewrite Hid0 in H.
  apply bind_ok in H. destruct H as (u1 & w2 & H2 & H).
  apply call_ok in H2. destruct H2 as (_ & H2 & _). rewrite <- Hd1 in H2.
  rewrite Hb0 in H2. inversion H2 as [[Hu1 Hd2]]. clear H2.
  apply bind_ok in H. destruct H as ([] & w3 & H3 & H).
  pose proof (process_items_spec b0
                (filter (is_status BulkItemStatus.PENDING) (items_of bid (db w))) env w2)
    as (Hc3 & Hb3 & Ht3 & Hres).
  rewrite H3 in Hc3, Hb3, Ht3, Hres. simpl in Hc3, Hb3, Ht3, Hres.
  destruct Hres as [[_ Hs3]|(e & He & _)]; [|discriminate].
  apply bind_ok in H. destruct H as (updatedItems & w4 & H4 & H).
  apply call_ok in H4. destruct H4 as (_ & H4 & _).
  inversion H4 as [[Hitems Hd4]]. clear H4.
  unfold bind at 1, new_Date at 1 in H.
  apply bind_ok in H. destruct H as (u5 & w5 & H5 & H).
  apply call_ok in H5. destruct H5 as (_ & H5 & _).
  destruct (find_booking bid (db w4)) as [b4|]; [|discriminate].
  inversion H5 as [[Hu5 Hd5]]. clear H5.
  inversion H. subst w' updatedItems. clear H.
  exists b0, (clock env (tick w4)).
  rewrite <- Hd5, <- Hd4. simpl.
  rewrite <- Hd2 in Ht3, Hb3, Hc3. simpl in Ht3, Hb3, Hc3.
  repeat split; try assumption.
  rewrite Hb3. reflexivity.
Qed.

Lemma find_booking_updated bid u t b :
  find_first (booking_is bid) t = Some b ->
  find_first (booking_is bid) (update_where (booking_is bid) (set_booking u) t)
  = Some (set_booking u b).
Proof.
  intros Hb. unfold booking_is.
  rewrite (find_first_update BulkBooking.id) by reflexivity.
  unfold booking_is in Hb. rewrite Hb. simpl.
  apply (find_first_key BulkBooking.id) in Hb. destruct Hb as [E _].
  rewrite E, String.eqb_refl. reflexivity.
Qed.

(** Once the loop has come to its end, no item of the booking is PENDING. *)
Lemma settled_none_pending bid d t' :
  touched (pending_ids bid d) (bulkBookingItem d) t' ->
  settled (pending_ids bid d) t' ->
  forall i, In i (filter (of_booking bid) t') ->
            BulkBookingItem.status i <> BulkItemStatus.PENDING.
Proof.
  intros Ht Hs i Hi. apply filter_In in Hi. destruct Hi as [Hin Hof].
  destruct (touched_In _ _ _ _ Ht Hin) as [r [Hr (Hid & Hbid & [E|[_ Hst]])]];
    [|exact Hst].
  subst i. destruct (BulkBookingItem.status r) eqn:Est; try discriminate.
  exfalso. apply (Hs r Hin); [|exact Est].
  unfold pending_ids. apply in_map. apply filter_In. split.
  - unfold items_of. apply filter_In. split; [exact Hr|exact Hof].
  - unfold is_status. rewrite Est. reflexivity.
Qed.

Lemma touched_same_booking ids bid t t' :
  touched ids t t' ->
  List.length (filter (of_booking bid) t') = List.length (filter (of_booking bid) t).
Proof.
  induction 1 as [|r r' t t' (_ & Hb & _) _ IH]; simpl; [reflexivity|].
  assert (E : of_booking bid r' = of_booking bid r)
    by (unfold of_booking; rewrite Hb; reflexivity).
  rewrite E. destruct (of_booking bid r); simpl; rewrite IH; reflexivity.
Qed.

(** Without PENDING items, SUCCESS and FAILED items are all the items. *)
Lemma count_partition (l : list BulkBookingItem.t) :
  (forall i, In i l -> BulkBookingItem.status i <> BulkItemStatus.PENDING) ->
  count BulkItemStatus.SUCCESS l + count BulkItemStatus.FAILED l = len l.
Proof.
  unfold count, len. induction l as [|i l IH]; intros H; [reflexivity|].
  assert (Hl : forall j, In j l -> BulkBookingItem.status j <> BulkItemStatus.PENDING)
    by (intros j Hj; apply H; right; exact Hj).
  specialize (IH Hl). specialize (H i (or_introl eq_refl)).
  cbn [filter].
  destruct (BulkBookingItem.status i) eqn:Est; [congruence| |].
  - replace (is_status BulkItemStatus.SUCCESS i) with true
      by (unfold is_status; rewrite Est; reflexivity).
    replace (is_status BulkItemStatus.FAILED i) with false
      by (unfold is_status; rewrite Est; reflexivity).
    cbn [List.length]. rewrite Nat2Z.inj_succ. lia.
  - replace (is_status BulkItemStatus.SUCCESS i) with false
      by (unfold is_status; rewrite Est; reflexivity).
    replace (is_status BulkItemStatus.FAILED i) with true
      by (unfold is_status; rewrite Est; reflexivity).
    cbn [List.length]. rewrite Nat2Z.inj_succ. lia.
Qed.

Lemma count_all (st : BulkItemStatus.t) (l : list BulkBookingItem.t) :
  (count st l =? len l) = forallb (is_status st) l.
Proof.
  unfold count, len. induction l as [|i l IH]; [reflexivity|].
  cbn [filter forallb List.length]. destruct (is_status st i); cbn [andb List.length].
  - rewrite <- IH. rewrite !Nat2Z.inj_succ.
    destruct (Z.eqb_spec (Z.of_nat (List.length (filter (is_status st) l)))
                         (Z.of_nat (List.length l))) as [E|E].
    + apply Z.eqb_eq. lia.
    + apply Z.eqb_neq. lia.
  - apply Z.eqb_neq. pose proof (filter_length_le (is_status st) l).
    rewrite Nat2Z.inj_succ. lia.
Qed.

Lemma try_no_faults bid env w b :
  no_faults env ->
  find_booking bid (db w) = Some b ->
  exists w', processaBulkBooking_try bid env w = (Ok true, w').
Proof.
  intros Hnf Hb. destruct (find_booking_id _ _ _ Hb) as [Hid _].
  unfold processaBulkBooking_try, bind.
  unfold bulkBooking_findUnique_pending at 1.
  rewrite (@call_no_fault Db _ _ _ _ (Hnf _)).
  rewrite Hb. cbv beta iota delta [option_map].
  unfold bulkBooking_update at 1. rewrite (@call_no_fault Db _ _ _ _ (Hnf _)).
  simpl db. rewrite Hb. cbv iota beta. rewrite Hid.
  set (w2 := Build_World _ _ _).
  set (items := filter (is_status BulkItemStatus.PENDING) (items_of bid (db w))).
  pose proof (process_items_spec b items env w2) as (_ & Hb3 & Ht3 & Hres).
  destruct (process_items b items env w2) as [[[]|e] w3]; simpl in Hb3, Ht3, Hres.
  2:{ exfalso. destruct Hres as [[Ho _]|(e' & _ & [(i & Hi & Hno)|[n Hn]])];
        [discriminate| |rewrite Hnf in Hn; discriminate].
      unfold items in Hi. apply filter_In in Hi. destruct Hi as [Hi _].
      unfold items_of in Hi. apply filter_In in Hi. destruct Hi as [Hi _].
      unfold has_item, w2 in Hno. simpl in Hno.
      assert (Hyes : existsb (fun i0 => String.eqb (BulkBookingItem.id i0)
                                          (BulkBookingItem.id i))
                       (bulkBookingItem (db w)) = true).
      { apply existsb_exists. exists i. split; [exact Hi|apply String.eqb_refl]. }
      congruence. }
  unfold bulkBookingItem_findMany at 1. rewrite (@call_no_fault Db _ _ _ _ (Hnf _)).
  cbv iota beta. unfold new_Date at 1. cbv iota beta.
  unfold bulkBooking_update at 1. rewrite (@call_no_fault Db _ _ _ _ (Hnf _)).
  simpl db. unfold find_booking at 1. rewrite Hb3. unfold w2. simpl bulkBooking.
  fold (booking_is bid).
  rewrite (find_booking_updated bid _ _ b Hb). cbv iota beta.
  eexists. reflexivity.
Qed.

Lemma run_inv {A} (m : M Db A) env d o d' :
  run m env d = (o, d') ->
  exists w', m env (Build_World d 0 []) = (o, w') /\ db w' = d'.
Proof.
  unfold run. destruct (m env (Build_World d 0 [])) as [o0 w0].
  intros H. inversion H; subst. eauto.
Qed.

(** The booking record that the [try] block leaves when it comes to its
    end. *)
Lemma try_ok_booking bid env w w' :
  processaBulkBooking_try bid env w = (Ok true, w') ->
  exists b now,
    find_booking bid (db w) = Some b /\
    find_booking bid (db w')
    = Some (set_booking (recomputed bid (bulkBookingItem (db w')) now)
              (set_booking (status_only BulkBookingStatus.PROCESSING) b)) /\
    (forall i, In i (items_of bid (db w')) ->
               BulkBookingItem.status i <> BulkItemStatus.PENDING) /\
    len (items_of bid (db w')) = len (items_of bid (db w)).
Proof.
  intros H. destruct (processaBulkBooking_try_ok _ _ _ _ H)
    as (b & now & Hb & Ht & Hs & _ & Hbs).
  exists b, now. split; [exact Hb|]. split; [|split].
  - unfold find_booking. rewrite Hbs. fold (booking_is bid).
    apply find_booking_updated. apply find_booking_updated. exact Hb.
  - exact (settled_none_pending bid (db w) _ Ht Hs).
  - unfold len, items_of. fold (of_booking bid).
    rewrite (touched_same_booking _ bid _ _ Ht). reflexivity.
Qed.

(** C2. When [processaBulkBooking] comes to the end of its [try] block,
    no item of the booking is PENDING, [successfulItems] and [failedItems]
    are the numbers of SUCCESS and FAILED items among all the items of the
    booking, the status is FAILED when every item is FAILED and COMPLETED
    otherwise, and [completedAt] is set. When no persistence call rejects
    and the booking exists, the block does come to its end. *)
Theorem processBatch_recomputes bid env d :
  (forall d',
      run (processaBulkBooking_try bid) env d = (Ok true, d') ->
      exists b,
        find_booking bid d' = Some b /\
        (forall i, In i (items_of bid d') ->
                   BulkBookingItem.status i <> BulkItemStatus.PENDING) /\
        BulkBooking.successfulItems b = count BulkItemStatus.SUCCESS (items_of bid d') /\
        BulkBooking.failedItems b = count BulkItemStatus.FAILED (items_of bid d') /\
        BulkBooking.status b
        = (if forallb (is_status BulkItemStatus.FAILED) (items_of bid d')
           then BulkBookingStatus.FAILED else BulkBookingStatus.COMPLETED) /\
        exists t, BulkBooking.completedAt b = Some t) /\
  (no_faults env ->
   (exists b, find_booking bid d = Some b) ->
   exists d',
     run (processaBulkBooking_try bid) env d = (Ok true, d') /\
     run (processaBulkBooking bid) env d = (Ok tt, d')).
Proof.
  split.
  - intros d' H. apply run_inv in H. destruct H as (w' & H & Hd'). subst d'.
    destruct (try_ok_booking _ _ _ _ H) as (b & now & _ & Hb' & Hnone & _).
    eexists. split; [exact Hb'|]. split; [exact Hnone|].
    simpl. repeat split.
    + unfold finalStatus. rewrite count_all. reflexivity.
    + eexists. reflexivity.
  - intros Hnf [b Hb].
    destruct (try_no_faults bid env (Build_World d 0 []) b Hnf Hb) as [w' H].
    exists (db w'). unfold run, processaBulkBooking, try_catch.
    unfold bind at 1. rewrite H. auto.
Qed.

Lemma unlucky_no_faults k : no_faults (unlucky_at k).
Proof. intros n. reflexivity. Qed.

Lemma processBatch_recomputes_witness :
  (exists b,
      find_booking "id1" two_visits_processed = Some b /\
      (forall i, In i (items_of "id1" two_visits_processed) ->
                 BulkBookingItem.status i <> BulkItemStatus.PENDING) /\
      BulkBooking.successfulItems b
      = count BulkItemStatus.SUCCESS (items_of "id1" two_visits_processed) /\
      BulkBooking.failedItems b
      = count BulkItemStatus.FAILED (items_of "id1" two_visits_processed) /\
      BulkBooking.status b
      = (if forallb (is_status BulkItemStatus.FAILED)
              (items_of "id1" two_visits_processed)
         then BulkBookingStatus.FAILED else BulkBookingStatus.COMPLETED) /\
      exists t, BulkBooking.completedAt b = Some t) /\
  (exists d',
      run (processaBulkBooking_try "id1") (unlucky_at 6) two_visits_pending
      = (Ok true, d') /\
      run (processaBulkBooking "id1") (unlucky_at 6) two_visits_pending = (Ok tt, d')).
Proof.
  split.
  - apply (proj1 (processBatch_recomputes "id1" (unlucky_at 6) two_visits_pending)).
    vm_compute. reflexivity.
  - apply (proj2 (processBatch_recomputes "id1" (unlucky_at 6) two_visits_pending)).
    + apply unlucky_no_faults.
    + eexists. vm_compute. reflexivity.
Defined.

(** Mixed results: one SUCCESS and one FAILED item give COMPLETED with the
    counters 1 and 1. *)
Example two_visits_mixed :
  map (fun b => (BulkBooking.status b, BulkBooking.successfulItems b,
                 BulkBooking.failedItems b, BulkBooking.totalItems b))
      (bulkBooking two_visits_done)
  = [(BulkBookingStatus.COMPLETED, 1, 1, 2)] /\
  map BulkBookingItem.status (bulkBookingItem two_visits_done)
  = [BulkItemStatus.SUCCESS; BulkItemStatus.FAILED].
Proof. vm_compute. split; reflexivity. Qed.

(** *** A booking with nothing left to do *)

Lemma none_pending_filter (l : list BulkBookingItem.t) :
  (forall i, In i l -> BulkBookingItem.status i <> BulkItemStatus.PENDING) ->
  filter (is_status BulkItemStatus.PENDING) l = [].
Proof.
  induction l as [|i l IH]; intros H; [reflexivity|].
  simpl. unfold is_status at 1.
  destruct (BulkBookingItem.status i) eqn:E.
  - exfalso. apply (H i); [left; reflexivity|exact E].
  - apply IH. intros j Hj. apply H. right. exact Hj.
  - apply IH. intros j Hj. apply H. right. exact Hj.
Qed.

Lemma try_nothing_pending bid env w b :
  no_faults env ->
  find_booking bid (db w) = Some b ->
  (forall i, In i (items_of bid (db w)) ->
             BulkBookingItem.status i <> BulkItemStatus.PENDING) ->
  processaBulkBooking_try bid env w
  = (Ok true,
     Build_World
       (with_bookings
          (update_where (booking_is bid)
             (set_booking (recomputed bid (bulkBookingItem (db w))
                             (clock env (S (S (S (tick w)))))))
             (update_where (booking_is bid)
                (set_booking (status_only BulkBookingStatus.PROCESSING))
                (bulkBooking (db w))))
          (db w))
       (S (S (S (S (tick w)))))
       (started w)).
Proof.
  intros Hnf Hb Hnone. destruct (find_booking_id _ _ _ Hb) as [Hid _].
  unfold processaBulkBooking_try, bind.
  unfold bulkBooking_findUnique_pending at 1.
  rewrite (@call_no_fault Db _ _ _ _ (Hnf _)).
  rewrite Hb. cbv beta iota delta [option_map].
  unfold bulkBooking_update at 1. rewrite (@call_no_fault Db _ _ _ _ (Hnf _)).
  simpl db. rewrite Hb. cbv iota beta. rewrite Hid.
  rewrite (none_pending_filter _ Hnone). simpl process_items. unfold ret at 1.
  unfold bulkBookingItem_findMany at 1. rewrite (@call_no_fault Db _ _ _ _ (Hnf _)).
  cbv iota beta. unfold new_Date at 1. cbv iota beta.
  unfold bulkBooking_update at 1. rewrite (@call_no_fault Db _ _ _ _ (Hnf _)).
  simpl db. unfold find_booking at 1. simpl bulkBooking.
  fold (booking_is bid).
  rewrite (find_booking_updated bid _ _ b Hb). cbv iota beta.
  reflexivity.
Qed.

(** C7, as the code has it. On a booking without PENDING items and with
    no call rejected, [processaBulkBooking] writes no item and no
    appointment; it sets the counters to the numbers of SUCCESS and FAILED
    items and the status to FAILED or COMPLETED by the items, which leaves
    them as they are when they were so already, and it overwrites
    [completedAt] with the time of the run. *)
Theorem processBatch_nothing_pending bid env d b :
  no_faults env ->
  find_booking bid d = Some b ->
  (forall i, In i (items_of bid d) ->
             BulkBookingItem.status i <> BulkItemStatus.PENDING) ->
  bulkBookingItem (snd (run (processaBulkBooking bid) env d)) = bulkBookingItem d /\
  appointment (snd (run (processaBulkBooking bid) env d)) = appointment d /\
  exists b',
    find_booking bid (snd (run (processaBulkBooking bid) env d)) = Some b' /\
    BulkBooking.successfulItems b' = count BulkItemStatus.SUCCESS (items_of bid d) /\
    BulkBooking.failedItems b' = count BulkItemStatus.FAILED (items_of bid d) /\
    BulkBooking.status b'
    = finalStatus (count BulkItemStatus.FAILED (items_of bid d)) (len (items_of bid d)) /\
    BulkBooking.completedAt b' = Some (clock env 3) /\
    (BulkBooking.successfulItems b = count BulkItemStatus.SUCCESS (items_of bid d) ->
     BulkBooking.failedItems b = count BulkItemStatus.FAILED (items_of bid d) ->
     BulkBooking.status b
     = finalStatus (count BulkItemStatus.FAILED (items_of bid d)) (len (items_of bid d)) ->
     BulkBooking.successfulItems b' = BulkBooking.successfulItems b /\
     BulkBooking.failedItems b' = BulkBooking.failedItems b /\
     BulkBooking.status b' = BulkBooking.status b).
Proof.
  intros Hnf Hb Hnone.
  pose proof (try_nothing_pending bid env (Build_World d 0 []) b Hnf Hb Hnone) as Htry.
  assert (E : run (processaBulkBooking bid) env d
              = (Ok tt, db (snd (processaBulkBooking_try bid env (Build_World d 0 []))))).
  { unfold run, processaBulkBooking, try_catch. unfold bind at 1.
    rewrite Htry. reflexivity. }
  rewrite E, Htry. clear E Htry.
  simpl. repeat split.
  eexists. split.
  - unfold find_booking. simpl. fold (booking_is bid).
    apply find_booking_updated. apply find_booking_updated. exact Hb.
  - simpl. repeat split; symmetry; assumption.
Qed.

Lemma processBatch_nothing_pending_witness :
  bulkBookingItem (snd (run (processaBulkBooking "id1") (unlucky_at 0) two_visits_done))
  = bulkBookingItem two_visits_done /\
  appointment (snd (run (processaBulkBooking "id1") (unlucky_at 0) two_visits_done))
  = appointment two_visits_done /\
  exists b',
    find_booking "id1" (snd (run (processaBulkBooking "id1") (unlucky_at 0) two_visits_done))
    = Some b' /\
    BulkBooking.successfulItems b' = 1 /\
    BulkBooking.failedItems b' = 1 /\
    BulkBooking.status b' = BulkBookingStatus.COMPLETED /\
    BulkBooking.completedAt b' = Some 1003 /\
    (1 = 1 -> 1 = 1 -> BulkBookingStatus.COMPLETED = BulkBookingStatus.COMPLETED ->
     BulkBooking.successfulItems b' = 1 /\
     BulkBooking.failedItems b' = 1 /\
     BulkBooking.status b' = BulkBookingStatus.COMPLETED).
Proof.
  refine (processBatch_nothing_pending "id1" (unlucky_at 0) two_visits_done
            done_booking (unlucky_no_faults 0) eq_refl _).
  simpl. intros i [E|[E|[]]]; subst i; discriminate.
Defined.

(** C7, counterexample. The COMPLETED booking [id1] has no PENDING item
    and [completedAt] 1009. A retry request that names no item writes
    nothing and starts [processaBulkBooking] on it; that run leaves 1003,
    the time of the run. A cancelled booking without PENDING items does
    not even keep its status: the run makes it FAILED, its one item being
    FAILED. *)
Lemma processBatch_overwrites_completedAt :
  filter (is_status BulkItemStatus.PENDING) (items_of "id1" two_visits_done) = [] /\
  option_map BulkBooking.completedAt (find_booking "id1" two_visits_done)
  = Some (Some 1009) /\
  (let again := {| r_agent := Some "agent-7"; r_id := "id1"; r_itemIds := Some [] |} in
   run (retry again) (unlucky_at 0) two_visits_done
   = (Ok (json 200 (message "Retry initiated successfully")), two_visits_done) /\
   launched (retry again) (unlucky_at 0) two_visits_done
   = [("processaBulkBooking", "id1")]) /\
  option_map BulkBooking.completedAt
    (find_booking "id1"
       (snd (run (processaBulkBooking "id1") (unlucky_at 0) two_visits_done)))
  = Some (Some 1003) /\
  let cancelled :=
    snd (run (cancel {| x_agent := Some "agent-7"; x_id := "id1"; x_reason := None |})
             (unlucky_at 0)
             (snd (run (processaBulkBooking "id1") (unlucky_at 2)
                       (snd (run (submit (visits 1)) (unlucky_at 0) clinic))))) in
  filter (is_status BulkItemStatus.PENDING) (items_of "id1" cancelled) = [] /\
  option_map BulkBooking.status (find_booking "id1" cancelled)
  = Some BulkBookingStatus.CANCELLED /\
  option_map BulkBooking.status
    (find_booking "id1" (snd (run (processaBulkBooking "id1") (unlucky_at 0) cancelled)))
  = Some BulkBookingStatus.FAILED.
Proof. vm_compute. repeat split. Qed.

(** *** Submission *)

(** An empty list of appointments is refused with 400 (401 without
    caller) and no row is written. *)
Lemma submit_empty env d req :
  s_appointments req = Some [] ->
  exists r, run (submit req) env d = (Ok r, d) /\ (code r = 400 \/ code r = 401).
Proof.
  intros He. unfold run, submit, try_catch. rewrite He.
  destruct (truthy (s_agent req)); [|eexists; split; [reflexivity|right; reflexivity]].
  destruct (truthy (s_customerId req)), (truthy (s_batchName req));
    eexists; (split; [reflexivity|left; reflexivity]).
Qed.

(** A customer that does not exist or belongs to another agent is refused
    with 404 and no row is written. *)
Lemma submit_foreign_customer env d req a c n apts :
  truthy (s_agent req) = Some a ->
  truthy (s_customerId req) = Some c ->
  truthy (s_batchName req) = Some n ->
  s_appointments req = Some apts ->
  apts <> [] ->
  find_first (fun x => String.eqb (Customer.id x) c && String.eqb (Customer.agentId x) a)
    (customer d) = None ->
  exists r, run (submit req) env d = (Ok r, d) /\ (code r = 404 \/ code r = 500) /\
            (fault env 0 = false -> code r = 404).
Proof.
  intros Ha Hc Hn Hap Hne Hnone.
  unfold run, submit, try_catch. rewrite Ha, Hc, Hn, Hap.
  assert (E : (len apts =? 0) = false).
  { apply Z.eqb_neq. unfold len. destruct apts; [congruence|]. simpl. lia. }
  rewrite E. unfold bind at 1, customer_findFirst, call. simpl.
  destruct (fault env 0).
  - eexists. split; [reflexivity|]. split; [right; reflexivity|discriminate].
  - rewrite Hnone. eexists. split; [reflexivity|]. split; [left; reflexivity|reflexivity].
Qed.

(** C10, the code at the failing input. Eleven appointments for a
    customer of the caller: the rule of [validateBulkAppointmentBooking]
    refuses them, but the router does not apply it; it answers 201 and
    writes a booking with [totalItems] 11 and its eleven items. *)
Theorem submit_accepts_eleven :
  validateBulkAppointmentBooking_isArray (s_appointments (visits 11)) = false /\
  answer (fst (run (submit (visits 11)) (unlucky_at 0) clinic)) = Some 201 /\
  map BulkBooking.totalItems
    (bulkBooking (snd (run (submit (visits 11)) (unlucky_at 0) clinic))) = [11] /\
  len (bulkBookingItem (snd (run (submit (visits 11)) (unlucky_at 0) clinic))) = 11.
Proof. vm_compute. repeat split. Qed.

(** *** Bookings that the handlers produce, whichever calls reject *)

Lemma touched_same_rows ids t t' : touched ids t t' -> same_rows t t'.
Proof.
  induction 1 as [|r r' t t' (Hi & Hb & _) _ IH]; constructor; auto.
Qed.

Lemma update_same_rows (p : BulkBookingItem.t -> bool) u t :
  same_rows t (update_where p (set_item u) t).
Proof.
  induction t as [|r t IH]; simpl; constructor; [|exact IH].
  destruct (p r); auto.
Qed.

Lemma same_rows_In t t' r' :
  same_rows t t' -> In r' t' ->
  exists r, In r t /\
            BulkBookingItem.bulkBookingId r' = BulkBookingItem.bulkBookingId r.
Proof.
  induction 1 as [|r0 r0' t t' (_ & Hb) _ IH]; simpl; intros Hin; [contradiction|].
  destruct Hin as [E|Hin].
  - subst. exists r0. auto.
  - destruct (IH Hin) as [r [Hr Hk]]. exists r. auto.
Qed.

Lemma same_rows_count bid t t' :
  same_rows t t' ->
  List.length (filter (of_booking bid) t') = List.length (filter (of_booking bid) t).
Proof.
  induction 1 as [|r r' t t' (_ & Hb) _ IH]; simpl; [reflexivity|].
  assert (E : of_booking bid r' = of_booking bid r)
    by (unfold of_booking; rewrite Hb; reflexivity).
  rewrite E. destruct (of_booking bid r); simpl; rewrite IH; reflexivity.
Qed.

Lemma stays_sound_preorder : Keeping.preorder stays_sound.
Proof. split; unfold stays_sound; auto. Qed.

Lemma sound_items d d' :
  bulkBooking d' = bulkBooking d ->
  same_rows (bulkBookingItem d) (bulkBookingItem d') ->
  stays_sound d d'.
Proof.
  intros Hb Hrows [Hfk Htot Hsum]. constructor.
  - intros i Hi. destruct (same_rows_In _ _ _ Hrows Hi) as [r [Hr E]].
    destruct (Hfk r Hr) as [b [Hin Hid]]. exists b. rewrite Hb, E. auto.
  - intros b Hin. rewrite Hb in Hin. rewrite <- (Htot b Hin).
    unfold len, items_of. fold (of_booking (BulkBooking.id b)).
    rewrite (same_rows_count _ _ _ Hrows). reflexivity.
  - intros b Hin. rewrite Hb in Hin. apply Hsum. exact Hin.
Qed.

Lemma sound_same d d' :
  bulkBooking d' = bulkBooking d -> bulkBookingItem d' = bulkBookingItem d ->
  stays_sound d d'.
Proof.
  intros Hb Hi. apply sound_items; [exact Hb|]. rewrite Hi.
  generalize (bulkBookingItem d). induction l; constructor; auto.
Qed.

Lemma sound_bookings d d' bid u :
  sound d ->
  bulkBookingItem d' = bulkBookingItem d ->
  bulkBooking d' = update_where (booking_is bid) (set_booking u) (bulkBooking d) ->
  (forall b, In b (bulkBooking d) -> BulkBooking.id b = bid ->
     counted b -> counted (set_booking u b)) ->
  sound d'.
Proof.
  intros [Hfk Htot Hsum] Hit Hb Hu. constructor.
  - intros i Hi. rewrite Hit in Hi. destruct (Hfk i Hi) as [b [Hin Hid]].
    exists (if booking_is bid b then set_booking u b else b). split.
    + rewrite Hb. unfold update_where. apply in_map_iff. exists b. auto.
    + destruct (booking_is bid b); simpl; exact Hid.
  - intros b' Hin. rewrite Hb in Hin. apply in_update_where in Hin.
    destruct Hin as [b [Hin E]].
    assert (Hid : BulkBooking.id b' = BulkBooking.id b)
      by (subst b'; destruct (booking_is bid b); reflexivity).
    assert (Ht : BulkBooking.totalItems b' = BulkBooking.totalItems b)
      by (subst b'; destruct (booking_is bid b); reflexivity).
    rewrite Hid, Ht, <- (Htot b Hin). unfold items_of. rewrite Hit. reflexivity.
  - intros b' Hin. rewrite Hb in Hin. apply in_update_where in Hin.
    destruct Hin as [b [Hin E]]. unfold booking_is in E.
    destruct (String.eqb_spec (BulkBooking.id b) bid) as [Eb|Eb]; subst b'.
    + apply Hu; auto.
    + apply Hsum; assumption.
Qed.

(** An update that writes no counter and does not complete the booking
    leaves the counters as they count. *)
Lemma counted_set_booking u b :
  bd_successfulItems u = None -> bd_failedItems u = None ->
  bd_status u <> Some BulkBookingStatus.COMPLETED ->
  counted b -> counted (set_booking u b).
Proof.
  intros Hs Hf Hst [H|(H1 & H2 & H3)]; unfold counted; simpl; rewrite Hs, Hf; simpl.
  - left. exact H.
  - right. split; [exact H1|]. split; [exact H2|].
    destruct (bd_status u) as [st|]; simpl; [congruence|exact H3].
Qed.

(** What [prisma.bulkBooking.update] does to the tables, returning or not. *)
Lemma bulkBooking_update_effect bid u env w :
  customer (db (snd (bulkBooking_update bid u env w))) = customer (db w) /\
  bulkBookingItem (db (snd (bulkBooking_update bid u env w))) = bulkBookingItem (db w) /\
  appointment (db (snd (bulkBooking_update bid u env w))) = appointment (db w) /\
  (bulkBooking (db (snd (bulkBooking_update bid u env w))) = bulkBooking (db w) \/
   bulkBooking (db (snd (bulkBooking_update bid u env w)))
   = update_where (fun r => String.eqb (BulkBooking.id r) bid) (set_booking u)
       (bulkBooking (db w))).
Proof.
  unfold bulkBooking_update, call.
  destruct (fault env (tick w)); [simpl; auto|].
  destruct (find_booking bid (db w)); simpl; auto.
Qed.

Lemma sound_bulkBooking_update bid u :
  bd_successfulItems u = None -> bd_failedItems u = None ->
  bd_status u <> Some BulkBookingStatus.COMPLETED ->
  Keeping.keeps stays_sound (bulkBooking_update bid u).
Proof.
  intros Hs Hf Hst env w Hsound.
  destruct (bulkBooking_update_effect bid u env w) as (_ & Hi & _ & [Hb|Hb]).
  - apply (sound_same (db w)); assumption.
  - apply (sound_bookings (db w) _ bid u Hsound Hi Hb).
    intros b _ _. apply counted_set_booking; assumption.
Qed.

(** A call that only reads. *)
Lemma sound_read {A} (q : Db -> A) :
  Keeping.keeps stays_sound (call (fun d => Ok (q d, d))).
Proof.
  apply (keeps_call _ stays_sound_preorder). intros d a d' H. inversion H.
  apply stays_sound_preorder.
Qed.

Lemma sound_resetFailed ids : Keeping.keeps stays_sound (bulkBookingItem_resetFailed ids).
Proof.
  apply (keeps_call _ stays_sound_preorder). intros d a d' H. inversion H.
  apply sound_items; [reflexivity|]. apply update_same_rows.
Qed.

Lemma sound_bulkBookingItem_update iid u :
  Keeping.keeps stays_sound (bulkBookingItem_update iid u).
Proof.
  apply (keeps_call _ stays_sound_preorder). intros d a d' H.
  destruct (has_item iid d); inversion H.
  apply sound_items; [reflexivity|]. apply update_same_rows.
Qed.

Lemma sound_appointment_create a : Keeping.keeps stays_sound (appointment_create a).
Proof.
  apply (keeps_call _ stays_sound_preorder). intros d x d' H.
  destruct (_ && _); inversion H. apply sound_same; reflexivity.
Qed.

Lemma item_rows_shape bid c (ps : list (string * AppointmentInput)) rows :
  all_rows (mapi (item_row bid c) ps) = Some rows ->
  Forall2 (fun (p : string * AppointmentInput) x =>
             BulkBookingItem.bulkBookingId x = bid) ps rows.
Proof.
  apply all_rows_mapi. intros i [iid apt] y. unfold item_row.
  destruct (in_appointmentDate apt), (in_doctorId apt), (in_hospitalId apt);
    try discriminate.
  intros H. inversion H; subst. reflexivity.
Qed.

Lemma created_sound d b rows :
  sound d ->
  ~ In (BulkBooking.id b) (map BulkBooking.id (bulkBooking d)) ->
  BulkBooking.totalItems b = len rows ->
  counted b ->
  (forall x, In x rows -> BulkBookingItem.bulkBookingId x = BulkBooking.id b) ->
  sound (with_items (bulkBookingItem d ++ rows) (with_bookings (bulkBooking d ++ [b]) d)).
Proof.
  intros [Hfk Htot Hsum] Hfresh Hlen Hst Hrows. constructor; simpl.
  - intros i Hi. apply in_app_or in Hi. destruct Hi as [Hi|Hi].
    + destruct (Hfk i Hi) as [b0 [Hin Hid]]. exists b0. split; [|exact Hid].
      apply in_or_app. left. exact Hin.
    + exists b. split; [apply in_or_app; right; left; reflexivity|].
      symmetry. apply Hrows. exact Hi.
  - intros b0 Hin. unfold items_of. simpl. rewrite filter_app.
    apply in_app_or in Hin. destruct Hin as [Hin|[E|[]]].
    + rewrite (filter_none _ rows).
      * rewrite app_nil_r. apply (Htot b0 Hin).
      * intros x Hx. apply String.eqb_neq. rewrite (Hrows x Hx).
        intros E. apply Hfresh. rewrite E. apply in_map. exact Hin.
    + subst b0. rewrite (filter_none _ (bulkBookingItem d)).
      * simpl. rewrite (filter_all _ rows); [symmetry; exact Hlen|].
        intros x Hx. apply String.eqb_eq. apply Hrows. exact Hx.
      * intros x Hx. apply String.eqb_neq. intros E.
        destruct (Hfk x Hx) as [b0 [Hin Hid]].
        apply Hfresh. rewrite <- E, <- Hid. apply in_map. exact Hin.
  - intros b0 Hin. apply in_app_or in Hin. destruct Hin as [Hin|[E|[]]].
    + apply Hsum; assumption.
    + subst b0. exact Hst.
Qed.

Lemma sound_bulkBooking_create bid iids number a c name description0 apts :
  List.length iids = List.length apts ->
  Keeping.keeps stays_sound (bulkBooking_create bid iids number a c name description0 apts).
Proof.
  intros Hlen env w. unfold bulkBooking_create.
  apply (fun f H => keeps_call stays_sound stays_sound_preorder f H env w).
  intros d x d' H.
  destruct (all_rows _) as [rows|] eqn:Hrows; [|discriminate].
  destruct (fresh_ids [bid] _) eqn:Hf1; [|discriminate].
  destruct (fresh_ids [number] _); [|discriminate].
  destruct (fresh_ids iids _); [|discriminate].
  simpl in H. inversion H. clear H. intros Hs.
  apply fresh_ids_spec in Hf1. destruct Hf1 as [_ Hf1].
  apply item_rows_shape in Hrows.
  apply created_sound; try assumption.
  - simpl. apply Hf1. left. reflexivity.
  - simpl. unfold len. rewrite (Forall2_length_eq _ _ _ Hrows), length_combine.
    rewrite Hlen, Nat.min_id. reflexivity.
  - right. simpl. repeat split. discriminate.
  - simpl. apply (Forall2_right _ _ _ _) with (2 := Hrows). auto.
Qed.

Ltac sounding :=
  repeat first
    [ apply (keeps_ret _ stays_sound_preorder)
    | apply (keeps_new_Date _ stays_sound_preorder)
    | apply (keeps_new_id _ stays_sound_preorder)
    | apply (keeps_Math_random_gt _ stays_sound_preorder)
    | apply (keeps_detached _ stays_sound_preorder)
    | apply sound_read
    | apply sound_resetFailed
    | apply sound_bulkBookingItem_update
    | apply sound_appointment_create
    | apply sound_bulkBooking_update; [reflexivity|reflexivity|discriminate]
    | apply (keeps_try_catch _ stays_sound_preorder); [|intros ?]
    | apply (keeps_bind _ stays_sound_preorder); [|intros ?]
    | match goal with
      | |- Keeping.keeps _ (match ?x with _ => _ end) => destruct x
      end ].

Lemma sound_cancel req : Keeping.keeps stays_sound (cancel req).
Proof.
  unfold cancel, internal_error, bulkBooking_findFirst. sounding.
Qed.

Lemma sound_retry req : Keeping.keeps stays_sound (retry req).
Proof.
  unfold retry, internal_error, bulkBooking_findFirst. sounding.
Qed.

Lemma sound_submit req : Keeping.keeps stays_sound (submit req).
Proof.
  unfold submit, internal_error, customer_findFirst.
  apply (keeps_try_catch _ stays_sound_preorder); [|intros e; sounding].
  destruct (truthy (s_agent req)) as [a|]; [|sounding].
  destruct (truthy (s_customerId req)) as [cid|]; [|sounding].
  destruct (truthy (s_batchName req)) as [name|]; [|sounding].
  destruct (s_appointments req) as [apts|]; [|sounding].
  destruct (len apts =? 0); [sounding|].
  apply (keeps_bind _ stays_sound_preorder); [sounding|]. intros found.
  destruct found as [c|]; [|sounding].
  apply (keeps_bind _ stays_sound_preorder); [sounding|]. intros stamp.
  apply (keeps_bind _ stays_sound_preorder); [sounding|]. intros bid.
  intros env w.
  unfold bind at 1.
  destruct (new_ids_run apts env w) as (iids & w1 & Hids & Hdb & Hlen).
  rewrite Hids, <- Hdb.
  assert (H : Keeping.keeps stays_sound
                (created <- bulkBooking_create bid iids ("BULK-" ++ Number_toString stamp)
                              a c name (s_description req) apts ;;
                 detached "processaBulkBooking" (BulkBooking.id (fst created)) ;;
                 ret (json 201 (booking created)))).
  { apply (keeps_bind _ stays_sound_preorder);
      [apply sound_bulkBooking_create; exact Hlen|]. intros created. sounding. }
  apply H.
Qed.

Lemma sound_process_item b item : Keeping.keeps stays_sound (process_item b item).
Proof. unfold process_item, item_failed. sounding. Qed.

Lemma sound_process_items b items : Keeping.keeps stays_sound (process_items b items).
Proof.
  induction items as [|item rest IH]; simpl; [sounding|].
  apply (keeps_bind _ stays_sound_preorder); [apply sound_process_item|].
  intros _. exact IH.
Qed.

(** The [try] block: its last update writes counters that add up, since
    the loop has left no item of the booking PENDING. *)
Lemma sound_try bid : Keeping.keeps stays_sound (processaBulkBooking_try bid).
Proof.
  intros env w Hs. unfold processaBulkBooking_try.
  unfold bind at 1. unfold bulkBooking_findUnique_pending, call at 1.
  destruct (fault env (tick w)); [exact Hs|].
  destruct (find_booking bid (db w)) as [b|] eqn:Hb;
    cbv beta iota delta [option_map]; [|exact Hs].
  destruct (find_booking_id _ _ _ Hb) as [Hid _]. rewrite Hid.
  set (items := filter (is_status BulkItemStatus.PENDING) (items_of bid (db w))).
  set (w1 := Build_World (db w) (S (tick w)) (started w)).
  unfold bind at 1.
  pose proof (sound_bulkBooking_update bid (status_only BulkBookingStatus.PROCESSING)
                eq_refl eq_refl ltac:(discriminate) env w1 Hs) as Hs2.
  destruct (bulkBooking_update_effect bid (status_only BulkBookingStatus.PROCESSING) env w1)
    as (_ & Hi2 & _ & _).
  destruct (bulkBooking_update bid (status_only BulkBookingStatus.PROCESSING) env w1)
    as [[u2|e2] w2]; simpl in Hs2, Hi2 |- *; [|exact Hs2].
  unfold bind at 1.
  pose proof (process_items_spec b items env w2) as (_ & _ & Ht3 & Hres).
  pose proof (sound_process_items b items env w2 Hs2) as Hs3.
  destruct (process_items b items env w2) as [[[]|e3] w3];
    simpl in Hs3, Ht3, Hres |- *; [|exact Hs3].
  destruct Hres as [[_ Hset]|(e & He & _)]; [|discriminate].
  rewrite Hi2 in Ht3.
  unfold bind at 1. unfold bulkBookingItem_findMany, call at 1.
  destruct (fault env (tick w3)); [exact Hs3|]. simpl.
  unfold bind at 1, new_Date at 1. unfold bind at 1.
  match goal with
  | |- context [bulkBooking_update bid ?u env ?w4] =>
      destruct (bulkBooking_update_effect bid u env w4) as (_ & Hi5 & _ & [Hb5|Hb5]);
      destruct (bulkBooking_update bid u env w4) as [[u5|e5] w5];
      simpl in Hi5, Hb5 |- *
  end;
    try (apply (sound_same (db w3)); assumption);
    apply (sound_bookings (db w3) _ bid _ Hs3 Hi5 Hb5);
    intros b1 Hin Hid1 _; left; simpl;
    pose proof (count_partition (items_of bid (db w3))
                  (settled_none_pending bid (db w) _ Ht3 Hset)) as Hc;
    unfold count in Hc; rewrite Hc;
    rewrite <- (total_is_items _ Hs3 b1 Hin), Hid1; reflexivity.
Qed.

Lemma sound_process bid : Keeping.keeps stays_sound (processaBulkBooking bid).
Proof.
  unfold processaBulkBooking, processaBulkBooking_catch.
  apply (keeps_try_catch _ stays_sound_preorder).
  - apply (keeps_bind _ stays_sound_preorder); [apply sound_try|]. intros _. sounding.
  - intros e. sounding.
Qed.

Lemma process_after_try bid env w o w' :
  processaBulkBooking_try bid env w = (Ok o, w') ->
  processaBulkBooking bid env w = (Ok tt, w').
Proof.
  intros H. unfold processaBulkBooking, try_catch. unfold bind at 1.
  rewrite H. reflexivity.
Qed.

Lemma start_sound d : bulkBooking d = [] -> bulkBookingItem d = [] -> sound d.
Proof.
  intros Hb Hi. constructor; rewrite ?Hb, ?Hi; simpl; intros; contradiction.
Qed.

Theorem reachable_sound d : reachable d -> sound d.
Proof.
  induction 1 as [d Hb Hi|env req d _ IH|env req d _ IH|env req d _ IH|env bid d _ IH].
  - apply start_sound; assumption.
  - apply (keeps_run stays_sound _ env d (sound_submit req) IH).
  - apply (keeps_run stays_sound _ env d (sound_cancel req) IH).
  - apply (keeps_run stays_sound _ env d (sound_retry req) IH).
  - apply (keeps_run stays_sound _ env d (sound_process bid) IH).
Qed.

(** C6, as the code has it. Take the databases that come of invocations
    of the handlers and of runs of [processaBulkBooking] that do not
    overlap, whichever calls reject. There a COMPLETED booking has
    [successfulItems + failedItems = totalItems], and a FAILED booking has
    this sum or both counters 0: those that the creation wrote, when no
    run on the booking has come to its last update. *)
Theorem terminal_counters_add_up d b :
  reachable d ->
  In b (bulkBooking d) ->
  (BulkBooking.status b = BulkBookingStatus.COMPLETED ->
   BulkBooking.successfulItems b + BulkBooking.failedItems b = BulkBooking.totalItems b) /\
  (BulkBooking.status b = BulkBookingStatus.FAILED ->
   BulkBooking.successfulItems b + BulkBooking.failedItems b = BulkBooking.totalItems b \/
   (BulkBooking.successfulItems b = 0 /\ BulkBooking.failedItems b = 0)).
Proof.
  intros Hr Hin.
  destruct (counters d (reachable_sound d Hr) b Hin) as [H|(H1 & H2 & H3)].
  - split; intros _; auto.
  - split; [intros E; contradiction|intros _; right; auto].
Qed.

Lemma two_visits_done_reachable : reachable two_visits_done.
Proof.
  change two_visits_done
    with (snd (run (processaBulkBooking "id1") (unlucky_at 6)
                 (snd (run (submit (visits 2)) (unlucky_at 0) clinic)))).
  apply reach_process, reach_submit, reach_start; reflexivity.
Qed.

Lemma terminal_counters_add_up_witness :
  BulkBooking.successfulItems done_booking + BulkBooking.failedItems done_booking
  = BulkBooking.totalItems done_booking.
Proof.
  apply (proj1 (terminal_counters_add_up two_visits_done done_booking
                  two_visits_done_reachable (or_introl eq_refl))).
  reflexivity.
Defined.

(** C6, counterexample. Two visits are submitted and the handler answers
    201, having started [processaBulkBooking] on the new booking [id1]. In
    that run the update that sets the booking to PROCESSING rejects: the
    [catch] block marks the booking FAILED without recomputing the
    counters, which stay 0 and 0 for [totalItems] 2. *)
Lemma failed_booking_counters_stale :
  answer (fst (run (submit (visits 2)) (unlucky_at 0) clinic)) = Some 201 /\
  launched (submit (visits 2)) (unlucky_at 0) clinic = [("processaBulkBooking", "id1")] /\
  map (fun b => (BulkBooking.status b, BulkBooking.successfulItems b,
                 BulkBooking.failedItems b, BulkBooking.totalItems b))
      (bulkBooking
         (snd (run (processaBulkBooking "id1") (failing_at 1)
                 (snd (run (submit (visits 2)) (unlucky_at 0) clinic)))))
  = [(BulkBookingStatus.FAILED, 0, 0, 2)] /\
  0 + 0 <> 2.
Proof. vm_compute. repeat split; discriminate. Qed.

(** The two parts make the [try] block. *)
Lemma processaBulkBooking_try_parts bid env w :
  processaBulkBooking_try bid env w
  = (go <- processaBulkBooking_loop bid ;;
     if (go : bool) then processaBulkBooking_count bid else ret false) env w.
Proof.
  unfold processaBulkBooking_try, processaBulkBooking_loop, processaBulkBooking_count.
  unfold bind.
  destruct (bulkBooking_findUnique_pending bid env w) as [[[[b items]|]|e] w1];
    [|reflexivity|reflexivity].
  destruct (bulkBooking_update bid _ env w1) as [[u|e] w2]; [|reflexivity].
  destruct (process_items b items env w2) as [[[]|e] w3]; reflexivity.
Qed.

(** Runs that overlap can leave a COMPLETED booking whose counters do not
    add up, with no call rejected. A run of [processaBulkBooking] on the
    two PENDING visits has left its loop, the first visit FAILED and the
    second SUCCESS, when a retry request is served: the handler makes the
    first visit PENDING again. The run then counts one SUCCESS and no
    FAILED item and marks the booking COMPLETED, 1 and 0 for [totalItems]
    2. *)
Example overlapping_retry_counters_stale :
  let loop := snd (run (processaBulkBooking_loop "id1") (unlucky_at 2) two_visits_pending) in
  let again :=
    snd (run (retry {| r_agent := Some "agent-7"; r_id := "id1"; r_itemIds := None |})
             (unlucky_at 0) loop) in
  let counted := snd (run (processaBulkBooking_count "id1") (unlucky_at 0) again) in
  map BulkBookingItem.status (bulkBookingItem loop)
  = [BulkItemStatus.FAILED; BulkItemStatus.SUCCESS] /\
  map BulkBookingItem.status (bulkBookingItem again)
  = [BulkItemStatus.PENDING; BulkItemStatus.SUCCESS] /\
  map (fun b => (BulkBooking.status b, BulkBooking.successfulItems b,
                 BulkBooking.failedItems b, BulkBooking.totalItems b))
      (bulkBooking counted)
  = [(BulkBookingStatus.COMPLETED, 1, 0, 2)].
Proof. vm_compute. repeat split. Qed.

End BulkFacts.

(** ** Lists of rows *)

Lemma Forall2_same {A} (P : A -> A -> Prop) (l : list A) :
  (forall x, P x x) -> Forall2 P l l.
Proof. intros H. induction l; constructor; auto. Qed.

Lemma Forall2_update_where {R} (P : R -> R -> Prop) (p : R -> bool) (f : R -> R) (t : list R) :
  (forall r, P r r) ->
  (forall r, p r = true -> P r (f r)) ->
  Forall2 P t (Prisma.update_where p f t).
Proof.
  intros Hrefl Hf. unfold Prisma.update_where.
  induction t as [|r t IH]; simpl; constructor; [|exact IH].
  destruct (p r) eqn:E; auto.
Qed.

Lemma Forall2_compose {A} (P Q R : A -> A -> Prop) (l1 l2 l3 : list A) :
  (forall x y z, P x y -> Q y z -> R x z) ->
  Forall2 P l1 l2 -> Forall2 Q l2 l3 -> Forall2 R l1 l3.
Proof.
  intros H H12. revert l3.
  induction H12; intros l3 H23; inversion H23; subst; constructor; eauto.
Qed.

Lemma Forall2_combine_snd {A B C} (P : B -> C -> Prop) (l : list A) (l' : list B) rows :
  List.length l = List.length l' ->
  Forall2 (fun p y => P (snd p) y) (combine l l') rows ->
  Forall2 P l' rows.
Proof.
  revert l' rows. induction l as [|a l IH]; intros [|b l'] rows Hlen H;
    simpl in *; try discriminate.
  - inversion H. constructor.
  - inversion H; subst. constructor; [assumption|].
    apply IH; [congruence|assumption].
Qed.

Lemma firstn_plus {A} (a b : nat) (l : list A) :
  firstn (a + b) l = (firstn a l ++ firstn b (skipn a l))%list.
Proof.
  revert l. induction a as [|a IH]; intros l; [reflexivity|].
  destruct l as [|x l]; simpl; [rewrite firstn_nil; reflexivity|].
  f_equal. apply IH.
Qed.

Lemma In_firstn {A} (n : nat) (l : list A) (x : A) : In x (firstn n l) -> In x l.
Proof.
  intros H. rewrite <- (firstn_skipn n l). apply in_or_app. left. exact H.
Qed.

Lemma In_skipn {A} (n : nat) (l : list A) (x : A) : In x (skipn n l) -> In x l.
Proof.
  intros H. rewrite <- (firstn_skipn n l). apply in_or_app. right. exact H.
Qed.

(** Consecutive chunks of [m] elements make up a prefix. *)
Lemma chunks_prefix {A} (m : nat) (l : list A) (n : nat) :
  flat_map (fun k => firstn m (skipn (k * m) l)) (seq 0 n) = firstn (n * m) l.
Proof.
  induction n as [|n IH]; [reflexivity|].
  rewrite seq_S, flat_map_app, IH. simpl flat_map. rewrite app_nil_r.
  replace (S n * m)%nat with (n * m + m)%nat by lia.
  symmetry. apply firstn_plus.
Qed.

Lemma flat_map_map {A B C} (f : B -> C) (g : A -> list B) (l : list A) :
  flat_map (fun k => map f (g k)) l = map f (flat_map g l).
Proof.
  induction l as [|x l IH]; [reflexivity|]. simpl. rewrite map_app, IH. reflexivity.
Qed.

(** ** The approvals router, handler by handler *)

Module ApprovalsHandlers.
Import Prisma Approvals ApprovalsSpec ApprovalsRows ApprovalsFacts.

(** *** Creation *)

Ltac refused E :=
  left; rewrite E; eexists; (split; [reflexivity|simpl; lia]).

Ltac declined E :=
  left; rewrite E; eexists; (split; [reflexivity|simpl; lia]).

(** The invocation has answered [r] with code 201, and [E] says that it
    answered something else. *)
Ltac not_created :=
  match goal with
  | Hres : ?res = (Ok ?r, _), Hcode : code ?r = 201, E : ?res = _ |- _ =>
      exfalso; rewrite E in Hres; inversion Hres; subst r; simpl in Hcode; lia
  end.

Lemma new_ids_cuids_any {D A} (l : list A) (env : Env) (w : World D) :
  new_ids l env w
  = (Ok (cuids env (tick w) (List.length l)),
     Build_World (db w) (tick w + List.length l) (started w)).
Proof.
  revert w. induction l as [|x l IH]; intros w.
  - simpl. unfold ret, cuids. simpl. rewrite Nat.add_0_r. destruct w; reflexivity.
  - simpl. unfold bind, new_id. rewrite IH. unfold ret, cuids, bump. simpl.
    rewrite Nat.add_succ_r. reflexivity.
Qed.

Lemma new_ids_cuids {A} (l : list A) (env : Env) (w : World Db) :
  new_ids l env w
  = (Ok (cuids env (tick w) (List.length l)),
     Build_World (db w) (tick w + List.length l) (started w)).
Proof. apply new_ids_cuids_any. Qed.

Lemma step_rows_created wid (ps : list (string * StepInput)) :
  forall i rows,
    all_rows (mapi_from i (step_row wid) ps) = Some rows ->
    Forall2 (fun p x => WorkflowStep.id x = fst p /\ step_created wid (snd p) x) ps rows /\
    map WorkflowStep.stepOrder rows = upto (i + 1) (List.length ps).
Proof.
  induction ps as [|[sid inp] ps IH]; intros i rows H.
  - simpl in H. inversion H. split; constructor.
  - cbn [mapi_from all_rows] in H.
    destruct (step_row wid i (sid, inp)) as [x|] eqn:Hx; [|discriminate].
    destruct (all_rows (mapi_from (i + 1) (step_row wid) ps)) as [rest|] eqn:Hrest;
      [|discriminate].
    cbv beta iota delta [option_map] in H. inversion H; subst rows.
    destruct (IH _ _ Hrest) as [IH1 IH2].
    unfold step_row in Hx. destruct (in_stepName inp) as [name|] eqn:Hname; [|discriminate].
    inversion Hx; subst x. split.
    + constructor; [|exact IH1]. simpl. unfold step_created. simpl.
      repeat split; auto.
    + simpl. f_equal. exact IH2.
Qed.

Lemma step_rows_exist wid (ps : list (string * StepInput)) :
  (forall p, In p ps -> in_stepName (snd p) <> None) ->
  forall i, exists rows, all_rows (mapi_from i (step_row wid) ps) = Some rows.
Proof.
  induction ps as [|[sid inp] ps IH]; intros H i.
  - exists []. reflexivity.
  - cbn [mapi_from all_rows]. unfold step_row at 1.
    destruct (in_stepName inp) as [name|] eqn:Hname.
    2:{ exfalso. apply (H (sid, inp)); [left; reflexivity|exact Hname]. }
    destruct (IH (fun p Hp => H p (or_intror Hp)) (i + 1)) as [rest Hrest].
    rewrite Hrest. eexists. reflexivity.
Qed.

(** X1. The create handler answers 201 only after it has inserted one
    workflow, at step 1 and PENDING, for the calling agent, together with
    one PENDING step per entry of [steps], numbered 1, 2, ... in the order
    of the request, each with the approver that its entry names and
    without approver when the entry names none or an empty one; the body
    of the answer is that workflow. With every other answer the database
    is as it was: nothing is inserted in part. *)
Theorem create_inserts_whole_workflow env d req :
  (exists r, run (create req) env d = (Ok r, d) /\ code r <> 201) \/
  (exists a steps w rows,
      let d' := {| approvalWorkflow := approvalWorkflow d ++ [w];
                   workflowStep := workflowStep d ++ rows |} in
      truthy (c_agent req) = Some a /\
      c_steps req = Some steps /\
      run (create req) env d = (Ok (json 201 (workflow (Some (with_steps d' w)))), d') /\
      ~ In (ApprovalWorkflow.id w) (map ApprovalWorkflow.id (approvalWorkflow d)) /\
      ApprovalWorkflow.requesterId w = a /\
      ApprovalWorkflow.currentStep w = 1 /\
      ApprovalWorkflow.status w = WorkflowStatus.PENDING /\
      ApprovalWorkflow.completedAt w = None /\
      ApprovalWorkflow.totalSteps w = len steps /\
      0 < len steps /\
      Forall2 (step_created (ApprovalWorkflow.id w)) steps rows /\
      map WorkflowStep.stepOrder rows = upto 1 (List.length steps)).
Proof.
  remember (run (create req) env d) as res eqn:E.
  unfold run, create, try_catch in E.
  destruct (truthy (c_agent req)) as [a|] eqn:Ha; [|refused E].
  destruct (truthy (c_requestType req)) as [ty|]; [|refused E].
  destruct (truthy (c_requestId req)) as [rid|]; [|refused E].
  destruct (truthy (c_description req)) as [de|]; [|refused E].
  destruct (c_steps req) as [steps|] eqn:Hsteps; [|refused E].
  destruct (Z.eqb_spec (len steps) 0) as [E0|E0]; [refused E|].
  unfold bind at 1, new_id at 1 in E. unfold bind at 1 in E.
  rewrite new_ids_cuids in E. simpl db in E. simpl tick in E.
  unfold bind at 1, approvalWorkflow_create, call in E. simpl db in E. simpl tick in E.
  destruct (fault env _); [refused E|].
  destruct (WorkflowType.of_string ty) as [t|]; [|refused E].
  destruct (WorkflowPriority.of_string _) as [p|]; [|refused E].
  destruct (all_rows _) as [rows|] eqn:Hrows; [|refused E].
  destruct (fresh_ids [cuid env 0%nat] _) eqn:Hf1; [|refused E].
  destruct (fresh_ids (cuids env 1 (List.length steps)) _) eqn:Hf2; [|refused E].
  right. simpl in E.
  apply fresh_ids_spec in Hf1. destruct Hf1 as [_ Hf1].
  apply step_rows_created in Hrows. destruct Hrows as [Hshape Horders].
  assert (Hlen : List.length (cuids env 1 (List.length steps)) = List.length steps).
  { unfold cuids. rewrite length_map, length_seq. reflexivity. }
  exists a, steps. eexists. exists rows. cbv zeta.
  split; [reflexivity|]. split; [reflexivity|]. split; [exact E|]. simpl.
  split; [apply Hf1; left; reflexivity|].
  repeat (split; [reflexivity|]).
  split; [unfold len in *; lia|]. split.
  - apply (Forall2_combine_snd _ (cuids env 1 (List.length steps))); [exact Hlen|].
    eapply Forall2_impl; [|exact Hshape]. intros q x H. apply H.
  - rewrite Horders. rewrite length_combine, Hlen, Nat.min_id. reflexivity.
Qed.

(** X2. The create handler answers 201 exactly when the request is well
    formed (an agent, a type and a priority of the enums with MEDIUM for a
    missing priority, the required texts, at least one step and a name for
    every step), the generated identifiers are new to their tables, and the
    insertion is not rejected. *)
Theorem create_accepts_well_formed env d req :
  (exists r d', run (create req) env d = (Ok r, d') /\ code r = 201) <->
  (exists a steps,
      well_formed req a steps /\
      fault env (S (List.length steps)) = false /\
      fresh_ids [cuid env 0%nat] (map ApprovalWorkflow.id (approvalWorkflow d)) = true /\
      fresh_ids (cuids env 1 (List.length steps)) (map WorkflowStep.id (workflowStep d))
      = true).
Proof.
  remember (run (create req) env d) as res eqn:E.
  unfold run, create, try_catch in E.
  split.
  - intros (r & d' & Hres & Hcode).
    destruct (truthy (c_agent req)) as [a|] eqn:Ha; [|not_created].
    destruct (truthy (c_requestType req)) as [ty|] eqn:Hty; [|not_created].
    destruct (truthy (c_requestId req)) as [rid|] eqn:Hrid; [|not_created].
    destruct (truthy (c_description req)) as [de|] eqn:Hde; [|not_created].
    destruct (c_steps req) as [steps|] eqn:Hsteps; [|not_created].
    destruct (Z.eqb_spec (len steps) 0) as [E0|E0]; [not_created|].
    unfold bind at 1, new_id at 1 in E. unfold bind at 1 in E.
    rewrite new_ids_cuids in E. simpl db in E. simpl tick in E.
    unfold bind at 1, approvalWorkflow_create, call in E. simpl db in E. simpl tick in E.
    destruct (fault env _) eqn:Hfault; [not_created|].
    destruct (WorkflowType.of_string ty) as [t|] eqn:Ht; [|not_created].
    destruct (WorkflowPriority.of_string _) as [p|] eqn:Hp; [|not_created].
    destruct (all_rows _) as [rows|] eqn:Hrows; [|not_created].
    destruct (fresh_ids [cuid env 0%nat] _) eqn:Hf1; [|not_created].
    destruct (fresh_ids (cuids env 1 (List.length steps)) _) eqn:Hf2; [|not_created].
    exists a, steps. split; [|auto].
    assert (Hlen : List.length (cuids env 1 (List.length steps)) = List.length steps).
    { unfold cuids. rewrite length_map, length_seq. reflexivity. }
    apply step_rows_created in Hrows. destruct Hrows as [Hshape _].
    apply (Forall2_combine_snd (fun st x => in_stepName st = Some (WorkflowStep.stepName x))
             (cuids env 1 (List.length steps)) steps rows) in Hlen.
    2:{ eapply Forall2_impl; [|exact Hshape]. intros q x H. apply H. }
    repeat split; eauto.
    + intros ->. apply E0. reflexivity.
    + intros st Hst Hnone. clear - Hlen Hst Hnone.
      induction Hlen as [|x y l l' Hxy _ IH]; [contradiction|].
      destruct Hst as [->|Hst]; [congruence|auto].
  - intros (a & steps & Hwf & Hfault & Hf1 & Hf2).
    destruct Hwf as (Ha & (ty & t & Hty & Ht) & (rid & Hrid) & (de & Hde) & (p & Hp)
                     & Hsteps & Hne & Hnames).
    rewrite Ha, Hty, Hrid, Hde, Hsteps in E.
    destruct (Z.eqb_spec (len steps) 0) as [E0|E0].
    { exfalso. destruct steps; [auto|discriminate]. }
    unfold bind at 1, new_id at 1 in E. unfold bind at 1 in E.
    rewrite new_ids_cuids in E. simpl db in E. simpl tick in E.
    unfold bind at 1, approvalWorkflow_create, call in E. simpl db in E. simpl tick in E.
    rewrite Hfault, Ht, Hp, Hf1, Hf2 in E.
    destruct (step_rows_exist (cuid env 0%nat) (combine (cuids env 1 (List.length steps)) steps))
      with (i := 0) as [rows Hrows].
    { intros q Hq. apply Hnames. destruct q as [sid st]. eapply in_combine_r. exact Hq. }
    unfold mapi in E. rewrite Hrows in E. simpl in E.
    rewrite E. eexists. eexists. split; reflexivity.
Qed.

(** *** Decisions *)

(** X3. A decision changes the database only when the caller is the
    approver of the step named in the path, the step belongs to the
    workflow named in the path, and it is the workflow's current step. *)
Theorem decideStep_writes_for_approver_only env d req :
  snd (run (decideStep req) env d) <> d ->
  exists a s w,
    truthy (d_agent req) = Some a /\
    In s (workflowStep d) /\ In w (approvalWorkflow d) /\
    WorkflowStep.id s = d_stepId req /\
    WorkflowStep.workflowId s = d_workflowId req /\
    ApprovalWorkflow.id w = d_workflowId req /\
    WorkflowStep.approverId s = Some a /\
    ApprovalWorkflow.currentStep w = WorkflowStep.stepOrder s.
Proof.
  intros Hchanged.
  destruct (decideStep_cases env d req) as [(r & E & _)|(a & v & s & w & Hf & Hact & _ & _)].
  - exfalso. apply Hchanged. rewrite E. reflexivity.
  - pose proof (finds_sound _ _ _ _ _ _ Hf) as (Hs & Hw & Hsid & Hwid & Happ & Hwid').
    destruct Hf as (Ha & _).
    exists a, s, w. repeat split; assumption.
Qed.

Lemma decideStep_writes_for_approver_only_witness :
  exists a s w,
    truthy (d_agent (decision "id1" "supervisor-1" "APPROVED")) = Some a /\
    In s (workflowStep refund_pending) /\ In w (approvalWorkflow refund_pending) /\
    WorkflowStep.id s = "id1" /\
    WorkflowStep.workflowId s = "id0" /\
    ApprovalWorkflow.id w = "id0" /\
    WorkflowStep.approverId s = Some a /\
    ApprovalWorkflow.currentStep w = WorkflowStep.stepOrder s.
Proof.
  apply (decideStep_writes_for_approver_only calm refund_pending
           (decision "id1" "supervisor-1" "APPROVED")).
  vm_compute. discriminate.
Defined.

Lemma step_kept_same sid s : step_kept sid s s.
Proof. unfold step_kept. repeat split; auto. Qed.

Lemma workflow_kept_same wid w : workflow_kept wid w w.
Proof. unfold workflow_kept. repeat split; auto. Qed.

Lemma write_step_kept sid st data d :
  Forall2 (step_kept sid) (workflowStep d) (workflowStep (write_step sid st data d)).
Proof.
  simpl. apply Forall2_update_where; [apply step_kept_same|].
  intros r Hr. apply String.eqb_eq in Hr.
  unfold step_kept. simpl. repeat split; auto. congruence.
Qed.

Lemma write_workflow_kept wid u d :
  Forall2 (workflow_kept wid) (approvalWorkflow d) (approvalWorkflow (write_workflow wid u d)).
Proof.
  simpl. apply Forall2_update_where; [apply workflow_kept_same|].
  intros r Hr. apply String.eqb_eq in Hr.
  unfold workflow_kept. simpl. repeat split; auto. congruence.
Qed.

Lemma decided_rows env d req a v s w :
  Forall2 (step_kept (d_stepId req))
    (workflowStep d) (workflowStep (snd (decided env d req a v s w))) /\
  Forall2 (workflow_kept (d_workflowId req))
    (approvalWorkflow d) (approvalWorkflow (snd (decided env d req a v s w))).
Proof.
  assert (Hsame : Forall2 (step_kept (d_stepId req)) (workflowStep d) (workflowStep d) /\
                  Forall2 (workflow_kept (d_workflowId req))
                    (approvalWorkflow d) (approvalWorkflow d)).
  { split; apply Forall2_same; intros; [apply step_kept_same|apply workflow_kept_same]. }
  unfold decided.
  destruct (fault env 1); [exact Hsame|].
  destruct (StepStatus.of_string v) as [st|]; [|exact Hsame].
  set (d1 := write_step (d_stepId req) st (step_data req a v (clock env 1)) d).
  assert (H1 : Forall2 (step_kept (d_stepId req)) (workflowStep d) (workflowStep d1) /\
               Forall2 (workflow_kept (d_workflowId req))
                 (approvalWorkflow d) (approvalWorkflow d1)).
  { split; [apply write_step_kept|apply Hsame]. }
  assert (H2 : forall u,
             Forall2 (step_kept (d_stepId req)) (workflowStep d)
               (workflowStep (write_workflow (d_workflowId req) u d1)) /\
             Forall2 (workflow_kept (d_workflowId req)) (approvalWorkflow d)
               (approvalWorkflow (write_workflow (d_workflowId req) u d1))).
  { intros u. split; [apply write_step_kept|]. apply (write_workflow_kept _ u d1). }
  destruct (has_keys _).
  - destruct (fault env 2); [exact H1|]. destruct (fault env 3); apply H2.
  - destruct (fault env 2); exact H1.
Qed.

(** X4. Whatever the request and whichever calls reject, a decision
    leaves every step other than the one named in the path, and every
    workflow other than the one named in the path, exactly as it was; of
    the named step it keeps the workflow, the order, the name, the
    description, the optional flag and the approver, and of the named
    workflow the requester, the request, the number of steps and the texts. *)
Theorem decideStep_touches_one_step_one_workflow env d req :
  Forall2 (step_kept (d_stepId req))
    (workflowStep d) (workflowStep (snd (run (decideStep req) env d))) /\
  Forall2 (workflow_kept (d_workflowId req))
    (approvalWorkflow d) (approvalWorkflow (snd (run (decideStep req) env d))).
Proof.
  destruct (decideStep_cases env d req) as [(r & E & _)|(a & v & s & w & _ & _ & _ & E)];
    rewrite E.
  - split; apply Forall2_same; intros; [apply step_kept_same|apply workflow_kept_same].
  - apply decided_rows.
Qed.

Lemma other_status_no_keys v s w now :
  v <> "APPROVED" -> v <> "REJECTED" -> has_keys (workflowUpdate v s w now) = false.
Proof.
  intros Ha Hr. unfold workflowUpdate.
  apply String.eqb_neq in Ha. apply String.eqb_neq in Hr. rewrite Ha, Hr. reflexivity.
Qed.

(** X5. A status of the enum other than APPROVED and REJECTED (PENDING,
    IN_PROGRESS, SKIPPED), sent by the approver for the current step, is
    written to the step and answered with 200, and the workflow is not
    written at all: it keeps its status and the same step stays current. *)
Theorem decideStep_other_status_keeps_workflow env d req a v st s w :
  finds d req a v s w ->
  ApprovalWorkflow.currentStep w = WorkflowStep.stepOrder s ->
  StepStatus.of_string v = Some st ->
  v <> "APPROVED" -> v <> "REJECTED" ->
  fault env 0 = false -> fault env 1 = false -> fault env 2 = false ->
  let d' := write_step (d_stepId req) st (step_data req a v (clock env 1)) d in
  run (decideStep req) env d
  = (Ok (json 200 (workflow (Some (with_steps d' w)))), d') /\
  approvalWorkflow d' = approvalWorkflow d /\
  option_map WorkflowStep.status (find_step (d_stepId req) d') = Some st.
Proof.
  intros Hf Hact Hst Hna Hnr H0 H1 H2 d'.
  pose proof (finds_sound _ _ _ _ _ _ Hf) as (_ & _ & _ & Hwid & _ & _).
  destruct (finds_find_step _ _ _ _ _ _ Hf) as [s0 Hs0].
  rewrite (decideStep_run env d req a v s w Hf Hact H0).
  unfold decided. rewrite H1, Hst, (other_status_no_keys v s w _ Hna Hnr), H2.
  fold d'. split; [|split; [reflexivity|]].
  - destruct Hf as (_ & _ & _ & Hw). rewrite Hwid in Hw.
    unfold d'. rewrite find_workflow_write_step, Hw. reflexivity.
  - unfold d', find_step, write_step. simpl.
    rewrite (find_first_update WorkflowStep.id); [|reflexivity].
    unfold find_step in Hs0. rewrite Hs0.
    apply (find_first_key WorkflowStep.id) in Hs0. destruct Hs0 as [Hid _].
    cbv beta iota delta [option_map]. rewrite Hid, String.eqb_refl. reflexivity.
Qed.

Lemma decideStep_other_status_keeps_workflow_witness :
  let req := decision "id1" "supervisor-1" "SKIPPED" in
  let d' := write_step "id1" StepStatus.SKIPPED
              (step_data req "supervisor-1" "SKIPPED" 1001) refund_pending in
  run (decideStep req) calm refund_pending
  = (Ok (json 200 (workflow (Some (with_steps d' refund_workflow)))), d') /\
  approvalWorkflow d' = approvalWorkflow refund_pending /\
  option_map WorkflowStep.status (find_step "id1" d') = Some StepStatus.SKIPPED.
Proof.
  apply (decideStep_other_status_keeps_workflow calm refund_pending
           (decision "id1" "supervisor-1" "SKIPPED") "supervisor-1" "SKIPPED"
           StepStatus.SKIPPED (refund_step "id1" 1 "supervisor-1" false) refund_workflow);
    try reflexivity; try discriminate.
  repeat split.
Defined.

(** X6. A status that is not a value of the step-status enum never
    reaches the database: whoever sends it and for whichever step, the
    answer is not 200 and nothing is written. *)
Theorem decideStep_unknown_status env d req v :
  truthy (d_status req) = Some v ->
  StepStatus.of_string v = None ->
  exists r, run (decideStep req) env d = (Ok r, d) /\ code r <> 200.
Proof.
  intros Hv Hnone.
  destruct (decideStep_cases env d req)
    as [H|(a & v' & s & w & Hf & _ & _ & E)]; [exact H|].
  destruct Hf as (_ & Hv' & _). rewrite Hv in Hv'. inversion Hv'; subst v'.
  rewrite E. unfold decided. rewrite Hnone.
  exists (json 500 (message "Internal server error")).
  destruct (fault env 1); (split; [reflexivity|simpl; lia]).
Qed.

Lemma decideStep_unknown_status_witness :
  exists r,
    run (decideStep (decision "id1" "supervisor-1" "approved")) calm refund_pending
    = (Ok r, refund_pending) /\ code r <> 200.
Proof.
  apply (decideStep_unknown_status calm refund_pending
           (decision "id1" "supervisor-1" "approved") "approved"); reflexivity.
Defined.

(** *** Cancellation *)

(** The cancel handler either refuses and writes nothing, or marks the
    requester's live workflow CANCELLED and answers 200 with it. *)
Lemma cancel_answers env d req :
  (exists r, run (cancel req) env d = (Ok r, d) /\ code r <> 200) \/
  (exists a w w0,
      let d' := write_workflow (x_id req) (cancelled (clock env 1) (x_reason req)) d in
      truthy (x_agent req) = Some a /\
      find_first (fun w => String.eqb (ApprovalWorkflow.id w) (x_id req)
                           && String.eqb (ApprovalWorkflow.requesterId w) a)
                 (approvalWorkflow d) = Some w /\
      live (ApprovalWorkflow.status w) /\
      find_workflow (x_id req) d = Some w0 /\
      run (cancel req) env d
      = (Ok (json 200 (workflow
               (Some (with_steps d'
                        (set_workflow (cancelled (clock env 1) (x_reason req)) w0))))),
         d')).
Proof.
  remember (run (cancel req) env d) as res eqn:E.
  unfold run, cancel, try_catch, bind in E.
  destruct (truthy (x_agent req)) as [a|] eqn:Ha; [|declined E].
  unfold approvalWorkflow_findFirst, call at 1 in E. simpl in E.
  destruct (fault env 0); [declined E|].
  destruct (find_first _ (approvalWorkflow d)) as [w|] eqn:Hw; [|declined E].
  destruct (ApprovalWorkflow.status w) eqn:Est; try (declined E);
    unfold new_Date, approvalWorkflow_update, call in E; simpl in E;
    (destruct (fault env 1); [declined E|]);
    (destruct (find_workflow (x_id req) d) as [w0|] eqn:Hw0; [|declined E]);
    right; exists a, w, w0; cbv zeta; unfold live;
    (split; [reflexivity|]); (split; [exact Hw|]); (split; [auto|]);
    (split; [first [reflexivity|exact Hw0]|exact E]).
Qed.

Lemma requester_finds d wid a w :
  NoDup (map ApprovalWorkflow.id (approvalWorkflow d)) ->
  find_workflow wid d = Some w ->
  find_first (fun w => String.eqb (ApprovalWorkflow.id w) wid
                       && String.eqb (ApprovalWorkflow.requesterId w) a)
             (approvalWorkflow d)
  = if String.eqb (ApprovalWorkflow.requesterId w) a then Some w else None.
Proof.
  intros Hnd Hw.
  apply (find_first_refine ApprovalWorkflow.id wid
           (fun w => String.eqb (ApprovalWorkflow.requesterId w) a) _ _ Hnd Hw).
Qed.

Lemma find_first_absent_key d wid a :
  find_workflow wid d = None ->
  find_first (fun w => String.eqb (ApprovalWorkflow.id w) wid
                       && String.eqb (ApprovalWorkflow.requesterId w) a)
             (approvalWorkflow d) = None.
Proof.
  unfold find_workflow, find_first. intros H.
  destruct (find (fun w => String.eqb (ApprovalWorkflow.id w) wid
                           && String.eqb (ApprovalWorkflow.requesterId w) a)
                 (approvalWorkflow d)) as [w|] eqn:E; [|reflexivity].
  exfalso. apply find_some in E. destruct E as [Hin Hp]. apply andb_prop in Hp.
  eapply find_none in H; [|exact Hin]. simpl in H. destruct Hp; congruence.
Qed.

(** X7. The requester can cancel a workflow that is PENDING or
    IN_PROGRESS: when the two calls go through, the answer is 200, the
    workflow is CANCELLED with [completedAt] set and the reason of the
    request (the previous one when the request has none), its current step
    is not moved, and no step is written. *)
Theorem cancel_by_requester env d req w :
  NoDup (map ApprovalWorkflow.id (approvalWorkflow d)) ->
  find_workflow (x_id req) d = Some w ->
  truthy (x_agent req) = Some (ApprovalWorkflow.requesterId w) ->
  live (ApprovalWorkflow.status w) ->
  fault env 0 = false -> fault env 1 = false ->
  exists w',
    let d' := snd (run (cancel req) env d) in
    fst (run (cancel req) env d) = Ok (json 200 (workflow (Some (with_steps d' w')))) /\
    find_workflow (x_id req) d' = Some w' /\
    ApprovalWorkflow.status w' = WorkflowStatus.CANCELLED /\
    ApprovalWorkflow.completedAt w' = Some (clock env 1) /\
    ApprovalWorkflow.cancellationReason w'
    = assign_opt (x_reason req) (ApprovalWorkflow.cancellationReason w) /\
    ApprovalWorkflow.currentStep w' = ApprovalWorkflow.currentStep w /\
    workflowStep d' = workflowStep d.
Proof.
  intros Hnd Hw Ha Hlive H0 H1.
  exists (set_workflow (cancelled (clock env 1) (x_reason req)) w).
  assert (E : run (cancel req) env d
              = (Ok (json 200 (workflow
                       (Some (with_steps
                                (write_workflow (x_id req)
                                   (cancelled (clock env 1) (x_reason req)) d)
                                (set_workflow (cancelled (clock env 1) (x_reason req)) w))))),
                 write_workflow (x_id req) (cancelled (clock env 1) (x_reason req)) d)).
  { unfold run, cancel, try_catch, bind. rewrite Ha.
    unfold approvalWorkflow_findFirst, call at 1. simpl. rewrite H0.
    rewrite (requester_finds d _ _ w Hnd Hw), String.eqb_refl.
    destruct Hlive as [El|El]; rewrite El;
      unfold new_Date, approvalWorkflow_update, call; simpl; rewrite H1, Hw;
      reflexivity. }
  rewrite E. cbv zeta. simpl fst. simpl snd.
  split; [reflexivity|]. split.
  - rewrite find_workflow_write_workflow, Hw. reflexivity.
  - simpl. repeat split; reflexivity.
Qed.

Lemma cancel_by_requester_witness :
  exists w',
    let req := {| x_agent := Some "agent-7"; x_id := "id0"; x_reason := Some "Paid" |} in
    let d' := snd (run (cancel req) calm refund_pending) in
    fst (run (cancel req) calm refund_pending)
    = Ok (json 200 (workflow (Some (with_steps d' w')))) /\
    find_workflow "id0" d' = Some w' /\
    ApprovalWorkflow.status w' = WorkflowStatus.CANCELLED /\
    ApprovalWorkflow.completedAt w' = Some 1001 /\
    ApprovalWorkflow.cancellationReason w' = Some "Paid" /\
    ApprovalWorkflow.currentStep w' = 1 /\
    workflowStep d' = workflowStep refund_pending.
Proof.
  apply (cancel_by_requester calm refund_pending
           {| x_agent := Some "agent-7"; x_id := "id0"; x_reason := Some "Paid" |}
           refund_workflow); try reflexivity.
  - nodup_ids.
  - left. reflexivity.
Defined.

(** X8. Nobody but the requester can cancel, and nothing terminal is
    cancelled: for a workflow that exists, a cancel request from another
    agent is answered 404 and one for an APPROVED, REJECTED or CANCELLED
    workflow 400 (500 in both cases when the lookup is rejected), and the
    database is as it was. *)
Theorem cancel_refuses env d req a w :
  NoDup (map ApprovalWorkflow.id (approvalWorkflow d)) ->
  find_workflow (x_id req) d = Some w ->
  truthy (x_agent req) = Some a ->
  ApprovalWorkflow.requesterId w <> a \/ terminal (ApprovalWorkflow.status w) ->
  exists r,
    run (cancel req) env d = (Ok r, d) /\
    (fault env 0 = true -> code r = 500) /\
    (fault env 0 = false ->
     r = if String.eqb (ApprovalWorkflow.requesterId w) a
         then json 400 (message "Can only cancel pending or in-progress workflows")
         else json 404 (message "Workflow not found")).
Proof.
  intros Hnd Hw Ha Hwhy.
  unfold run, cancel, try_catch, bind. rewrite Ha.
  unfold approvalWorkflow_findFirst, call at 1. simpl.
  destruct (fault env 0).
  { eexists. split; [reflexivity|]. split; [reflexivity|discriminate]. }
  rewrite (requester_finds d _ _ w Hnd Hw).
  destruct (String.eqb_spec (ApprovalWorkflow.requesterId w) a) as [Ea|Ea].
  - destruct Hwhy as [Hne|Hterm]; [contradiction|].
    unfold terminal in Hterm.
    destruct (ApprovalWorkflow.status w); try (exfalso; intuition discriminate);
      (eexists; split; [reflexivity|]; split; [discriminate|reflexivity]).
  - eexists. split; [reflexivity|]. split; [discriminate|reflexivity].
Qed.

Lemma cancel_refuses_witness :
  exists r,
    run (cancel {| x_agent := Some "agent-8"; x_id := "id0"; x_reason := None |})
        calm refund_pending = (Ok r, refund_pending) /\
    (fault calm 0 = true -> code r = 500) /\
    (fault calm 0 = false ->
     r = if String.eqb (ApprovalWorkflow.requesterId refund_workflow) "agent-8"
         then json 400 (message "Can only cancel pending or in-progress workflows")
         else json 404 (message "Workflow not found")).
Proof.
  apply (cancel_refuses calm refund_pending
           {| x_agent := Some "agent-8"; x_id := "id0"; x_reason := None |}
           "agent-8" refund_workflow); try reflexivity.
  - nodup_ids.
  - left. discriminate.
Defined.

Lemma over_write_workflow wid wid' u d :
  (forall st, wd_status u = Some st -> terminal st) ->
  over wid d -> over wid (write_workflow wid' u d).
Proof.
  intros Hu [(w & Hin & Hid) Hall]. split.
  - exists (if String.eqb (ApprovalWorkflow.id w) wid' then set_workflow u w else w).
    split.
    + simpl. unfold update_where. apply in_map_iff. exists w. auto.
    + destruct (String.eqb _ wid'); exact Hid.
  - intros w' Hw' Hid'. simpl in Hw'. apply in_update_where in Hw'.
    destruct Hw' as (w0 & Hw0 & ->).
    destruct (String.eqb (ApprovalWorkflow.id w0) wid'); [|auto].
    simpl in Hid'. simpl. specialize (Hall w0 Hw0 Hid').
    destruct (wd_status u) as [st|]; simpl; auto.
Qed.

Lemma workflowUpdate_terminal v s w now st :
  wd_status (workflowUpdate v s w now) = Some st -> terminal st.
Proof.
  unfold workflowUpdate, terminal.
  destruct (String.eqb v "APPROVED").
  - destruct (_ <? _); simpl; intros H; inversion H; auto.
  - destruct (String.eqb v "REJECTED"); simpl; intros H; inversion H; auto.
Qed.

Lemma over_decideStep wid env req d :
  over wid d -> over wid (snd (run (decideStep req) env d)).
Proof.
  intros Ho.
  destruct (decideStep_cases env d req) as [(r & E & _)|(a & v & s & w & _ & _ & _ & E)];
    rewrite E; [exact Ho|].
  assert (H1 : forall st data, over wid (write_step (d_stepId req) st data d)).
  { intros st data. exact Ho. }
  assert (H2 : forall st data now,
             over wid (write_workflow (d_workflowId req) (workflowUpdate v s w now)
                         (write_step (d_stepId req) st data d))).
  { intros st data now. apply over_write_workflow; [|apply H1].
    intros st'. apply workflowUpdate_terminal. }
  unfold decided.
  destruct (fault env 1); [exact Ho|].
  destruct (StepStatus.of_string v) as [st|]; [|exact Ho].
  destruct (has_keys _).
  - destruct (fault env 2); [apply H1|]. destruct (fault env 3); apply H2.
  - destruct (fault env 2); apply H1.
Qed.

Lemma over_cancel wid env req d :
  over wid d -> over wid (snd (run (cancel req) env d)).
Proof.
  intros Ho.
  destruct (cancel_cases env d req) as [E|(a & w & _ & _ & _ & E)]; rewrite E; [exact Ho|].
  apply over_write_workflow; [|exact Ho].
  simpl. intros st H. inversion H. right. right. reflexivity.
Qed.

Lemma over_create wid env req d :
  over wid d -> over wid (snd (run (create req) env d)).
Proof.
  intros [(w0 & Hin0 & Hid0) Hall].
  destruct (create_cases env d req)
    as [E|(wid' & sids & steps & rows & w & _ & _ & _ & Hf1 & _ & _ & Hid & _ & _ & _ & E)];
    rewrite E; [split; eauto|].
  apply fresh_ids_spec in Hf1. destruct Hf1 as [_ Hf1]. simpl. split.
  - exists w0. split; [apply in_or_app; left; exact Hin0|exact Hid0].
  - intros w' Hw' Hid'. apply in_app_or in Hw'. destruct Hw' as [Hw'|[<-|[]]]; [auto|].
    exfalso. apply (Hf1 wid'); [left; reflexivity|].
    rewrite <- Hid, Hid', <- Hid0. apply in_map. exact Hin0.
Qed.

Lemma over_later wid d d' : later d d' -> over wid d -> over wid d'.
Proof.
  induction 1 as [d|env req d d' _ IH|env req d d' _ IH|env req d d' _ IH]; intros Ho.
  - exact Ho.
  - apply over_create, IH, Ho.
  - apply over_decideStep, IH, Ho.
  - apply over_cancel, IH, Ho.
Qed.

Lemma cancelled_over env d req r :
  fst (run (cancel req) env d) = Ok r -> code r = 200 ->
  over (x_id req) (snd (run (cancel req) env d)).
Proof.
  intros Hr Hcode.
  destruct (cancel_answers env d req) as [(r0 & E & Hno)|(a & w & w0 & _ & _ & _ & Hw0 & E)].
  { exfalso. rewrite E in Hr. inversion Hr; subst r0. contradiction. }
  rewrite E. simpl snd. apply find_workflow_In in Hw0. destruct Hw0 as [Hin0 Hid0]. split.
  - exists (set_workflow (cancelled (clock env 1) (x_reason req)) w0). split; [|exact Hid0].
    simpl. unfold update_where. apply in_map_iff. exists w0.
    rewrite Hid0, String.eqb_refl. auto.
  - intros w' Hw' Hid'. simpl in Hw'. apply in_update_where in Hw'.
    destruct Hw' as (w1 & Hw1 & ->).
    destruct (String.eqb_spec (ApprovalWorkflow.id w1) (x_id req)) as [E1|E1].
    + right. right. reflexivity.
    + contradiction.
Qed.

(** X9. Cancelling is final for the cancel handler: once a cancel request
    has been answered 200, every later cancel request for the same
    workflow, from any agent and whichever calls reject, is refused and
    leaves the database as it is, whatever requests the create, decision
    and cancel handlers have served in between. *)
Theorem cancel_twice env env' d d' req req' r :
  fst (run (cancel req) env d) = Ok r ->
  code r = 200 ->
  later (snd (run (cancel req) env d)) d' ->
  x_id req' = x_id req ->
  exists r', run (cancel req') env' d' = (Ok r', d') /\ code r' <> 200.
Proof.
  intros Hr Hcode Hlater Hid.
  pose proof (over_later _ _ _ Hlater (cancelled_over env d req r Hr Hcode)) as [_ Hall].
  destruct (cancel_answers env' d' req') as [H|(a & w & w0 & _ & Hw & Hlive & _)];
    [exact H|].
  exfalso. apply find_some in Hw. destruct Hw as [Hin Hp].
  apply andb_prop in Hp. destruct Hp as [Hw _]. apply String.eqb_eq in Hw.
  rewrite Hid in Hw. specialize (Hall w Hin Hw).
  unfold live in Hlive. unfold terminal in Hall.
  destruct Hlive as [E|E]; rewrite E in Hall; intuition discriminate.
Qed.

Lemma cancel_twice_witness :
  let req := {| x_agent := Some "agent-7"; x_id := "id0"; x_reason := None |} in
  let d' := snd (run (decideStep (decision "id1" "supervisor-1" "REJECTED")) calm
                   (snd (run (cancel req) calm refund_pending))) in
  exists r', run (cancel req) calm d' = (Ok r', d') /\ code r' <> 200.
Proof.
  apply (cancel_twice calm calm refund_pending _
           {| x_agent := Some "agent-7"; x_id := "id0"; x_reason := None |}
           {| x_agent := Some "agent-7"; x_id := "id0"; x_reason := None |}
           (json 200 (workflow (Some
              (with_steps (snd (run (cancel {| x_agent := Some "agent-7"; x_id := "id0";
                                               x_reason := None |}) calm refund_pending))
                 (set_workflow (cancelled 1001 None) refund_workflow))))));
    try reflexivity.
  apply later_decideStep, later_now.
Defined.

(** *** Steps in order *)

Lemma order_steps_upto (l : list WorkflowStep.t) :
  forall i, map WorkflowStep.stepOrder l = upto i (List.length l) -> order_steps l = l.
Proof.
  induction l as [|x l IH]; intros i H; [reflexivity|].
  simpl in H. inversion H as [[Hx Hl]].
  unfold order_steps in *. simpl. rewrite (IH _ Hl).
  destruct l as [|y l']; [reflexivity|].
  simpl in Hl. injection Hl as Hy _. simpl.
  replace (WorkflowStep.stepOrder x <? WorkflowStep.stepOrder y) with true;
    [reflexivity|]. symmetry. apply Z.ltb_lt. lia.
Qed.

Lemma steps_of_kept sid wid d d' :
  Forall2 (step_kept sid) (workflowStep d) (workflowStep d') ->
  map WorkflowStep.stepOrder (steps_of wid d') = map WorkflowStep.stepOrder (steps_of wid d).
Proof.
  unfold steps_of. generalize (workflowStep d) (workflowStep d').
  induction 1 as [|x y l l' Hxy _ IH]; [reflexivity|].
  destruct Hxy as (_ & _ & Hwid & Hord & _). simpl. rewrite Hwid.
  destruct (String.eqb _ wid); simpl; congruence.
Qed.

Lemma numbered_kept sid wid d d' :
  Forall2 (step_kept sid) (workflowStep d) (workflowStep d') ->
  Forall2 (workflow_kept wid) (approvalWorkflow d) (approvalWorkflow d') ->
  numbered d -> numbered d'.
Proof.
  intros Hs Hw Hn w' Hw'.
  rewrite (steps_of_kept sid _ d d' Hs).
  assert (exists w, In w (approvalWorkflow d) /\ workflow_kept wid w w')
    as (w & Hin & Hk).
  { clear - Hw Hw'. induction Hw as [|x y l l' Hxy _ IH]; [contradiction|].
    destruct Hw' as [->|Hw']; [exists x; split; [left; reflexivity|exact Hxy]|].
    destruct (IH Hw') as (w & Hin & Hk). exists w. split; [right; exact Hin|exact Hk]. }
  destruct Hk as (_ & Hid & _ & _ & _ & Htot & _). rewrite Hid, Htot. apply Hn, Hin.
Qed.

Lemma numbered_create env req d :
  consistent d -> numbered d -> numbered (snd (run (create req) env d)).
Proof.
  intros Hc Hn.
  destruct (create_cases env d req)
    as [E|(wid & sids & steps & rows & w & _ & _ & Hlen & Hf1 & _ & Hrows & Hid & _ & _
           & Htot & E)];
    rewrite E; [exact Hn|].
  apply fresh_ids_spec in Hf1. destruct Hf1 as [_ Hf1].
  apply step_rows_created in Hrows. destruct Hrows as [Hshape Horders].
  assert (Hrow : forall x, In x rows -> WorkflowStep.workflowId x = wid).
  { apply (Forall2_right _ _ _ _) with (2 := Hshape). intros p x H. apply H. }
  assert (Hnew : filter (fun s => String.eqb (WorkflowStep.workflowId s) wid) rows = rows).
  { apply filter_all. intros x Hx. apply String.eqb_eq. auto. }
  assert (Hold : filter (fun s => String.eqb (WorkflowStep.workflowId s) wid) (workflowStep d)
                 = []).
  { apply filter_none. intros x Hx. apply String.eqb_neq. intros Ex.
    destruct (step_workflow d Hc x Hx) as (w0 & Hw0 & Ew0).
    apply (Hf1 wid); [left; reflexivity|]. rewrite <- Ex, <- Ew0. apply in_map. exact Hw0. }
  intros w' Hw'. unfold steps_of. simpl in *.
  rewrite filter_app, map_app.
  apply in_app_or in Hw'. destruct Hw' as [Hw'|[Hw'|[]]].
  - replace (filter _ rows) with (@nil WorkflowStep.t); [rewrite app_nil_r; apply Hn, Hw'|].
    symmetry. apply filter_none. intros x Hx. apply String.eqb_neq.
    rewrite (Hrow x Hx). intros Ex. apply (Hf1 wid); [left; reflexivity|].
    rewrite Ex. apply in_map. exact Hw'.
  - subst w'. rewrite Hid, Hold, Hnew, Horders, Htot. simpl.
    rewrite length_combine, Hlen, Nat.min_id. unfold len. rewrite Nat2Z.id. reflexivity.
Qed.

Lemma numbered_decideStep env req d :
  numbered d -> numbered (snd (run (decideStep req) env d)).
Proof.
  intros Hn.
  destruct (decideStep_cases env d req) as [(r & E & _)|(a & v & s & w & _ & _ & _ & E)];
    rewrite E; [exact Hn|].
  destruct (decided_rows env d req a v s w) as [Hs Hw].
  apply (numbered_kept _ _ _ _ Hs Hw Hn).
Qed.

Lemma numbered_cancel env req d :
  numbered d -> numbered (snd (run (cancel req) env d)).
Proof.
  intros Hn.
  destruct (cancel_cases env d req) as [E|(a & w & _ & _ & _ & E)]; rewrite E; [exact Hn|].
  apply (numbered_kept "" (x_id req) d); [|apply write_workflow_kept|exact Hn].
  apply Forall2_same. intros. apply step_kept_same.
Qed.

Lemma reachable_numbered d : reachable d -> numbered d.
Proof.
  induction 1 as [|env req d Hr IH|env req d Hr IH|env req d Hr IH].
  - intros w [].
  - apply numbered_create; [apply reachable_consistent; exact Hr|exact IH].
  - apply numbered_decideStep, IH.
  - apply numbered_cancel, IH.
Qed.

End ApprovalsHandlers.

(** ** The read handlers of the approvals router *)

Module ApprovalsQueriesFacts.
Import Prisma Approvals ApprovalsSpec ApprovalsRows ApprovalsFacts ApprovalsHandlers.
Import ApprovalsQueries ApprovalsAnswers.

(** *** One workflow *)

(** The answer of [GET /:id], when identifiers are a key and the lookup
    goes through. *)
Lemma get_run env d req a :
  NoDup (map ApprovalWorkflow.id (approvalWorkflow d)) ->
  truthy (g_agent req) = Some a ->
  fault env 0 = false ->
  run (get req) env d
  = (Ok match find_workflow (g_id req) d with
        | Some w =>
            if String.eqb (ApprovalWorkflow.requesterId w) a
            then json 200 (workflow (with_steps d w))
            else json 404 (message "Workflow not found")
        | None => json 404 (message "Workflow not found")
        end, d).
Proof.
  intros Hnd Ha H0.
  unfold run, get, try_catch, bind. rewrite Ha.
  unfold approvalWorkflow_findFirst_include, call. simpl. rewrite H0.
  destruct (find_workflow (g_id req) d) as [w|] eqn:Hw.
  - rewrite (requester_finds d _ a w Hnd Hw).
    destruct (String.eqb (ApprovalWorkflow.requesterId w) a); reflexivity.
  - rewrite (find_first_absent_key d (g_id req) a Hw). reflexivity.
Qed.

Lemma numbered_in_order d w :
  numbered d -> In w (approvalWorkflow d) ->
  with_steps d w = (w, steps_of (ApprovalWorkflow.id w) d).
Proof.
  intros Hn Hin. unfold with_steps.
  rewrite (order_steps_upto _ 1); [reflexivity|].
  rewrite (Hn w Hin). f_equal.
  rewrite <- (length_map WorkflowStep.stepOrder), (Hn w Hin).
  clear. generalize 1. induction (Z.to_nat _); intros; simpl; congruence.
Qed.

(** X10. To an authenticated agent, [GET /:id] answers 404 for a workflow
    that does not exist or that another agent requested, and otherwise 200
    with the workflow and all its steps; it writes nothing. In a database
    that the handlers have produced, the steps of the answer carry the
    orders 1, 2, ..., [totalSteps], in this order. *)
Theorem get_answers_requester env d req a :
  reachable d ->
  truthy (g_agent req) = Some a ->
  fault env 0 = false ->
  run (get req) env d
  = (Ok match find_workflow (g_id req) d with
        | Some w =>
            if String.eqb (ApprovalWorkflow.requesterId w) a
            then json 200 (workflow (w, steps_of (ApprovalWorkflow.id w) d))
            else json 404 (message "Workflow not found")
        | None => json 404 (message "Workflow not found")
        end, d) /\
  forall w,
    find_workflow (g_id req) d = Some w ->
    map WorkflowStep.stepOrder (steps_of (ApprovalWorkflow.id w) d)
    = upto 1 (Z.to_nat (ApprovalWorkflow.totalSteps w)).
Proof.
  intros Hr Ha H0.
  pose proof (reachable_consistent d Hr) as Hc.
  pose proof (reachable_numbered d Hr) as Hn.
  split.
  - rewrite (get_run env d req a (workflow_key d Hc) Ha H0).
    destruct (find_workflow (g_id req) d) as [w|] eqn:Hw; [|reflexivity].
    apply find_workflow_In in Hw. destruct Hw as [Hin _].
    rewrite (numbered_in_order d w Hn Hin). reflexivity.
  - intros w Hw. apply find_workflow_In in Hw. apply Hn, Hw.
Qed.

Lemma get_answers_requester_witness :
  run (get {| g_agent := Some "agent-7"; g_id := "id0" |}) calm refund_pending
  = (Ok match find_workflow "id0" refund_pending with
        | Some w =>
            if String.eqb (ApprovalWorkflow.requesterId w) "agent-7"
            then json 200 (workflow (w, steps_of (ApprovalWorkflow.id w) refund_pending))
            else json 404 (message "Workflow not found")
        | None => json 404 (message "Workflow not found")
        end, refund_pending) /\
  forall w,
    find_workflow "id0" refund_pending = Some w ->
    map WorkflowStep.stepOrder (steps_of (ApprovalWorkflow.id w) refund_pending)
    = upto 1 (Z.to_nat (ApprovalWorkflow.totalSteps w)).
Proof.
  apply (get_answers_requester calm refund_pending
           {| g_agent := Some "agent-7"; g_id := "id0" |} "agent-7");
    [exact refund_pending_reachable|reflexivity|reflexivity].
Defined.

(** What the create handler has done when it answers 201. *)
Lemma create_response env d req r d' :
  run (create req) env d = (Ok r, d') ->
  Approvals.code r = 201 ->
  exists a w rows,
    truthy (c_agent req) = Some a /\
    ApprovalWorkflow.requesterId w = a /\
    ~ In (ApprovalWorkflow.id w) (map ApprovalWorkflow.id (approvalWorkflow d)) /\
    d' = {| approvalWorkflow := approvalWorkflow d ++ [w];
            workflowStep := workflowStep d ++ rows |} /\
    r = Approvals.json 201 (Approvals.workflow (Some (with_steps d' w))).
Proof.
  intros Hres Hcode.
  remember (run (create req) env d) as res eqn:E.
  unfold run, create, try_catch in E.
  destruct (truthy (c_agent req)) as [a|] eqn:Ha; [|not_created].
  destruct (truthy (c_requestType req)) as [ty|]; [|not_created].
  destruct (truthy (c_requestId req)) as [rid|]; [|not_created].
  destruct (truthy (c_description req)) as [de|]; [|not_created].
  destruct (c_steps req) as [steps|]; [|not_created].
  destruct (Z.eqb_spec (len steps) 0) as [E0|E0]; [not_created|].
  unfold bind at 1, new_id at 1 in E. unfold bind at 1 in E.
  rewrite new_ids_cuids in E. simpl db in E. simpl tick in E.
  unfold bind at 1, approvalWorkflow_create, call in E. simpl db in E. simpl tick in E.
  destruct (fault env _); [not_created|].
  destruct (WorkflowType.of_string ty) as [t|]; [|not_created].
  destruct (WorkflowPriority.of_string _) as [p|]; [|not_created].
  destruct (all_rows _) as [rows|]; [|not_created].
  destruct (fresh_ids [cuid env 0%nat] _) eqn:Hf1; [|not_created].
  destruct (fresh_ids (cuids env 1 (List.length steps)) _); [|not_created].
  simpl in E. rewrite E in Hres. inversion Hres as [[Er Ed]]. clear Hres.
  apply fresh_ids_spec in Hf1. destruct Hf1 as [_ Hf1].
  match type of Ed with
  | {| approvalWorkflow := _ ++ [?w]; workflowStep := _ |} = _ => exists a, w, rows
  end.
  split; [reflexivity|]. split; [reflexivity|].
  split; [apply Hf1; left; reflexivity|]. split; reflexivity.
Qed.

Lemma find_workflow_appended d w rows :
  ~ In (ApprovalWorkflow.id w) (map ApprovalWorkflow.id (approvalWorkflow d)) ->
  find_workflow (ApprovalWorkflow.id w)
    {| approvalWorkflow := approvalWorkflow d ++ [w]; workflowStep := rows |} = Some w.
Proof.
  intros Hnew. unfold find_workflow, find_first. simpl.
  induction (approvalWorkflow d) as [|x t IH]; simpl.
  - rewrite String.eqb_refl. reflexivity.
  - destruct (String.eqb_spec (ApprovalWorkflow.id x) (ApprovalWorkflow.id w)) as [E|E].
    + exfalso. apply Hnew. left. exact E.
    + apply IH. intros Hin. apply Hnew. right. exact Hin.
Qed.

(** X11. What the create handler answers is what [GET /:id] answers right
    after: in a database that the handlers have produced, when a creation
    is answered 201 with a workflow and its steps, a request for that
    workflow by the same agent is answered 200 with the same workflow and
    the same steps. *)
Theorem create_then_get env env' d req r d' :
  reachable d ->
  run (create req) env d = (Ok r, d') ->
  Approvals.code r = 201 ->
  fault env' 0 = false ->
  exists w steps,
    Approvals.body r = Approvals.workflow (Some (w, steps)) /\
    run (get {| g_agent := c_agent req; g_id := ApprovalWorkflow.id w |}) env' d'
    = (Ok (json 200 (workflow (w, steps))), d').
Proof.
  intros Hr Hres Hcode H0.
  assert (Hr' : reachable d').
  { replace d' with (snd (run (create req) env d)) by (rewrite Hres; reflexivity).
    apply reach_create, Hr. }
  pose proof (reachable_consistent d' Hr') as Hc'.
  destruct (create_response env d req r d' Hres Hcode)
    as (a & w & rows & Ha & Hreq & Hnew & Ed' & Er).
  exists w, (snd (with_steps d' w)). split; [rewrite Er; reflexivity|].
  rewrite (get_run env' d' _ a (workflow_key d' Hc')); [|exact Ha|exact H0].
  simpl g_id. rewrite Ed' at 1. rewrite (find_workflow_appended d w _ Hnew).
  rewrite Hreq, String.eqb_refl. reflexivity.
Qed.

Lemma create_then_get_witness :
  exists w steps,
    Approvals.body
      (Approvals.json 201
         (Approvals.workflow (Some (refund_workflow, workflowStep refund_pending))))
    = Approvals.workflow (Some (w, steps)) /\
    run (get {| g_agent := c_agent refund_request; g_id := ApprovalWorkflow.id w |})
        calm refund_pending
    = (Ok (json 200 (workflow (w, steps))), refund_pending).
Proof.
  apply (create_then_get calm calm empty refund_request
           (Approvals.json 201
              (Approvals.workflow (Some (refund_workflow, workflowStep refund_pending))))
           refund_pending).
  - apply reach_empty.
  - exact refund_pending_created.
  - reflexivity.
  - reflexivity.
Defined.

(** *** Pending approvals *)

Lemma awaits_sound a s :
  awaits a s = true ->
  WorkflowStep.approverId s = Some a /\ WorkflowStep.status s = StepStatus.PENDING.
Proof.
  unfold awaits. intros H. apply andb_prop in H. destruct H as [Ha Hst].
  destruct (WorkflowStep.approverId s) as [a'|]; [|discriminate].
  apply String.eqb_eq in Ha. subst a'.
  destruct (WorkflowStep.status s); try discriminate. auto.
Qed.

(** What being in the pending approvals of agent [a] says of a step. *)
Lemma awaited_sound env d preq a w s :
  truthy (p_agent preq) = Some a ->
  awaited (fst (run (pending preq) env d)) w s ->
  In w (approvalWorkflow d) /\ In s (workflowStep d) /\
  WorkflowStep.workflowId s = ApprovalWorkflow.id w /\
  WorkflowStep.approverId s = Some a /\
  WorkflowStep.status s = StepStatus.PENDING /\
  live (ApprovalWorkflow.status w).
Proof.
  intros Ha (l & steps & E & Hin & Hs).
  unfold run, pending, try_catch, bind in E. rewrite Ha in E.
  unfold approvalWorkflow_findMany_pending, call in E. simpl in E.
  destruct (fault env 0); [discriminate|]. simpl in E.
  inversion E; subst l. clear E.
  apply in_map_iff in Hin. destruct Hin as (w0 & Ew & Hw0). inversion Ew; subst w0 steps.
  apply filter_In in Hw0. destruct Hw0 as [Hw Hopen]. apply andb_prop in Hopen.
  destruct Hopen as [Hopen _].
  apply filter_In in Hs. destruct Hs as [Hs Haw]. unfold steps_of in Hs.
  apply filter_In in Hs. destruct Hs as [Hs Hwid]. apply String.eqb_eq in Hwid.
  apply awaits_sound in Haw. destruct Haw as [Happ Hst].
  repeat split; try assumption.
  unfold is_open in Hopen. unfold live.
  destruct (ApprovalWorkflow.status w); try discriminate; auto.
Qed.

Lemma no_faults_decided env d req a v st s w :
  no_faults env ->
  StepStatus.of_string v = Some st ->
  exists r, fst (decided env d req a v s w) = Ok r /\ Approvals.code r = 200.
Proof.
  intros Hnf Hst. unfold decided. rewrite !Hnf, Hst.
  destruct (has_keys _); eexists; split; reflexivity.
Qed.

(** X12. A step that the pending approvals of an agent show can be decided
    by that agent exactly when it is the current step of its workflow:
    then an APPROVED or REJECTED verdict is answered 200 when no call
    rejects, and afterwards the step is in nobody's pending approvals;
    otherwise the verdict is answered 400 and nothing is written. *)
Theorem pending_approval_decided_when_current env0 env env1 d preq req a w s :
  reachable d ->
  truthy (p_agent preq) = Some a ->
  awaited (fst (run (pending preq) env0 d)) w s ->
  truthy (d_agent req) = Some a ->
  d_workflowId req = ApprovalWorkflow.id w ->
  d_stepId req = WorkflowStep.id s ->
  verdict req ->
  no_faults env ->
  (WorkflowStep.stepOrder s = ApprovalWorkflow.currentStep w ->
   (exists r, fst (run (decideStep req) env d) = Ok r /\ Approvals.code r = 200) /\
   forall preq' w' s',
     awaited (fst (run (pending preq') env1 (snd (run (decideStep req) env d)))) w' s' ->
     WorkflowStep.id s' <> WorkflowStep.id s) /\
  (WorkflowStep.stepOrder s <> ApprovalWorkflow.currentStep w ->
   run (decideStep req) env d
   = (Ok (Approvals.json 400 (Approvals.message "This step is not currently active")), d)).
Proof.
  intros Hr Hpa Haw Ha Hwid Hsid Hv Hnf.
  pose proof (reachable_consistent d Hr) as Hc.
  destruct (awaited_sound env0 d preq a w s Hpa Haw) as (Hw & Hs & Hsw & Happ & Hst & _).
  assert (Hfs : find_step (d_stepId req) d = Some s).
  { unfold find_step. destruct (find_first _ (workflowStep d)) as [s0|] eqn:E.
    - pose proof (find_first_key WorkflowStep.id _ _ _ E) as [Hid Hin].
      f_equal. apply (key_determines_row WorkflowStep.id (workflowStep d));
        [apply (step_key d Hc)|assumption|assumption|congruence].
    - exfalso. eapply find_none in E; [|exact Hs]. simpl in E.
      rewrite Hsid, String.eqb_refl in E. discriminate. }
  assert (Hfw : find_workflow (d_workflowId req) d = Some w).
  { unfold find_workflow. destruct (find_first _ (approvalWorkflow d)) as [w0|] eqn:E.
    - pose proof (find_first_key ApprovalWorkflow.id _ _ _ E) as [Hid Hin].
      f_equal. apply (key_determines_row ApprovalWorkflow.id (approvalWorkflow d));
        [apply (workflow_key d Hc)|assumption|assumption|congruence].
    - exfalso. eapply find_none in E; [|exact Hw]. simpl in E.
      rewrite Hwid, String.eqb_refl in E. discriminate. }
  destruct (truthy (d_status req)) as [v|] eqn:Hst'.
  2:{ exfalso. unfold verdict in Hv. unfold truthy in Hst'.
      destruct Hv as [E|E]; rewrite E in Hst'; discriminate. }
  destruct (truthy_verdict req v Hv Hst') as [[Ev Est]|[Ev Est]];
    (assert (Hf : finds d req a v s w)
      by (apply finds_by_key; try assumption; [apply (step_key d Hc)|congruence]));
    (split; [intros Hact|intros Hact;
       apply (decideStep_not_active env d req a v s w Hf); [congruence|apply Hnf]]);
    rewrite (decideStep_run env d req a v s w Hf (eq_sym Hact) (Hnf _));
    (split; [eapply no_faults_decided; eassumption|]);
    intros preq' w' s' Haw' Eid;
    (destruct (truthy (p_agent preq')) as [a'|] eqn:Hpa';
     [|destruct Haw' as (l & steps & E & _); unfold run, pending, try_catch in E;
       rewrite Hpa' in E; discriminate]);
    destruct (awaited_sound _ _ _ _ _ _ Hpa' Haw') as (_ & Hs' & _ & _ & Hst'' & _);
    rewrite (decided_both_written env d req a v _ s w Est
               (verdict_has_keys v s w _ (ltac:(subst v; auto))) (Hnf _) (Hnf _)) in Hs';
    simpl in Hs'; apply in_update_where in Hs'; destruct Hs' as (r0 & _ & Er0);
    rewrite Hsid in Er0;
    (destruct (String.eqb_spec (WorkflowStep.id r0) (WorkflowStep.id s)) as [E0|E0];
     [subst s'; simpl in Hst''; discriminate|subst s'; contradiction]).
Qed.

Lemma supervisor_awaited :
  awaited (fst (run (pending {| p_agent := Some "supervisor-1" |}) calm refund_pending))
    refund_workflow (refund_step "id1" 1 "supervisor-1" false).
Proof.
  exists [(refund_workflow, [refund_step "id1" 1 "supervisor-1" false])],
         [refund_step "id1" 1 "supervisor-1" false].
  split; [reflexivity|]. split; left; reflexivity.
Qed.

Lemma pending_approval_decided_when_current_witness :
  let req := decision "id1" "supervisor-1" "APPROVED" in
  let s := refund_step "id1" 1 "supervisor-1" false in
  (WorkflowStep.stepOrder s = ApprovalWorkflow.currentStep refund_workflow ->
   (exists r, fst (run (decideStep req) calm refund_pending) = Ok r /\
              Approvals.code r = 200) /\
   forall preq' w' s',
     awaited (fst (run (pending preq') calm (snd (run (decideStep req) calm refund_pending))))
       w' s' ->
     WorkflowStep.id s' <> WorkflowStep.id s) /\
  (WorkflowStep.stepOrder s <> ApprovalWorkflow.currentStep refund_workflow ->
   run (decideStep req) calm refund_pending
   = (Ok (Approvals.json 400 (Approvals.message "This step is not currently active")),
      refund_pending)).
Proof.
  apply (pending_approval_decided_when_current calm calm calm refund_pending
           {| p_agent := Some "supervisor-1" |}
           (decision "id1" "supervisor-1" "APPROVED") "supervisor-1"
           refund_workflow (refund_step "id1" 1 "supervisor-1" false)).
  - exact refund_pending_reachable.
  - reflexivity.
  - exact supervisor_awaited.
  - reflexivity.
  - reflexivity.
  - reflexivity.
  - left. reflexivity.
  - intros n. reflexivity.
Defined.

(** X13. While decisions carry one of the two verdicts and their calls
    go through, the pending approvals of an agent never show a step that
    its workflow has passed: every step shown is the current step or a
    later one. *)
Theorem pending_approvals_are_ahead env d preq a w s :
  orderly d ->
  truthy (p_agent preq) = Some a ->
  awaited (fst (run (pending preq) env d)) w s ->
  ApprovalWorkflow.currentStep w <= WorkflowStep.stepOrder s.
Proof.
  intros Ho Hpa Haw.
  destruct (awaited_sound env d preq a w s Hpa Haw) as (Hw & Hs & Hsw & _ & Hst & Hlive).
  pose proof (orderly_in_order d Ho) as Hio.
  destruct (Z.le_gt_cases (ApprovalWorkflow.currentStep w) (WorkflowStep.stepOrder s))
    as [Hle|Hgt]; [exact Hle|exfalso].
  assert (Hpending : ApprovalWorkflow.status w = WorkflowStatus.PENDING).
  { destruct Hlive as [E|E]; [exact E|]. exfalso. apply (never_in_progress d Hio w Hw E). }
  destruct (pending_prefix d Hio w s Hw Hpending Hs Hsw) as [Hpassed _].
  rewrite (Hpassed Hgt) in Hst. discriminate.
Qed.

Lemma refund_pending_orderly : orderly refund_pending.
Proof.
  change refund_pending with (snd (run (create refund_request) calm empty)).
  apply orderly_create, orderly_empty.
Qed.

Lemma pending_approvals_are_ahead_witness :
  ApprovalWorkflow.currentStep refund_workflow
  <= WorkflowStep.stepOrder (refund_step "id2" 2 "admin-1" true).
Proof.
  apply (pending_approvals_are_ahead calm refund_pending {| p_agent := Some "admin-1" |}
           "admin-1" refund_workflow (refund_step "id2" 2 "admin-1" true)).
  - exact refund_pending_orderly.
  - reflexivity.
  - exists [(refund_workflow, [refund_step "id2" 2 "admin-1" true])],
           [refund_step "id2" 2 "admin-1" true].
    split; [reflexivity|]. split; left; reflexivity.
Defined.

(** *** The listing *)

Lemma Math_ceil_div_spec (a b : Z) :
  0 < b ->
  (Math_ceil_div a b - 1) * b < a <= Math_ceil_div a b * b.
Proof.
  intros Hb. unfold Math_ceil_div.
  pose proof (Z.mul_div_le (- a) b Hb).
  pose proof (Z.mul_succ_div_gt (- a) b Hb). nia.
Qed.

Lemma limit_positive req : 0 < limit_of req.
Proof. unfold limit_of. destruct (l_limit req); lia. Qed.

Lemma page_positive req : 1 <= page_of req.
Proof. unfold page_of. destruct (l_page req); lia. Qed.

(** The listing, call by call, for an agent and filters that the client
    accepts. *)
Lemma listing_run env d req a q :
  truthy (l_agent req) = Some a ->
  where_of a req = Ok q ->
  fault env 0 = false -> fault env 1 = false ->
  run (listing req) env d
  = (Ok (json 200
           (workflows
              (map (with_steps d)
                 (firstn (Z.to_nat (limit_of req))
                    (skipn (Z.to_nat ((page_of req - 1) * limit_of req))
                       (newest_first (filter (matches q) (approvalWorkflow d))))))
              {| currentPage := page_of req;
                 totalPages :=
                   Math_ceil_div (len (filter (matches q) (approvalWorkflow d)))
                                 (limit_of req);
                 totalItems := len (filter (matches q) (approvalWorkflow d));
                 itemsPerPage := limit_of req |})), d).
Proof.
  intros Ha Hq H0 H1.
  unfold run, listing, try_catch, bind. rewrite Ha, Hq.
  unfold approvalWorkflow_findMany, approvalWorkflow_count, call. simpl.
  rewrite H0. simpl. rewrite H1. reflexivity.
Qed.

(** X14. For an authenticated agent and filters of the enums, the listing
    answers 200 with at most [limit] workflows, each one requested by the
    agent and matching the filters; [totalItems] counts all the agent's
    workflows that match, and [totalPages] is the number [n] of pages
    they fill: [(n - 1) * limit < totalItems <= n * limit]. Nothing is
    written. *)
Theorem listing_answers_a_page env d req a q :
  truthy (l_agent req) = Some a ->
  where_of a req = Ok q ->
  fault env 0 = false -> fault env 1 = false ->
  exists l pg,
    run (listing req) env d = (Ok (json 200 (workflows l pg)), d) /\
    len l <= limit_of req /\
    (forall w steps, In (w, steps) l ->
       In w (approvalWorkflow d) /\ ApprovalWorkflow.requesterId w = a /\
       matches q w = true) /\
    currentPage pg = page_of req /\
    itemsPerPage pg = limit_of req /\
    totalItems pg = len (filter (matches q) (approvalWorkflow d)) /\
    (totalPages pg - 1) * limit_of req < totalItems pg <= totalPages pg * limit_of req.
Proof.
  intros Ha Hq H0 H1.
  eexists. eexists. split; [apply (listing_run env d req a q Ha Hq H0 H1)|].
  pose proof (limit_positive req) as Hl.
  split; [|split; [|repeat split; try apply Math_ceil_div_spec; assumption]].
  - unfold len. rewrite length_map.
    pose proof (firstn_le_length (Z.to_nat (limit_of req))
                  (skipn (Z.to_nat ((page_of req - 1) * limit_of req))
                     (newest_first (filter (matches q) (approvalWorkflow d))))).
    lia.
  - intros w steps Hin. apply in_map_iff in Hin. destruct Hin as (w0 & Ew & Hw0).
    inversion Ew; subst w0. clear Ew.
    apply In_firstn, In_skipn in Hw0. unfold newest_first in Hw0. apply in_rev in Hw0.
    apply filter_In in Hw0. destruct Hw0 as [Hw Hm]. split; [exact Hw|]. split; [|exact Hm].
    assert (Eq : where_requesterId q = a).
    { clear - Hq. unfold where_of in Hq.
      destruct (where_key _ (l_status req)); [|discriminate].
      destruct (where_key _ (l_requestType req)); [|discriminate].
      destruct (where_key _ (l_priority req)); [|discriminate].
      inversion Hq. reflexivity. }
    unfold matches in Hm. rewrite Eq in Hm.
    destruct (String.eqb_spec (ApprovalWorkflow.requesterId w) a); [assumption|discriminate].
Qed.

Lemma listing_answers_a_page_witness :
  exists l pg,
    run (listing {| l_agent := Some "agent-7"; l_page := None; l_limit := None;
                    l_status := Some "PENDING"; l_requestType := None;
                    l_priority := None |}) calm refund_pending
    = (Ok (json 200 (workflows l pg)), refund_pending) /\
    len l <= 10 /\
    (forall w steps, In (w, steps) l ->
       In w (approvalWorkflow refund_pending) /\
       ApprovalWorkflow.requesterId w = "agent-7" /\
       matches {| where_requesterId := "agent-7";
                  where_status := Some WorkflowStatus.PENDING;
                  where_requestType := None; where_priority := None |} w = true) /\
    currentPage pg = 1 /\
    itemsPerPage pg = 10 /\
    totalItems pg = 1 /\
    (totalPages pg - 1) * 10 < totalItems pg <= totalPages pg * 10.
Proof.
  apply (listing_answers_a_page calm refund_pending
           {| l_agent := Some "agent-7"; l_page := None; l_limit := None;
              l_status := Some "PENDING"; l_requestType := None; l_priority := None |}
           "agent-7"
           {| where_requesterId := "agent-7"; where_status := Some WorkflowStatus.PENDING;
              where_requestType := None; where_priority := None |});
    reflexivity.
Defined.

(** X15. The pages of a listing partition it: asked one after the other
    with the same limit and filters, pages 1 to [totalPages] give every
    workflow of the agent that matches, once and newest first, and every
    page after [totalPages] is empty. *)
Theorem listing_pages_cover env d req a q :
  truthy (l_agent req) = Some a ->
  where_of a req = Ok q ->
  no_faults env ->
  let total := len (filter (matches q) (approvalWorkflow d)) in
  let n := Z.to_nat (Math_ceil_div total (limit_of req)) in
  pages env d req n
  = map (with_steps d) (newest_first (filter (matches q) (approvalWorkflow d))) /\
  forall k, (n <= k)%nat -> listed (fst (run (listing (at_page req k)) env d)) = [].
Proof.
  intros Ha Hq Hnf total n.
  pose proof (limit_positive req) as Hl.
  pose proof (Math_ceil_div_spec total (limit_of req) Hl) as Hceil. fold n in Hceil.
  set (L := newest_first (filter (matches q) (approvalWorkflow d))).
  set (m := Z.to_nat (limit_of req)).
  assert (Hlen : Z.of_nat (List.length L) = total).
  { unfold L, newest_first, total, len. rewrite length_rev. reflexivity. }
  assert (Hpage : forall k,
             listed (fst (run (listing (at_page req k)) env d))
             = map (with_steps d) (firstn m (skipn (k * m) L))).
  { intros k.
    rewrite (listing_run env d (at_page req k) a q Ha Hq (Hnf _) (Hnf _)).
    cbv beta iota delta [listed fst json body].
    change (limit_of (at_page req k)) with (limit_of req). fold L. fold m.
    assert (Ek : page_of (at_page req k) - 1 = Z.of_nat k).
    { unfold page_of, at_page. cbv beta iota delta [l_page].
      rewrite Zpos_P_of_succ_nat. lia. }
    rewrite Ek, Z2Nat.inj_mul by lia. rewrite Nat2Z.id. reflexivity. }
  assert (Hn : (List.length L <= n * m)%nat).
  { unfold n, m. apply Nat2Z.inj_le. rewrite Nat2Z.inj_mul, !Z2Nat.id; lia. }
  split.
  - unfold pages.
    rewrite (flat_map_ext _ (fun k => map (with_steps d) (firstn m (skipn (k * m) L))))
      by (intros k; apply Hpage).
    rewrite flat_map_map, chunks_prefix, firstn_all2 by exact Hn. reflexivity.
  - intros k Hk. rewrite Hpage, skipn_all2; [rewrite firstn_nil; reflexivity|].
    assert (0 < m)%nat by (unfold m; lia). nia.
Qed.

Lemma listing_pages_cover_witness :
  let req := {| l_agent := Some "agent-7"; l_page := None; l_limit := Some 1%positive;
                l_status := None; l_requestType := None; l_priority := None |} in
  let q := {| where_requesterId := "agent-7"; where_status := None;
              where_requestType := None; where_priority := None |} in
  let total := len (filter (matches q) (approvalWorkflow refund_pending)) in
  let n := Z.to_nat (Math_ceil_div total (limit_of req)) in
  pages calm refund_pending req n
  = map (with_steps refund_pending)
        (newest_first (filter (matches q) (approvalWorkflow refund_pending))) /\
  forall k, (n <= k)%nat ->
    listed (fst (run (listing (at_page req k)) calm refund_pending)) = [].
Proof.
  apply (listing_pages_cover calm refund_pending
           {| l_agent := Some "agent-7"; l_page := None; l_limit := Some 1%positive;
              l_status := None; l_requestType := None; l_priority := None |}
           "agent-7"
           {| where_requesterId := "agent-7"; where_status := None;
              where_requestType := None; where_priority := None |});
    [reflexivity|reflexivity|intros k; reflexivity].
Defined.

End ApprovalsQueriesFacts.

(** ** The bulk-booking router, handler by handler *)

Module BulkHandlers.
Import Prisma Bulk BulkSpec BulkRows BulkFacts Keeping.

(** *** One turn of the loop *)

(** One turn of the loop adds at most one appointment and writes at most
    the rows of its item, which it leaves FAILED, or SUCCESS and pointing
    to the appointment just made from the item. *)
Lemma process_item_shape b item env w :
  customer (db (snd (process_item b item env w))) = customer (db w) /\
  bulkBooking (db (snd (process_item b item env w))) = bulkBooking (db w) /\
  exists new,
    appointment (db (snd (process_item b item env w))) = (appointment (db w) ++ new)%list /\
    (bulkBookingItem (db (snd (process_item b item env w))) = bulkBookingItem (db w) \/
     exists u,
       bulkBookingItem (db (snd (process_item b item env w)))
       = update_where (item_is (BulkBookingItem.id item)) (set_item u)
           (bulkBookingItem (db w)) /\
       (id_status u = BulkItemStatus.FAILED \/
        (id_status u = BulkItemStatus.SUCCESS /\
         exists a,
           In a new /\
           id_appointmentId u = Some (Appointment.id a) /\
           Appointment.patientName a = BulkBookingItem.patientName item /\
           Appointment.patientEmail a = BulkBookingItem.patientEmail item /\
           Appointment.patientPhone a = BulkBookingItem.patientPhone item /\
           Appointment.doctorId a = BulkBookingItem.doctorId item /\
           Appointment.hospitalId a = BulkBookingItem.hospitalId item /\
           Appointment.appointmentDate a
           = Date_day (BulkBookingItem.appointmentDate item) /\
           Appointment.notes a = BulkBookingItem.notes item))).
Proof.
  unfold process_item, item_failed, try_catch, bind, Math_random_gt, new_Date, new_id,
    appointment_create, bulkBookingItem_update, call, bump, item_is.
  simpl.
  destruct (random env (tick w));
    repeat match goal with
           | |- context [fault env ?n] =>
               let E := fresh "F" in destruct (fault env n) eqn:E; simpl
           | |- context [if has_item ?i ?d then _ else _] =>
               let E := fresh "H" in destruct (has_item i d) eqn:E; simpl
           | |- context [if fresh_ids ?a ?b && fresh_ids ?c ?d then _ else _] =>
               destruct (fresh_ids a b && fresh_ids c d); simpl
           end;
    (split; [reflexivity|split; [reflexivity|]]);
    first
      [ exists []; split; [symmetry; apply app_nil_r|]; left; reflexivity
      | exists []; split; [symmetry; apply app_nil_r|]; right; eexists;
        split; [reflexivity|]; left; reflexivity
      | eexists; split; [reflexivity|]; left; reflexivity
      | eexists; split; [reflexivity|]; right; eexists;
        split; [reflexivity|]; left; reflexivity
      | eexists; split; [reflexivity|]; right; eexists;
        split; [reflexivity|]; right; split; [reflexivity|];
        eexists; split; [left; reflexivity|]; repeat split ].
Qed.

Lemma same_request_refl r : same_request r r.
Proof. unfold same_request. repeat split. Qed.

Lemma same_request_set_item u r : same_request r (set_item u r).
Proof. unfold same_request. simpl. repeat split. Qed.

Lemma Forall2_update_where_In {R} (P : R -> R -> Prop) (p : R -> bool) (f : R -> R)
    (t : list R) :
  (forall r, In r t -> P r (if p r then f r else r)) ->
  Forall2 P t (update_where p f t).
Proof.
  unfold update_where. induction t as [|r t IH]; intros H; simpl; constructor.
  - apply H. left. reflexivity.
  - apply IH. intros x Hx. apply H. right. exact Hx.
Qed.

Lemma Forall2_In_l {A B} (P : A -> B -> Prop) l l' x :
  Forall2 P l l' -> In x l -> exists y, In y l' /\ P x y.
Proof.
  induction 1 as [|a b l l' Hab _ IH]; intros Hin; [contradiction|].
  destruct Hin as [->|Hin]; [exists b; split; [left; reflexivity|exact Hab]|].
  destruct (IH Hin) as (y & Hy & Hxy). exists y. split; [right; exact Hy|exact Hxy].
Qed.

Lemma Forall2_In_r {A B} (P : A -> B -> Prop) l l' y :
  Forall2 P l l' -> In y l' -> exists x, In x l /\ P x y.
Proof.
  induction 1 as [|a b l l' Hab _ IH]; intros Hin; [contradiction|].
  destruct Hin as [->|Hin]; [exists a; split; [left; reflexivity|exact Hab]|].
  destruct (IH Hin) as (x & Hx & Hxy). exists x. split; [right; exact Hx|exact Hxy].
Qed.

Lemma Forall2_compose_In {A} (P Q R : A -> A -> Prop) (l1 l2 l3 : list A) :
  (forall x y z, In x l1 -> P x y -> Q y z -> R x z) ->
  Forall2 P l1 l2 -> Forall2 Q l2 l3 -> Forall2 R l1 l3.
Proof.
  intros H H12. revert l3 H.
  induction H12 as [|x y l1 l2 Hxy _ IH]; intros l3 H H23; inversion H23; subst;
    constructor.
  - eapply H; [left; reflexivity|eassumption|eassumption].
  - apply IH; [|assumption]. intros a b c Ha. apply H. right. exact Ha.
Qed.

Lemma processed_ids apps items t t' :
  Forall2 (processed apps items) t t' ->
  map BulkBookingItem.id t' = map BulkBookingItem.id t.
Proof.
  induction 1 as [|r r' t t' Hr _ IH]; [reflexivity|]. simpl. f_equal; [|exact IH].
  destruct Hr as [->|(_ & Hsame & _)]; [reflexivity|apply Hsame].
Qed.

(** *** The loop *)

Lemma process_items_effect b items :
  forall env w,
    NoDup (map BulkBookingItem.id (bulkBookingItem (db w))) ->
    NoDup (map BulkBookingItem.id items) ->
    incl items (bulkBookingItem (db w)) ->
    customer (db (snd (process_items b items env w))) = customer (db w) /\
    bulkBooking (db (snd (process_items b items env w))) = bulkBooking (db w) /\
    (exists new,
        appointment (db (snd (process_items b items env w)))
        = (appointment (db w) ++ new)%list) /\
    Forall2 (processed (appointment (db (snd (process_items b items env w)))) items)
      (bulkBookingItem (db w))
      (bulkBookingItem (db (snd (process_items b items env w)))).
Proof.
  induction items as [|item rest IH]; intros env w Hkey Hnd Hincl.
  - simpl. repeat split; [exists []; symmetry; apply app_nil_r|].
    apply Forall2_same. intros r. left. reflexivity.
  - simpl process_items. unfold bind.
    pose proof (process_item_shape b item env w) as (Hc & Hb & new & Happ & Hit).
    assert (Hitem : In item (bulkBookingItem (db w))) by (apply Hincl; left; reflexivity).
    inversion Hnd as [|x l Hnotin Hnd' Ex]; subst x l.
    (* the table after the turn *)
    assert (H1 : Forall2
                   (fun r r1 =>
                      r1 = r \/
                      (r = item /\ same_request r r1 /\
                       (BulkBookingItem.status r1 = BulkItemStatus.FAILED \/
                        (BulkBookingItem.status r1 = BulkItemStatus.SUCCESS /\
                         exists a, In a new /\ booked_for r1 a))))
                   (bulkBookingItem (db w))
                   (bulkBookingItem (db (snd (process_item b item env w))))).
    { destruct Hit as [E|(u & E & Hu)]; rewrite E.
      - apply Forall2_same. intros r. left. reflexivity.
      - apply Forall2_update_where_In. intros r Hr. unfold item_is.
        destruct (String.eqb_spec (BulkBookingItem.id r) (BulkBookingItem.id item))
          as [Eid|Eid]; [right|left; reflexivity].
        assert (r = item)
          by (apply (key_determines_row BulkBookingItem.id (bulkBookingItem (db w)));
              assumption).
        subst r. split; [reflexivity|]. split; [apply same_request_set_item|].
        destruct Hu as [Hf|(Hs & a & Ha & Haid & Hfields)]; [left; exact Hf|right].
        split; [exact Hs|]. exists a. split; [exact Ha|].
        unfold booked_for. simpl. rewrite Haid. simpl.
        destruct Hfields as (? & ? & ? & ? & ? & ? & ?). repeat split; assumption. }
    destruct (process_item b item env w) as [[[]|e] w1]; simpl in Hc, Hb, Happ, H1 |- *.
    2:{ split; [exact Hc|]. split; [exact Hb|]. split; [exists new; exact Happ|].
        eapply Forall2_impl; [|exact H1]. intros r r1 [->|(-> & Hsame & Hst)].
        - left. reflexivity.
        - right. split; [left; reflexivity|]. split; [exact Hsame|].
          destruct Hst as [Hf|(Hs & a & Ha & Hbk)]; [left; exact Hf|right].
          split; [exact Hs|]. exists a. split; [|exact Hbk].
          rewrite Happ. apply in_or_app. right. exact Ha. }
    assert (Hids1 : map BulkBookingItem.id (bulkBookingItem (db w1))
                    = map BulkBookingItem.id (bulkBookingItem (db w))).
    { clear - H1. induction H1 as [|r r1 t t1 Hr _ IH]; [reflexivity|]. simpl.
      f_equal; [|exact IH]. destruct Hr as [->|(_ & Hsame & _)]; [reflexivity|apply Hsame]. }
    assert (Hincl1 : incl rest (bulkBookingItem (db w1))).
    { intros r Hr.
      destruct (Forall2_In_l _ _ _ r H1 (Hincl r (or_intror Hr))) as (r1 & Hr1 & Hrel).
      destruct Hrel as [->|(-> & _)]; [exact Hr1|].
      exfalso. apply Hnotin. apply in_map. exact Hr. }
    destruct (IH env w1) as (Hc' & Hb' & (new' & Happ') & H2);
      [rewrite Hids1; exact Hkey|exact Hnd'|exact Hincl1|].
    split; [congruence|]. split; [congruence|].
    split; [exists (new ++ new')%list; rewrite Happ', Happ, app_assoc; reflexivity|].
    eapply Forall2_compose_In; [|exact H1|exact H2].
    intros r r1 r2 Hr Hr1 Hr2. simpl in Hr1.
    destruct Hr1 as [->|(-> & Hsame & Hst)].
    + destruct Hr2 as [->|(Hin & Hrest)]; [left; reflexivity|].
      right. split; [right; exact Hin|exact Hrest].
    + destruct Hr2 as [->|(Hin & _)].
      * right. split; [left; reflexivity|]. split; [exact Hsame|].
        destruct Hst as [Hf|(Hs & a & Ha & Hbk)]; [left; exact Hf|right].
        split; [exact Hs|]. exists a. split; [|exact Hbk].
        rewrite Happ', Happ. apply in_or_app. left. apply in_or_app. right. exact Ha.
      * exfalso. apply Hnotin. destruct Hsame as (Eid & _). rewrite <- Eid.
        apply in_map. exact Hin.
Qed.

(** *** [processaBulkBooking], whichever calls reject *)

Lemma booking_kept_refl bid b : booking_kept bid b b.
Proof. unfold booking_kept. repeat split. Qed.

Lemma bookings_kept_update bid u B B' :
  Forall2 (booking_kept bid) B B' ->
  Forall2 (booking_kept bid) B
    (update_where (fun r => String.eqb (BulkBooking.id r) bid) (set_booking u) B').
Proof.
  intros H. eapply Forall2_compose; [|exact H|].
  2:{ apply (Forall2_update_where (booking_kept bid)); [apply booking_kept_refl|].
      intros r Hr. apply String.eqb_eq in Hr. unfold booking_kept. simpl.
      repeat split. congruence. }
  intros x y z (Hxy & Exy) (Hyz & Eyz). unfold booking_kept. split.
  - intros Hne. rewrite Hyz; [apply Hxy, Hne|].
    destruct Exy as (Eid & _). rewrite Eid. exact Hne.
  - destruct Exy as (? & ? & ? & ? & ? & ? & ?), Eyz as (? & ? & ? & ? & ? & ? & ?).
    repeat split; congruence.
Qed.

Lemma processing_refl bid d : processing bid d d.
Proof.
  unfold processing. split; [reflexivity|].
  split; [apply Forall2_same; intros; apply booking_kept_refl|].
  split; [exists []; symmetry; apply app_nil_r|].
  apply Forall2_same. intros r. left. reflexivity.
Qed.

(** A write to booking [bid] after work on it is still work on it. *)
Lemma processing_update bid u env d w :
  processing bid d (db w) ->
  processing bid d (db (snd (bulkBooking_update bid u env w))).
Proof.
  intros (Hc & Hb & Ha & Hi).
  destruct (bulkBooking_update_effect bid u env w) as (Hc' & Hi' & Ha' & Hb').
  unfold processing. rewrite Hc', Hi', Ha'.
  split; [exact Hc|]. split; [|split; assumption].
  destruct Hb' as [E|E]; rewrite E; [exact Hb|]. apply bookings_kept_update, Hb.
Qed.

Lemma NoDup_map_filter {A B} (key : A -> B) (p : A -> bool) (t : list A) :
  NoDup (map key t) -> NoDup (map key (filter p t)).
Proof.
  induction t as [|r t IH]; intros H; [constructor|].
  simpl in *. inversion H as [|x l Hno Hnd]; subst.
  destruct (p r); [|apply IH, Hnd]. simpl. constructor; [|apply IH, Hnd].
  intros Hin. apply Hno. apply in_map_iff in Hin. destruct Hin as (x & Ex & Hx).
  apply filter_In in Hx. rewrite <- Ex. apply in_map. apply Hx.
Qed.

Lemma pending_items_keyed bid d :
  keyed d ->
  NoDup (map BulkBookingItem.id (pending_items bid d)) /\
  incl (pending_items bid d) (bulkBookingItem d).
Proof.
  intros Hk. unfold pending_items, items_of. split.
  - apply NoDup_map_filter, NoDup_map_filter, Hk.
  - intros r Hr. apply filter_In in Hr. destruct Hr as [Hr _].
    apply filter_In in Hr. apply Hr.
Qed.

Lemma try_effect bid env w :
  keyed (db w) ->
  processing bid (db w) (db (snd (processaBulkBooking_try bid env w))).
Proof.
  intros Hk. unfold processaBulkBooking_try.
  unfold bind at 1. unfold bulkBooking_findUnique_pending, call at 1.
  destruct (fault env (tick w)); [apply processing_refl|].
  destruct (find_booking bid (db w)) as [b|] eqn:Hb;
    cbv beta iota delta [option_map]; [|apply processing_refl].
  destruct (find_booking_id _ _ _ Hb) as [Hid _]. rewrite Hid.
  fold (pending_items bid (db w)).
  set (w1 := Build_World (db w) (S (tick w)) (started w)).
  unfold bind at 1.
  pose proof (processing_update bid (status_only BulkBookingStatus.PROCESSING) env
                (db w) w1 (processing_refl bid (db w))) as H2.
  destruct (bulkBooking_update_effect bid (status_only BulkBookingStatus.PROCESSING) env w1)
    as (_ & Hi2 & Ha2 & _).
  destruct (bulkBooking_update bid (status_only BulkBookingStatus.PROCESSING) env w1)
    as [[u2|e2] w2]; simpl in H2, Hi2, Ha2 |- *; [|exact H2].
  destruct (pending_items_keyed bid (db w) Hk) as [Hnd Hincl].
  unfold bind at 1.
  destruct (process_items_effect b (pending_items bid (db w)) env w2)
    as (Hc3 & Hb3 & (new & Ha3) & Hi3);
    [rewrite Hi2; exact Hk|exact Hnd|rewrite Hi2; exact Hincl|].
  assert (H3 : processing bid (db w)
                 (db (snd (process_items b (pending_items bid (db w)) env w2)))).
  { destruct H2 as (Hc2 & Hb2 & _ & _). unfold processing.
    split; [congruence|]. split; [rewrite Hb3; exact Hb2|].
    split; [exists new; rewrite Ha3, Ha2; reflexivity|].
    rewrite Hi2 in Hi3. exact Hi3. }
  destruct (process_items b (pending_items bid (db w)) env w2) as [[[]|e3] w3];
    simpl in H3 |- *; [|exact H3].
  unfold bind at 1. unfold bulkBookingItem_findMany, call at 1.
  destruct (fault env (tick w3)); [exact H3|]. simpl.
  unfold bind at 1, new_Date at 1. unfold bind at 1.
  match goal with
  | |- context [bulkBooking_update bid ?u env ?w4] =>
      pose proof (processing_update bid u env (db w) w4 H3) as H5;
      destruct (bulkBooking_update bid u env w4) as [[u5|e5] w5]
  end; exact H5.
Qed.

(** The whole of [processaBulkBooking], with its [catch] block. *)
Lemma process_effect bid env w :
  keyed (db w) ->
  processing bid (db w) (db (snd (processaBulkBooking bid env w))).
Proof.
  intros Hk. unfold processaBulkBooking, try_catch. unfold bind at 1.
  pose proof (try_effect bid env w Hk) as Ht.
  destruct (processaBulkBooking_try bid env w) as [[o|e] w1]; simpl in Ht |- *;
    [exact Ht|].
  unfold processaBulkBooking_catch. unfold bind at 1, new_Date at 1. unfold bind at 1.
  match goal with
  | |- context [bulkBooking_update bid ?u env ?w4] =>
      pose proof (processing_update bid u env (db w) w4 Ht) as H5;
      destruct (bulkBooking_update bid u env w4) as [[u5|e5] w5]
  end; exact H5.
Qed.

(** X16. A run of [processaBulkBooking] on booking [bid], whichever
    calls reject, leaves customers as they were and every booking other
    than [bid] too, only adds appointments, and writes no item other than
    those that were PENDING in booking [bid]; an item that it writes keeps
    its request and ends FAILED, or SUCCESS and pointing to an appointment
    made for its patient, doctor and hospital on the day of its date, the
    time of day of the date being dropped. *)
Theorem processBatch_touches_pending_items_only bid env d :
  keyed d ->
  processing bid d (snd (run (processaBulkBooking bid) env d)).
Proof.
  intros Hk. pose proof (process_effect bid env (Build_World d 0 []) Hk) as H.
  unfold run. destruct (processaBulkBooking bid env (Build_World d 0 [])) as [o w'].
  exact H.
Qed.

Lemma two_visits_pending_keyed : keyed two_visits_pending.
Proof. unfold keyed. repeat constructor; simpl; intuition discriminate. Qed.

Lemma processBatch_touches_pending_items_only_witness :
  processing "id1" two_visits_pending
    (snd (run (processaBulkBooking "id1") (unlucky_at 6) two_visits_pending)).
Proof.
  apply (processBatch_touches_pending_items_only "id1" (unlucky_at 6) two_visits_pending).
  exact two_visits_pending_keyed.
Defined.

(** X17. For an identifier that is no booking's, [processaBulkBooking]
    changes nothing, whichever calls reject. It returns when its first
    query goes through; when that query is rejected, the update of the
    [catch] block finds no booking either and the rejection leaves the
    function. *)
Theorem processBatch_unknown_booking bid env d :
  find_booking bid d = None ->
  snd (run (processaBulkBooking bid) env d) = d /\
  (fault env 0 = false -> fst (run (processaBulkBooking bid) env d) = Ok tt) /\
  (fault env 0 = true -> exists e, fst (run (processaBulkBooking bid) env d) = Throw e).
Proof.
  intros Hb.
  unfold run, processaBulkBooking, try_catch, processaBulkBooking_try,
    processaBulkBooking_catch, bind, bulkBooking_findUnique_pending, new_Date,
    bulkBooking_update, call.
  simpl. rewrite Hb.
  destruct (fault env 0); simpl.
  - destruct (fault env 1); simpl; rewrite ?Hb; simpl;
      (split; [reflexivity|]); (split; [discriminate|]); intros _; eexists; reflexivity.
  - split; [reflexivity|]. split; [reflexivity|discriminate].
Qed.

Lemma processBatch_unknown_booking_witness :
  snd (run (processaBulkBooking "id9") (failing_at 0) two_visits_pending)
  = two_visits_pending /\
  (fault (failing_at 0) 0 = false ->
   fst (run (processaBulkBooking "id9") (failing_at 0) two_visits_pending) = Ok tt) /\
  (fault (failing_at 0) 0 = true ->
   exists e, fst (run (processaBulkBooking "id9") (failing_at 0) two_visits_pending)
             = Throw e).
Proof.
  apply (processBatch_unknown_booking "id9" (failing_at 0) two_visits_pending).
  reflexivity.
Defined.

(** *** What lasts *)

Lemma lasting_preorder : preorder lasting.
Proof.
  split.
  - intros d Hk Hl. repeat split; auto.
  - intros d1 d2 d3 H12 H23 Hk Hl.
    destruct (H12 Hk Hl) as (Hk2 & Hl2 & Hi2 & Ha2).
    destruct (H23 Hk2 Hl2) as (Hk3 & Hl3 & Hi3 & Ha3).
    repeat split; auto.
Qed.

(** Tables of items and appointments that are as they were. *)
Lemma lasting_same d d' :
  bulkBookingItem d' = bulkBookingItem d -> appointment d' = appointment d ->
  lasting d d'.
Proof.
  intros Hi Ha Hk Hl. unfold keyed, linked. rewrite Hi, Ha. repeat split; auto.
Qed.

Lemma processing_lasting bid d d' : processing bid d d' -> lasting d d'.
Proof.
  intros (_ & _ & (new & Ha) & Hi) Hk Hl.
  assert (Happs : forall a, In a (appointment d) -> In a (appointment d')).
  { intros a Hin. rewrite Ha. apply in_or_app. left. exact Hin. }
  split; [unfold keyed; rewrite (processed_ids _ _ _ _ Hi); exact Hk|].
  split; [|split; [|exact Happs]].
  - intros i' Hi' Hs. destruct (Forall2_In_r _ _ _ i' Hi Hi') as (r & Hr & Hrel).
    destruct Hrel as [->|(_ & _ & [Hf|(_ & a & Hin & Hbk)])].
    + destruct (Hl r Hr Hs) as (a & Hin & Hbk). exists a. split; [apply Happs, Hin|exact Hbk].
    + rewrite Hf in Hs. discriminate.
    + exists a. split; assumption.
  - intros r Hr Hs. destruct (Forall2_In_l _ _ _ r Hi Hr) as (r' & Hr' & Hrel).
    destruct Hrel as [->|(Hpend & _)]; [exact Hr'|].
    exfalso. unfold pending_items in Hpend. apply filter_In in Hpend.
    destruct Hpend as [_ Hp]. unfold is_status in Hp. rewrite Hs in Hp. discriminate.
Qed.

Lemma keeps_process bid : keeps lasting (processaBulkBooking bid).
Proof.
  intros env w Hk. apply (processing_lasting bid _ _ (process_effect bid env w Hk) Hk).
Qed.

Lemma keeps_bulkBooking_update bid u : keeps lasting (bulkBooking_update bid u).
Proof.
  intros env w.
  destruct (bulkBooking_update_effect bid u env w) as (_ & Hi & Ha & _).
  apply lasting_same; assumption.
Qed.

Lemma keeps_customer_findFirst c a : keeps lasting (customer_findFirst c a).
Proof.
  apply (keeps_call _ lasting_preorder). intros d x d' H. inversion H.
  apply lasting_preorder.
Qed.

Lemma keeps_bulkBooking_findFirst bid a keep :
  keeps lasting (bulkBooking_findFirst bid a keep).
Proof.
  apply (keeps_call _ lasting_preorder). intros d x d' H. inversion H.
  apply lasting_preorder.
Qed.

Lemma keeps_resetFailed ids : keeps lasting (bulkBookingItem_resetFailed ids).
Proof.
  apply (keeps_call _ lasting_preorder). intros d x d' H. inversion H. clear H.
  intros Hk Hl. unfold keyed, linked. simpl.
  split; [rewrite (update_where_keys BulkBookingItem.id); [exact Hk|reflexivity]|].
  split; [|split; [|auto]].
  - intros i' Hi' Hs. apply in_update_where in Hi'. destruct Hi' as (r & Hr & E).
    destruct (_ && _) in E; subst i'; [discriminate|]. apply Hl; assumption.
  - intros r Hr Hs. unfold update_where.
    apply in_map_iff. exists r. split; [|exact Hr].
    unfold is_status. rewrite Hs, andb_false_r. reflexivity.
Qed.

Lemma item_rows_created bid c (ps : list (string * AppointmentInput)) :
  forall i rows,
    all_rows (mapi_from i (item_row bid c) ps) = Some rows ->
    Forall2 (fun p x => BulkBookingItem.id x = fst p /\ item_created bid c (snd p) x)
      ps rows /\
    map BulkBookingItem.sequenceNumber rows = ApprovalsRows.upto (i + 1) (List.length ps).
Proof.
  induction ps as [|[iid apt] ps IH]; intros i rows H.
  - simpl in H. inversion H. split; constructor.
  - cbn [mapi_from all_rows] in H.
    destruct (item_row bid c i (iid, apt)) as [x|] eqn:Hx; [|discriminate].
    destruct (all_rows (mapi_from (i + 1) (item_row bid c) ps)) as [rest|] eqn:Hrest;
      [|discriminate].
    cbv beta iota delta [option_map] in H. inversion H; subst rows.
    destruct (IH _ _ Hrest) as [IH1 IH2].
    unfold item_row in Hx.
    destruct (in_appointmentDate apt) as [date|] eqn:Hdate; [|discriminate].
    destruct (in_doctorId apt) as [doctor|] eqn:Hdoc; [|discriminate].
    destruct (in_hospitalId apt) as [hospital|] eqn:Hhosp; [|discriminate].
    inversion Hx; subst x. split.
    + constructor; [|exact IH1]. simpl. unfold item_created. simpl.
      repeat split; auto.
    + simpl. f_equal. exact IH2.
Qed.

Lemma keeps_bulkBooking_create bid iids number a c name description0 apts :
  keeps lasting (bulkBooking_create bid iids number a c name description0 apts).
Proof.
  intros env w. unfold bulkBooking_create.
  apply (fun f H => keeps_call lasting lasting_preorder f H env w).
  intros d x d' H.
  destruct (all_rows _) as [rows|] eqn:Hrows; [|discriminate].
  destruct (fresh_ids [bid] _ && fresh_ids [number] _); [|discriminate].
  destruct (fresh_ids iids _) eqn:Hf; [|discriminate].
  simpl in H. inversion H. clear H.
  apply fresh_ids_spec in Hf. destruct Hf as [Hnd Hfresh].
  apply item_rows_created in Hrows. destruct Hrows as [Hshape _].
  assert (Hids : map BulkBookingItem.id rows = map fst (combine iids apts)).
  { apply (Forall2_map_eq _ _ _ _ _) with (2 := Hshape). intros p y Hp. apply Hp. }
  assert (Hpending : forall y, In y rows ->
                       BulkBookingItem.status y = BulkItemStatus.PENDING).
  { apply (Forall2_right _ _ _ _) with (2 := Hshape). intros p y Hp. apply Hp. }
  intros Hk Hl. unfold keyed, linked. simpl.
  split; [|split; [|split; [|auto]]].
  - rewrite map_app, Hids. apply NoDup_app_disjoint; [exact Hk| |].
    + apply combine_fst_NoDup. exact Hnd.
    + intros i Hi. apply Hfresh. eapply combine_fst_incl. exact Hi.
  - intros i Hi Hs. apply in_app_or in Hi. destruct Hi as [Hi|Hi]; [apply Hl; assumption|].
    rewrite (Hpending i Hi) in Hs. discriminate.
  - intros i Hi _. apply in_or_app. left. exact Hi.
Qed.

Ltac keeping :=
  repeat first
    [ apply (keeps_ret _ lasting_preorder)
    | apply (keeps_new_Date _ lasting_preorder)
    | apply (keeps_new_id _ lasting_preorder)
    | apply (keeps_new_ids _ lasting_preorder)
    | apply keeps_customer_findFirst
    | apply keeps_bulkBooking_findFirst
    | apply keeps_bulkBooking_create
    | apply keeps_bulkBooking_update
    | apply keeps_resetFailed
    | apply (keeps_detached _ lasting_preorder)
    | apply (keeps_try_catch _ lasting_preorder); [|intros ?]
    | apply (keeps_bind _ lasting_preorder); [|intros ?]
    | match goal with
      | |- keeps _ (match ?x with _ => _ end) => destruct x
      end ].

Lemma keeps_submit req : keeps lasting (submit req).
Proof. unfold submit, internal_error. keeping. Qed.

Lemma keeps_cancel req : keeps lasting (cancel req).
Proof. unfold cancel, internal_error. keeping. Qed.

Lemma keeps_retry req : keeps lasting (retry req).
Proof. unfold retry, internal_error. keeping. Qed.

Lemma handled_lasting d d' : handled d d' -> lasting d d'.
Proof.
  intros [env req d0|env req d0|env req d0|env bid d0];
    apply (keeps_run lasting).
  - apply keeps_submit.
  - apply keeps_cancel.
  - apply keeps_retry.
  - apply keeps_process.
Qed.

Lemma produced_keyed_linked d : produced d -> keyed d /\ linked d.
Proof.
  induction 1 as [d Hi|d d' _ [Hk Hl] Hh].
  - unfold keyed, linked. rewrite Hi. split; [constructor|]. intros i [].
  - destruct (handled_lasting d d' Hh Hk Hl) as (Hk' & Hl' & _). split; assumption.
Qed.

(** X18. As long as invocations of the handlers and runs of
    [processaBulkBooking] do not overlap, what the bulk-booking router has
    booked stays booked: whichever of them comes next (submit, cancel,
    retry, or a run of [processaBulkBooking]), from its first call to its
    last with no other write in between, and whichever calls reject, every
    item that is SUCCESS is afterwards in the table as it was, and so is
    every appointment. *)
Theorem booked_items_stay_booked d d' :
  produced d ->
  handled d d' ->
  (forall i, In i (bulkBookingItem d) ->
     BulkBookingItem.status i = BulkItemStatus.SUCCESS -> In i (bulkBookingItem d')) /\
  (forall a, In a (appointment d) -> In a (appointment d')).
Proof.
  intros Hp Hh. destruct (produced_keyed_linked d Hp) as [Hk Hl].
  destruct (handled_lasting d d' Hh Hk Hl) as (_ & _ & Hi & Ha). split; assumption.
Qed.

(** X19. In every database that the router produces by invocations and
    runs of [processaBulkBooking] that do not overlap, faults included,
    item identifiers are a key and every SUCCESS item points to an
    appointment of the table made for the patient, the doctor and the
    hospital of the item, on the day of its date. *)
Theorem booked_items_have_appointments d :
  produced d ->
  NoDup (map BulkBookingItem.id (bulkBookingItem d)) /\
  forall i, In i (bulkBookingItem d) ->
    BulkBookingItem.status i = BulkItemStatus.SUCCESS ->
    exists a, In a (appointment d) /\ booked_for i a.
Proof.
  intros Hp. destruct (produced_keyed_linked d Hp) as [Hk Hl]. split; [exact Hk|exact Hl].
Qed.

Lemma two_visits_done_produced : produced two_visits_done.
Proof.
  apply (produced_next two_visits_pending).
  - apply (produced_next clinic); [apply produced_start; reflexivity|].
    change two_visits_pending with (snd (run (submit (visits 2)) (unlucky_at 0) clinic)).
    apply handled_submit.
  - change two_visits_done
      with (snd (run (processaBulkBooking "id1") (unlucky_at 6) two_visits_pending)).
    apply handled_process.
Qed.

Lemma booked_items_stay_booked_witness :
  let d' := snd (run (retry {| r_agent := Some "agent-7"; r_id := "id1";
                               r_itemIds := None |}) (unlucky_at 0) two_visits_done) in
  (forall i, In i (bulkBookingItem two_visits_done) ->
     BulkBookingItem.status i = BulkItemStatus.SUCCESS -> In i (bulkBookingItem d')) /\
  (forall a, In a (appointment two_visits_done) -> In a (appointment d')).
Proof.
  apply (booked_items_stay_booked two_visits_done).
  - exact two_visits_done_produced.
  - apply handled_retry.
Defined.

Lemma booked_items_have_appointments_witness :
  NoDup (map BulkBookingItem.id (bulkBookingItem two_visits_done)) /\
  forall i, In i (bulkBookingItem two_visits_done) ->
    BulkBookingItem.status i = BulkItemStatus.SUCCESS ->
    exists a, In a (appointment two_visits_done) /\ booked_for i a.
Proof.
  apply (booked_items_have_appointments two_visits_done).
  exact two_visits_done_produced.
Defined.

(** *** Submission *)

Ltac turned_down E :=
  left; rewrite E; eexists; eexists; (split; [reflexivity|simpl; lia]).

Lemma created_keyed d iids (apts : list AppointmentInput) bid c rows :
  keyed d ->
  fresh_ids iids (map BulkBookingItem.id (bulkBookingItem d)) = true ->
  all_rows (mapi (item_row bid c) (combine iids apts)) = Some rows ->
  NoDup (map BulkBookingItem.id (bulkBookingItem d ++ rows)).
Proof.
  intros Hk Hf Hrows.
  apply fresh_ids_spec in Hf. destruct Hf as [Hnd Hfresh].
  apply item_rows_created in Hrows. destruct Hrows as [Hshape _].
  assert (Hids : map BulkBookingItem.id rows = map fst (combine iids apts)).
  { apply (Forall2_map_eq _ _ _ _ _) with (2 := Hshape). intros p y Hp. apply Hp. }
  rewrite map_app, Hids. apply NoDup_app_disjoint; [exact Hk| |].
  - apply combine_fst_NoDup. exact Hnd.
  - intros i Hi. apply Hfresh. eapply combine_fst_incl. exact Hi.
Qed.

(** The invocation of the submit handler, as the world it leaves: either
    the database as it was and no call started, or the booking and its
    items inserted and [processaBulkBooking] started on the booking. *)
Lemma submit_world env d req :
  (exists r k, submit req env (Build_World d 0 []) = (Ok r, Build_World d k []) /\
               code r <> 201) \/
  (exists a c apts b rows k,
      truthy (s_agent req) = Some a /\
      s_appointments req = Some apts /\
      In c (customer d) /\
      truthy (s_customerId req) = Some (Customer.id c) /\
      Customer.agentId c = a /\
      submit req env (Build_World d 0 [])
      = (Ok (json 201 (booking (b, arrange (order env (S (S (List.length apts)))) rows))),
         Build_World
           (with_items (bulkBookingItem d ++ rows) (with_bookings (bulkBooking d ++ [b]) d))
           k [("processaBulkBooking", BulkBooking.id b)]) /\
      ~ In (BulkBooking.id b) (map BulkBooking.id (bulkBooking d)) /\
      BulkBooking.agentId b = a /\
      BulkBooking.customerId b = Customer.id c /\
      BulkBooking.status b = BulkBookingStatus.PROCESSING /\
      BulkBooking.successfulItems b = 0 /\
      BulkBooking.failedItems b = 0 /\
      BulkBooking.completedAt b = None /\
      BulkBooking.totalItems b = len apts /\
      0 < len apts /\
      Forall2 (item_created (BulkBooking.id b) c) apts rows /\
      map BulkBookingItem.sequenceNumber rows = ApprovalsRows.upto 1 (List.length apts)).
Proof.
  remember (submit req env (Build_World d 0 [])) as res eqn:E.
  unfold submit, try_catch in E.
  destruct (truthy (s_agent req)) as [a|] eqn:Ha; [|turned_down E].
  destruct (truthy (s_customerId req)) as [cid|] eqn:Hcid; [|turned_down E].
  destruct (truthy (s_batchName req)) as [name|]; [|turned_down E].
  destruct (s_appointments req) as [apts|] eqn:Hapts; [|turned_down E].
  destruct (Z.eqb_spec (len apts) 0) as [E0|E0]; [turned_down E|].
  unfold bind at 1, customer_findFirst, call at 1 in E. simpl in E.
  destruct (fault env 0); [turned_down E|].
  destruct (find_first _ (customer d)) as [c|] eqn:Hc; [|turned_down E].
  unfold bind at 1, new_Date at 1 in E. unfold bind at 1, new_id at 1 in E.
  unfold bind at 1 in E.
  rewrite (@ApprovalsHandlers.new_ids_cuids_any Db) in E.
  simpl db in E. simpl tick in E. simpl started in E.
  unfold bind at 1, bulkBooking_create, call at 1 in E.
  simpl db in E. simpl tick in E. simpl started in E.
  destruct (fault env _); [turned_down E|].
  destruct (all_rows _) as [rows|] eqn:Hrows; [|turned_down E].
  destruct (fresh_ids [cuid env 1%nat] _) eqn:Hf1; [|turned_down E].
  match type of E with
  | context [fresh_ids ?x (map BulkBooking.batchNumber ?y)] =>
      destruct (fresh_ids x (map BulkBooking.batchNumber y)) eqn:Hf2
  end; [|turned_down E].
  destruct (fresh_ids (ApprovalsRows.cuids env 2 (List.length apts)) _) eqn:Hf3;
    [|turned_down E].
  right. simpl andb in E. cbv iota beta in E.
  unfold bind, detached, ret in E. simpl in E.
  apply find_some in Hc. destruct Hc as [Hcin Hcp]. apply andb_prop in Hcp.
  destruct Hcp as [Hcid' Hcag]. apply String.eqb_eq in Hcid', Hcag.
  apply fresh_ids_spec in Hf1. destruct Hf1 as [_ Hf1].
  assert (Hlen : List.length (ApprovalsRows.cuids env 2 (List.length apts))
                 = List.length apts).
  { unfold ApprovalsRows.cuids. rewrite length_map, length_seq. reflexivity. }
  apply item_rows_created in Hrows. destruct Hrows as [Hshape Horders].
  exists a, c, apts. eexists. exists rows. eexists.
  split; [reflexivity|]. split; [reflexivity|]. split; [exact Hcin|].
  split; [rewrite Hcid'; reflexivity|]. split; [exact Hcag|].
  split; [exact E|]. simpl.
  split; [apply Hf1; left; reflexivity|].
  repeat (split; [reflexivity|]).
  split; [unfold len in *; lia|]. split.
  - apply (Forall2_combine_snd _ (ApprovalsRows.cuids env 2 (List.length apts)));
      [exact Hlen|].
    eapply Forall2_impl; [|exact Hshape]. intros q x H. apply H.
  - rewrite Horders. rewrite length_combine, Hlen, Nat.min_id. reflexivity.
Qed.

(** X20. The submit handler answers 201 only for a customer of the calling
    agent, after it has inserted one booking with one PENDING item per
    entry of [appointments], item [i] from entry [i] and filled from the
    customer where the entry names no patient. It answers before
    [processaBulkBooking] has done anything: the call is started and no
    more, the database is the old one with the booking and its items, and
    the body of the answer is the booking as inserted (PROCESSING, counters
    at zero) with these items, every one PENDING, in an order that the
    client chooses. With every other answer the database is as it was and
    no call is started. *)
Theorem submit_answers_before_processing env d req :
  (exists r, run (submit req) env d = (Ok r, d) /\ code r <> 201 /\
             launched (submit req) env d = []) \/
  (exists a c apts b rows body,
      truthy (s_agent req) = Some a /\
      s_appointments req = Some apts /\
      In c (customer d) /\
      truthy (s_customerId req) = Some (Customer.id c) /\
      Customer.agentId c = a /\
      run (submit req) env d
      = (Ok (json 201 (booking (b, body))),
         with_items (bulkBookingItem d ++ rows) (with_bookings (bulkBooking d ++ [b]) d)) /\
      launched (submit req) env d = [("processaBulkBooking", BulkBooking.id b)] /\
      Permutation body rows /\
      ~ In (BulkBooking.id b) (map BulkBooking.id (bulkBooking d)) /\
      BulkBooking.agentId b = a /\
      BulkBooking.customerId b = Customer.id c /\
      BulkBooking.status b = BulkBookingStatus.PROCESSING /\
      BulkBooking.successfulItems b = 0 /\
      BulkBooking.failedItems b = 0 /\
      BulkBooking.completedAt b = None /\
      BulkBooking.totalItems b = len apts /\
      0 < len apts /\
      Forall2 (item_created (BulkBooking.id b) c) apts rows /\
      map BulkBookingItem.sequenceNumber rows = ApprovalsRows.upto 1 (List.length apts)).
Proof.
  unfold run, launched.
  destruct (submit_world env d req)
    as [(r & k & E & Hcode)|(a & c & apts & b & rows & k & Ha & Hapts & Hc & Hcid & Hag & E & H)].
  - left. exists r. rewrite E. auto.
  - right. exists a, c, apts, b, rows. eexists. rewrite E. simpl.
    repeat (split; [first [assumption|reflexivity]|]).
    split; [apply arrange_permutation|exact H].
Qed.

(** *** Cancellation *)

Lemma agent_finds d bid a b :
  NoDup (map BulkBooking.id (bulkBooking d)) ->
  find_booking bid d = Some b ->
  find_first (fun b => String.eqb (BulkBooking.id b) bid
                       && String.eqb (BulkBooking.agentId b) a)
             (bulkBooking d)
  = if String.eqb (BulkBooking.agentId b) a then Some b else None.
Proof.
  intros Hnd Hb.
  apply (find_first_refine BulkBooking.id bid
           (fun b => String.eqb (BulkBooking.agentId b) a) _ _ Hnd Hb).
Qed.



(** *** Retry *)

Lemma agent_finds_none d bid a :
  (forall b, find_booking bid d = Some b -> BulkBooking.agentId b <> a) ->
  NoDup (map BulkBooking.id (bulkBooking d)) ->
  find_first (fun b => String.eqb (BulkBooking.id b) bid
                       && String.eqb (BulkBooking.agentId b) a)
             (bulkBooking d) = None.
Proof.
  intros Hno Hnd.
  destruct (find_booking bid d) as [b|] eqn:Hb.
  - rewrite (agent_finds d bid a b Hnd Hb).
    destruct (String.eqb_spec (BulkBooking.agentId b) a) as [E|E]; [|reflexivity].
    exfalso. apply (Hno b eq_refl E).
  - unfold find_booking, find_first in *.
    destruct (find (fun b => String.eqb (BulkBooking.id b) bid
                             && String.eqb (BulkBooking.agentId b) a)
                   (bulkBooking d)) as [b|] eqn:E; [|reflexivity].
    exfalso. apply find_some in E. destruct E as [Hin Hp]. apply andb_prop in Hp.
    eapply find_none in Hb; [|exact Hin]. simpl in Hb. destruct Hp; congruence.
Qed.

(** The invocation of the retry handler on a booking of the caller, as
    the world it leaves when no call rejects. *)
Lemma retry_world env d req a b :
  no_faults env ->
  NoDup (map BulkBooking.id (bulkBooking d)) ->
  truthy (r_agent req) = Some a ->
  find_booking (r_id req) d = Some b ->
  BulkBooking.agentId b = a ->
  let d1 :=
    with_items
      (update_where
         (fun r => existsb (String.eqb (BulkBookingItem.id r))
                     (map BulkBookingItem.id
                        (filter (selects req) (items_of (r_id req) d)))
                   && is_status BulkItemStatus.FAILED r)
         (set_item {| id_status := BulkItemStatus.PENDING;
                      id_appointmentId := None;
                      id_errorMessage := Some None;
                      id_processedAt := None |})
         (bulkBookingItem d)) d in
  let d2 :=
    if BulkBookingStatus.eqb (BulkBooking.status b) BulkBookingStatus.FAILED
    then with_bookings
           (update_where (booking_is (r_id req))
              (set_booking {| bd_status := Some BulkBookingStatus.PROCESSING;
                              bd_successfulItems := None;
                              bd_failedItems := None;
                              bd_completedAt := Some None;
                              bd_notes := None |})
              (bulkBooking d)) d1
    else d1 in
  exists k,
    retry req env (Build_World d 0 [])
    = (Ok (json 200 (message "Retry initiated successfully")),
       Build_World d2 k [("processaBulkBooking", r_id req)]).
Proof.
  intros Hnf Hnd Ha Hb Hag d1 d2.
  destruct (find_booking_id _ _ _ Hb) as [Hid _].
  unfold retry, try_catch, bind. rewrite Ha.
  unfold bulkBooking_findFirst, call at 1. simpl. rewrite (Hnf 0%nat).
  rewrite (agent_finds d _ a b Hnd Hb).
  apply String.eqb_eq in Hag. rewrite Hag.
  cbv beta iota delta [option_map]. rewrite Hid.
  unfold bulkBookingItem_resetFailed, call at 1. simpl. rewrite (Hnf 1%nat).
  fold (selects req). fold d1.
  unfold d2. destruct (BulkBookingStatus.eqb (BulkBooking.status b) BulkBookingStatus.FAILED).
  - unfold bulkBooking_update, call at 1. simpl. rewrite (Hnf 2%nat).
    replace (find_booking (r_id req) d1) with (Some b) by (symmetry; exact Hb).
    simpl. eexists. reflexivity.
  - simpl. eexists. reflexivity.
Qed.

Lemma retried_rows req d :
  keyed d ->
  Forall2 (retried req) (bulkBookingItem d)
    (update_where
       (fun r => existsb (String.eqb (BulkBookingItem.id r))
                   (map BulkBookingItem.id (filter (selects req) (items_of (r_id req) d)))
                 && is_status BulkItemStatus.FAILED r)
       (set_item {| id_status := BulkItemStatus.PENDING;
                    id_appointmentId := None;
                    id_errorMessage := Some None;
                    id_processedAt := None |})
       (bulkBookingItem d)).
Proof.
  intros Hk. apply Forall2_update_where_In. intros r Hr. unfold retried.
  destruct (is_status BulkItemStatus.FAILED r) eqn:Hf;
    [|rewrite !andb_false_r; reflexivity].
  rewrite !andb_true_r.
  destruct (existsb _ _) eqn:Hex.
  - apply existsb_exists in Hex. destruct Hex as (i & Hi & Ei).
    apply String.eqb_eq in Ei. apply in_map_iff in Hi. destruct Hi as (r0 & E0 & Hr0).
    apply filter_In in Hr0. destruct Hr0 as [Hr0 Hsel].
    unfold items_of in Hr0. apply filter_In in Hr0. destruct Hr0 as [Hin0 Hof0].
    assert (r0 = r).
    { apply (key_determines_row BulkBookingItem.id (bulkBookingItem d));
        [exact Hk|exact Hin0|exact Hr|congruence]. }
    subst r0. unfold of_booking. rewrite Hof0, Hsel. simpl.
    repeat split.
  - destruct (of_booking (r_id req) r && selects req r) eqn:Hc; [|reflexivity].
    exfalso. apply andb_prop in Hc. destruct Hc as [Hof Hsel].
    assert (Hyes : existsb (String.eqb (BulkBookingItem.id r))
                     (map BulkBookingItem.id
                        (filter (selects req) (items_of (r_id req) d))) = true).
    { apply existsb_exists. exists (BulkBookingItem.id r). split; [|apply String.eqb_refl].
      apply in_map. apply filter_In. split; [|exact Hsel].
      unfold items_of. apply filter_In. split; [exact Hr|exact Hof]. }
    congruence.
Qed.

(** X22. The retry handler, when no call rejects. For a booking that does
    not exist or belongs to another agent it answers 404, writes nothing
    and starts nothing. For a booking of the calling agent, whatever its
    status (COMPLETED and CANCELLED included), it answers 200 when it has
    made PENDING the FAILED items that the request selects, made the
    booking PROCESSING if it was FAILED, and started
    [processaBulkBooking] on it: at the answer the items are still to be
    processed. Once that run has gone from its first call to its last with
    no other write in between and no call rejected, no item of the booking
    is PENDING, and the booking carries the counts of its SUCCESS and
    FAILED items and the status FAILED if every item is FAILED and
    COMPLETED otherwise. *)
Theorem retry_processes_again env env' d req a :
  no_faults env ->
  no_faults env' ->
  NoDup (map BulkBooking.id (bulkBooking d)) ->
  keyed d ->
  truthy (r_agent req) = Some a ->
  ((forall b, find_booking (r_id req) d = Some b -> BulkBooking.agentId b <> a) ->
   run (retry req) env d = (Ok (json 404 (message "Bulk booking not found")), d) /\
   launched (retry req) env d = []) /\
  (forall b,
     find_booking (r_id req) d = Some b ->
     BulkBooking.agentId b = a ->
     let d1 := snd (run (retry req) env d) in
     let d2 := snd (run (processaBulkBooking (r_id req)) env' d1) in
     (fst (run (retry req) env d) = Ok (json 200 (message "Retry initiated successfully")) /\
      launched (retry req) env d = [("processaBulkBooking", r_id req)] /\
      Forall2 (retried req) (bulkBookingItem d) (bulkBookingItem d1) /\
      (exists b1, find_booking (r_id req) d1 = Some b1 /\ restarted b b1) /\
      customer d1 = customer d /\
      appointment d1 = appointment d) /\
     ((forall i, In i (items_of (r_id req) d2) ->
                 BulkBookingItem.status i <> BulkItemStatus.PENDING) /\
      exists b2,
        find_booking (r_id req) d2 = Some b2 /\
        BulkBooking.successfulItems b2
        = count BulkItemStatus.SUCCESS (items_of (r_id req) d2) /\
        BulkBooking.failedItems b2 = count BulkItemStatus.FAILED (items_of (r_id req) d2) /\
        BulkBooking.status b2
        = finalStatus (count BulkItemStatus.FAILED (items_of (r_id req) d2))
                      (len (items_of (r_id req) d2)))).
Proof.
  intros Hnf Hnf' Hnd Hk Ha. split.
  - intros Hno. unfold run, launched, retry, try_catch, bind. rewrite Ha.
    unfold bulkBooking_findFirst, call. simpl. rewrite (Hnf 0%nat).
    rewrite (agent_finds_none d _ a Hno Hnd). split; reflexivity.
  - intros b Hb Hag.
    destruct (retry_world env d req a b Hnf Hnd Ha Hb Hag) as [k E].
    cbv zeta in E. unfold run, launched. rewrite E. cbv zeta. simpl fst. simpl snd.
    simpl started. simpl db.
    destruct (find_booking_id _ _ _ Hb) as [Hid _].
    match type of E with
    | _ = (_, Build_World ?x _ _) => set (d1 := x) in *
    end.
    assert (Hitems : Forall2 (retried req) (bulkBookingItem d) (bulkBookingItem d1)).
    { unfold d1.
      destruct (BulkBookingStatus.eqb (BulkBooking.status b) BulkBookingStatus.FAILED);
        simpl; apply retried_rows; exact Hk. }
    assert (Hb1 : exists b1, find_booking (r_id req) d1 = Some b1 /\ restarted b b1).
    { unfold d1, restarted.
      destruct (BulkBookingStatus.eqb (BulkBooking.status b) BulkBookingStatus.FAILED).
      - eexists. split.
        + unfold find_booking. simpl. apply find_booking_updated. exact Hb.
        + simpl. unfold booking_kept. repeat split.
          intros Hne. exfalso. apply Hne. reflexivity.
      - exists b. split; [exact Hb|reflexivity]. }
    split.
    + split; [reflexivity|]. split; [reflexivity|]. split; [exact Hitems|].
      split; [exact Hb1|].
      unfold d1.
      destruct (BulkBookingStatus.eqb (BulkBooking.status b) BulkBookingStatus.FAILED);
        split; reflexivity.
    + destruct Hb1 as (b1 & Hb1 & _).
      destruct (try_no_faults (r_id req) env' (Build_World d1 0 []) b1 Hnf' Hb1) as [w' Ht].
      rewrite (process_after_try _ _ _ _ _ Ht). simpl snd.
      destruct (try_ok_booking _ _ _ _ Ht) as (b0 & now & _ & Hb' & Hnone & _).
      split; [exact Hnone|]. eexists. split; [exact Hb'|]. simpl. repeat split.
Qed.

Lemma retry_processes_again_witness :
  let req := {| r_agent := Some "agent-7"; r_id := "id1"; r_itemIds := None |} in
  let env := unlucky_at 0 in
  let d := two_visits_done in
  ((forall b, find_booking "id1" d = Some b -> BulkBooking.agentId b <> "agent-7") ->
   run (retry req) env d = (Ok (json 404 (message "Bulk booking not found")), d) /\
   launched (retry req) env d = []) /\
  (forall b,
     find_booking "id1" d = Some b ->
     BulkBooking.agentId b = "agent-7" ->
     let d1 := snd (run (retry req) env d) in
     let d2 := snd (run (processaBulkBooking "id1") env d1) in
     (fst (run (retry req) env d) = Ok (json 200 (message "Retry initiated successfully")) /\
      launched (retry req) env d = [("processaBulkBooking", "id1")] /\
      Forall2 (retried req) (bulkBookingItem d) (bulkBookingItem d1) /\
      (exists b1, find_booking "id1" d1 = Some b1 /\ restarted b b1) /\
      customer d1 = customer d /\
      appointment d1 = appointment d) /\
     ((forall i, In i (items_of "id1" d2) ->
                 BulkBookingItem.status i <> BulkItemStatus.PENDING) /\
      exists b2,
        find_booking "id1" d2 = Some b2 /\
        BulkBooking.successfulItems b2 = count BulkItemStatus.SUCCESS (items_of "id1" d2) /\
        BulkBooking.failedItems b2 = count BulkItemStatus.FAILED (items_of "id1" d2) /\
        BulkBooking.status b2
        = finalStatus (count BulkItemStatus.FAILED (items_of "id1" d2))
                      (len (items_of "id1" d2)))).
Proof.
  apply (retry_processes_again (unlucky_at 0) (unlucky_at 0) two_visits_done
           {| r_agent := Some "agent-7"; r_id := "id1"; r_itemIds := None |} "agent-7").
  - intros n. reflexivity.
  - intros n. reflexivity.
  - repeat constructor; simpl; intuition discriminate.
  - unfold keyed. repeat constructor; simpl; intuition discriminate.
  - reflexivity.
Defined.

End BulkHandlers.

(** ** Authentication *)

Module AuthFacts.
Import Prisma Auth.

Lemma substring_all (s : string) : String.substring 0 (String.length s) s = s.
Proof. induction s as [|c s IH]; simpl; [reflexivity|]. rewrite IH. reflexivity. Qed.

Lemma prefix_split (p h : string) :
  String.prefix p h = true ->
  h = p ++ String.substring (String.length p) (String.length h - String.length p) h.
Proof.
  revert h. induction p as [|a p IH]; intros h H.
  - simpl. rewrite Nat.sub_0_r, substring_all. reflexivity.
  - destruct h as [|b h]; simpl in H; [discriminate|].
    destruct (Ascii.ascii_dec a b) as [->|]; [|discriminate].
    simpl. f_equal. apply IH, H.
Qed.

Lemma prefix_append (p t : string) : String.prefix p (p ++ t) = true.
Proof.
  induction p as [|a p IH]; simpl; [destruct t; reflexivity|].
  destruct (Ascii.ascii_dec a a); [exact IH|contradiction].
Qed.

Lemma substring_append (p t : string) :
  String.substring (String.length p) (String.length (p ++ t) - String.length p) (p ++ t) = t.
Proof.
  induction p as [|a p IH]; simpl.
  - rewrite Nat.sub_0_r. apply substring_all.
  - exact IH.
Qed.

Lemma extractTokenFromHeader_sound (authHeader : option string) (token : string) :
  extractTokenFromHeader authHeader = Some token ->
  authHeader = Some ("Bearer " ++ token).
Proof.
  unfold extractTokenFromHeader.
  destruct authHeader as [h|]; [|discriminate].
  destruct (falsy (Some h)); [discriminate|]. simpl orb.
  destruct (String.prefix "Bearer " h) eqn:Hp; [|discriminate].
  simpl negb. cbv iota. intros H. inversion H as [Ht]. clear H.
  f_equal. apply (prefix_split "Bearer " h Hp).
Qed.

Lemma extractTokenFromHeader_complete (token : string) :
  extractTokenFromHeader (Some ("Bearer " ++ token)) = Some token.
Proof.
  unfold extractTokenFromHeader.
  replace (falsy (Some ("Bearer " ++ token))) with false by reflexivity.
  rewrite (prefix_append "Bearer " token). simpl orb. cbv iota.
  f_equal. apply (substring_append "Bearer " token).
Qed.

(** X23. [extractTokenFromHeader] returns a token exactly for a header
    that is ['Bearer '] followed by the token, and then this token, the
    empty one included; for every other header, and without header, it
    returns [null]. *)
Theorem extractTokenFromHeader_bearer (authHeader : option string) :
  (forall token,
      extractTokenFromHeader authHeader = Some token <->
      authHeader = Some ("Bearer " ++ token)) /\
  (extractTokenFromHeader authHeader = None <->
   forall token, authHeader <> Some ("Bearer " ++ token)).
Proof.
  split.
  - intros token. split; [apply extractTokenFromHeader_sound|].
    intros ->. apply extractTokenFromHeader_complete.
  - split.
    + intros Hnone token ->. rewrite extractTokenFromHeader_complete in Hnone.
      discriminate.
    + intros Hno. destruct (extractTokenFromHeader authHeader) as [token|] eqn:E;
        [|reflexivity].
      exfalso. apply (Hno token). apply extractTokenFromHeader_sound. exact E.
Qed.

Section MiddlewareFacts.
Variable jwt_verify : string -> Verification.

Lemma authentication_error_401 e :
  exists m err, authentication_error e = answer 401 m err.
Proof.
  unfold authentication_error. destruct (String.eqb e _); eexists; eexists; reflexivity.
Qed.

(** X24. [authenticateToken] lets a request pass exactly when its header
    is ['Bearer '] followed by a non-empty token that [jwt.verify] decodes
    and the collection has an agent with the identifier of the payload
    whose status is active or pending; [req.agent] is then the payload.
    Every other request is answered by the middleware itself, always with
    401: a missing token, an expired or invalid one, an unknown or
    inactive agent, and a query that the database rejects alike. *)
Theorem authenticateToken_passes authorization agents :
  (forall agent,
      authenticateToken jwt_verify authorization agents = next agent <->
      exists token documents document,
        authorization = Some ("Bearer " ++ token) /\
        token <> "" /\
        jwt_verify token = Decoded agent /\
        agents = Ok documents /\
        In document documents /\
        doc_agentId document = agentId agent /\
        (doc_status document = "active" \/ doc_status document = "pending")) /\
  (forall c m e,
      authenticateToken jwt_verify authorization agents = answer c m e -> c = 401).
Proof.
  split.
  - intros agent. unfold authenticateToken, verifyAccessToken, Agent_findOne. split.
    + destruct (truthy (extractTokenFromHeader authorization)) as [token|] eqn:Ht;
        [|discriminate].
      unfold truthy in Ht.
      destruct (falsy (extractTokenFromHeader authorization)) eqn:Hf; [discriminate|].
      pose proof (extractTokenFromHeader_sound _ _ Ht) as Hh.
      destruct (jwt_verify token) as [payload| | |] eqn:Hv;
        try (unfold authentication_error; simpl; discriminate).
      destruct agents as [documents|e];
        [|unfold authentication_error; destruct (String.eqb e _); discriminate].
      destruct (find _ documents) as [document|] eqn:Hd; [|discriminate].
      intros H. inversion H as [Hagent]. clear H.
      apply find_some in Hd. destruct Hd as [Hin Hp]. apply andb_prop in Hp.
      destruct Hp as [Hid Hst]. apply String.eqb_eq in Hid. apply orb_prop in Hst.
      exists token, documents, document.
      assert (Epayload : payload
                         = {| agentId := agentId payload; email := email payload;
                              status := status payload;
                              permissions := permissions payload |})
        by (destruct payload; reflexivity).
      rewrite <- Epayload. simpl.
      split; [exact Hh|]. split.
      { intros ->. rewrite Ht in Hf. discriminate. }
      repeat split; try assumption.
      destruct Hst as [E|E]; apply String.eqb_eq in E; auto.
    + intros (token & documents & document & -> & Hne & Hv & -> & Hin & Hid & Hst).
      assert (Ht : truthy (extractTokenFromHeader (Some ("Bearer " ++ token))) = Some token).
      { unfold truthy. rewrite (extractTokenFromHeader_complete token). unfold falsy.
        destruct (String.eqb_spec token ""); [contradiction|reflexivity]. }
      rewrite Ht, Hv.
      destruct (find _ documents) as [found|] eqn:Hd.
      * destruct agent; reflexivity.
      * exfalso. eapply find_none in Hd; [|exact Hin]. simpl in Hd.
        rewrite Hid, String.eqb_refl in Hd.
        destruct Hst as [E|E]; rewrite E in Hd; discriminate.
  - intros c m e. unfold authenticateToken, verifyAccessToken, Agent_findOne.
    destruct (truthy (extractTokenFromHeader authorization)) as [token|].
    2:{ intros H. inversion H. reflexivity. }
    assert (Herr : forall x, authentication_error x = answer c m e -> c = 401).
    { intros x Hx. destruct (authentication_error_401 x) as (m' & e' & Ex).
      rewrite Ex in Hx. inversion Hx. reflexivity. }
    destruct (jwt_verify token); try apply Herr.
    destruct agents as [documents|x]; [|apply Herr].
    destruct (find _ documents); [discriminate|].
    intros H. inversion H. reflexivity.
Qed.

End MiddlewareFacts.

End AuthFacts.
